(** * Simple LMK reclaim engine and the max-boost coalescing it relies on

    A shallow embedding of
      - drivers/staging/android/simple_lmk.c   (scan_and_kill, do_lmk_reclaim,
        the two trigger entry points, the activation parameter),
      - drivers/cpufreq/cpu_input_boost.c      (__cpu_input_boost_kick_max
        first; the workers, notifiers and set-up of the driver after the
        reclaim engine), and
      - arch/sparc/include/asm/atomic_64.h     (the add-unless loops),
    for the arm64 target of the tree ([unsigned long] is 64 bits wide).

    C integers are [Z] with the wrap-around written out; globals live in one
    [world] record that every function threads through; calls into the rest
    of the kernel leave an [event] in the world's trace. *)

From Stdlib Require Import ZArith Bool Lia String.
From stdpp Require Import base tactics option list numbers relations.

Local Open Scope Z_scope.

(** ** Machine arithmetic *)

Definition BITS_PER_LONG : Z := 64.
Definition ULONG_MOD : Z := 2 ^ BITS_PER_LONG.
Definition LONG_MAX : Z := 2 ^ (BITS_PER_LONG - 1) - 1.

(** [(unsigned long)x]: reduction modulo 2^64. *)
Definition to_ulong (x : Z) : Z := x mod ULONG_MOD.

(** [(long)x]: the two's-complement reading of the same 64 bits. *)
Definition to_long (x : Z) : Z :=
  let u := to_ulong x in if u <=? LONG_MAX then u else u - ULONG_MOD.

Definition INT_MOD : Z := 2 ^ 32.
Definition INT_MAX : Z := 2 ^ 31 - 1.

(** [(unsigned int)x]: reduction modulo 2^32. *)
Definition to_uint (x : Z) : Z := x mod INT_MOD.

(** [(unsigned short)x]: reduction modulo 2^16. *)
Definition to_ushort (x : Z) : Z := x mod 2 ^ 16.

(** [(int)x]: the two's-complement reading of the low 32 bits.  The kernel
    is built with -fno-strict-overflow, so [int] and [long] arithmetic
    wraps. *)
Definition to_int (x : Z) : Z :=
  let u := to_uint x in if u <=? INT_MAX then u else u - INT_MOD.

(** Modelled from the spec: the jiffies comparisons of include/linux/jiffies.h
    (not among the files modelled), which decide "earlier expiry" and
    "interval elapsed"; written in the kernel's wrap-safe form,
    [time_after(a,b)] is [(long)((b) - (a)) < 0] and
    [time_after_eq(a,b)] is [(long)((a) - (b)) >= 0]. *)
Definition time_after (a b : Z) : bool := to_long (b - a) <? 0.
Definition time_after_eq (a b : Z) : bool := 0 <=? to_long (a - b).

(** [atomic64_read]/[atomic_read] of asm/atomic_64.h are plain loads of the
    counter, [atomic_set] a plain store. *)
Definition atomic64_read (counter : Z) : Z := counter.
Definition atomic_read (counter : Z) : Z := counter.

(** ** Process descriptors (the fields simple_lmk.c touches) *)

Record mm_struct := { rss_stat : Z }.
Record signal_struct := { oom_score_adj : Z }.

Record task_struct := {
  pid : Z;
  tgid : Z;
  flags : Z;
  mm : option mm_struct;
  signal : signal_struct;
  thread_flags : Z;
  lmk_sigkill_sent : bool;
  policy : Z;
  rt_priority : Z
}.

(** ** Platform constants and primitives the two drivers only use

    Everything here is declared elsewhere in the kernel tree; it is taken as
    a parameter of the development. *)
Record platform := {
  PAGE_SIZE : Z;                          (* an [unsigned long] *)
  SZ_1M : Z;                              (* an [int] *)
  CONFIG_ANDROID_SIMPLE_LMK_MINFREE : Z;  (* an [int] *)
  LMK_KSWAPD_TIMEOUT : Z;
  LMK_OOM_TIMEOUT : Z;
  PF_KTHREAD : Z;
  TIF_MEMDIE : Z;
  MAX_RT_PRIO : Z;
  SCHED_FIFO : Z;
  msecs_to_jiffies : Z -> Z;
  (** return value of [do_send_sig_info(SIGKILL, SEND_SIG_FORCED, victim, true)]:
      0 on delivery, an errno otherwise *)
  do_send_sig_info : task_struct -> Z
}.

(** ** drivers/cpufreq/cpu_input_boost.c *)

Definition SCREEN_AWAKE : Z := Z.shiftl 1 0.
Definition INPUT_BOOST : Z := Z.shiftl 1 1.
Definition WAKE_BOOST : Z := Z.shiftl 1 2.
Definition MAX_BOOST : Z := Z.shiftl 1 3.

(** [struct boost_drv]: the two atomics the max-boost path writes, the state
    bits, and whether the [max_boost] kthread work is queued on the worker.
    [max_boost_expires] is an [atomic64_t], whose counter is a [long];
    [max_boost_dur] and [state] are [atomic_t]s, whose counter is an
    [int]. *)
Record boost_drv := {
  max_boost_expires : Z;
  max_boost_dur : Z;
  state : Z;
  max_boost_queued : bool
}.

Definition set_max_boost_expires (v : Z) (b : boost_drv) : boost_drv :=
  {| max_boost_expires := v; max_boost_dur := max_boost_dur b;
     state := state b; max_boost_queued := max_boost_queued b |}.

(** What one [__cpu_input_boost_kick_max] call did to the stored expiry,
    in the [unsigned long] values of [curr_expires] and [new_expires]. *)
Inductive kick_outcome :=
  | Dropped (kept : Z)
  | Committed (replaced : Z) (stored : Z).

(** Interference met by one trip round the do/while loop: [at_cmpxchg] is
    what [max_boost_expires] holds when this CPU's [atomic64_cmpxchg] runs
    (other CPUs may have stored since the [atomic64_read]); when the cmpxchg
    fails, [at_next_read] is what the next [atomic64_read] finds and
    [jiffies_then] the jiffies value read next. *)
Record cas_race := { at_cmpxchg : Z; at_next_read : Z; jiffies_then : Z }.

Section CpuInputBoost.
Variable P : platform.

(** The tail of [__cpu_input_boost_kick_max], reached when the cmpxchg
    returned [curr_expires]: the cmpxchg has stored the [unsigned long]
    [new_expires] in the [long] counter, and [atomic_set] stores the
    [unsigned int] duration in an [int] counter. *)
Definition kick_commit (b : boost_drv) (new_expires duration_ms : Z) : boost_drv :=
  {| max_boost_expires := to_long new_expires;
     max_boost_dur := to_int duration_ms;
     state := state b;
     max_boost_queued := true |}.

(** [__cpu_input_boost_kick_max(b, duration_ms)] entered at jiffies [now],
    [duration_ms] being an [unsigned int].  The do/while loop goes round
    once more for every entry of [races] whose [at_cmpxchg] differs from the
    value just read; once [races] is used up nobody interferes and the
    cmpxchg succeeds. *)
Fixpoint __cpu_input_boost_kick_max (races : list cas_race) (now : Z)
    (b : boost_drv) (duration_ms : Z) : kick_outcome * boost_drv :=
  let curr_expires := to_ulong (atomic64_read (max_boost_expires b)) in
  let new_expires := to_ulong (now + msecs_to_jiffies P duration_ms) in
  if time_after curr_expires new_expires then (Dropped curr_expires, b)
  else
    match races with
    | [] => (Committed curr_expires new_expires,
             kick_commit b new_expires duration_ms)
    | r :: races' =>
        if to_ulong (at_cmpxchg r) =? curr_expires
        then (Committed curr_expires new_expires,
              kick_commit b new_expires duration_ms)
        else __cpu_input_boost_kick_max races' (jiffies_then r)
               (set_max_boost_expires (at_next_read r) b) duration_ms
    end.

(** [cpu_input_boost_kick_max(duration_ms)]: a no-op until the driver has
    published [boost_drv_g]. *)
Definition cpu_input_boost_kick_max (now : Z) (boost_drv_g : option boost_drv)
    (duration_ms : Z) : option boost_drv :=
  match boost_drv_g with
  | None => None
  | Some b => Some (snd (__cpu_input_boost_kick_max [] now b duration_ms))
  end.

(** The expiry a request entered at jiffies [now] proposes, and the one it
    finds stored: [new_expires] and [curr_expires] of lines 120-121. *)
Definition new_expires_of (now duration_ms : Z) : Z :=
  to_ulong (now + msecs_to_jiffies P duration_ms).

Definition curr_expires_of (b : boost_drv) : Z :=
  to_ulong (atomic64_read (max_boost_expires b)).

(** A request that meets no concurrent writer, as a state transformer. *)
Definition kick_max (now duration_ms : Z) (b : boost_drv) : boost_drv :=
  snd (__cpu_input_boost_kick_max [] now b duration_ms).
End CpuInputBoost.

(** ** drivers/staging/android/simple_lmk.c: state *)

Definition BOOST_DURATION_MS : Z := 250.

(** Pulled from the Android framework. *)
Definition adj_prio : list Z :=
  [ 906  (* CACHED_APP_MAX_ADJ *)
  ; 900  (* CACHED_APP_MIN_ADJ *)
  ; 800  (* SERVICE_B_ADJ *)
  ; 700  (* PREVIOUS_APP_ADJ *)
  ; 600  (* HOME_APP_ADJ *)
  ; 500  (* SERVICE_ADJ *)
  ; 400  (* HEAVY_WEIGHT_APP_ADJ *)
  ; 300  (* BACKUP_APP_ADJ *)
  ; 200  (* PERCEPTIBLE_APP_ADJ *)
  ; 100  (* VISIBLE_APP_ADJ *)
  ; 0    (* FOREGROUND_APP_ADJ *) ].

(** [ARRAY_SIZE(tbl)] and [tbl[i]]. *)
Definition ARRAY_SIZE (tbl : list Z) : nat := length tbl.
Definition at_index (tbl : list Z) (i : nat) : Z := nth i tbl 0.

(** The two callers of [do_lmk_reclaim]. *)
Inductive trigger := Kswapd | Oom.

(** Calls that leave simple_lmk.c, in program order.  [EvScanAndKill] and
    [EvScanReturn] bracket one [scan_and_kill] activation with its arguments
    and its return value. *)
Inductive event :=
  | EvCpuInputBoostKickMax (duration_ms : Z)
  | EvDevfreqBoostKickMax (duration_ms : Z)
  | EvScanAndKill (min_adj max_adj pages_needed : Z)
  | EvSendSigInfo (victim : task_struct) (ret : Z)
  | EvScanReturn (pages_freed : Z)
  | EvPrInfo (who : trigger) (mib_freed : Z)
  | EvQueueDelayedWork (delay : Z)
  | EvCancelDelayedWorkSync.

(** The file's globals, the process list [for_each_process] walks, the
    caller's task, the boost driver's global, and the jiffies counter as the
    running function finds it at its first read; the counter runs on
    meanwhile, and a function that reads it again is told what it has come
    to by then. *)
Record world := {
  jiffies : Z;
  current : task_struct;
  tasks : list task_struct;
  boost_drv_g : option boost_drv;
  reclaim_lock : bool;
  reclaim_work_queued : bool;
  simple_lmk_wq : Z;
  last_reclaim_jiffies : Z;
  simple_lmk_ready : Z;
  trace : list event
}.

Definition set_tasks (ts : list task_struct) (w : world) : world :=
  {| jiffies := jiffies w; current := current w; tasks := ts;
     boost_drv_g := boost_drv_g w; reclaim_lock := reclaim_lock w;
     reclaim_work_queued := reclaim_work_queued w;
     simple_lmk_wq := simple_lmk_wq w;
     last_reclaim_jiffies := last_reclaim_jiffies w;
     simple_lmk_ready := simple_lmk_ready w; trace := trace w |}.

Definition set_boost_drv_g (b : option boost_drv) (w : world) : world :=
  {| jiffies := jiffies w; current := current w; tasks := tasks w;
     boost_drv_g := b; reclaim_lock := reclaim_lock w;
     reclaim_work_queued := reclaim_work_queued w;
     simple_lmk_wq := simple_lmk_wq w;
     last_reclaim_jiffies := last_reclaim_jiffies w;
     simple_lmk_ready := simple_lmk_ready w; trace := trace w |}.

Definition set_reclaim_lock (held : bool) (w : world) : world :=
  {| jiffies := jiffies w; current := current w; tasks := tasks w;
     boost_drv_g := boost_drv_g w; reclaim_lock := held;
     reclaim_work_queued := reclaim_work_queued w;
     simple_lmk_wq := simple_lmk_wq w;
     last_reclaim_jiffies := last_reclaim_jiffies w;
     simple_lmk_ready := simple_lmk_ready w; trace := trace w |}.

Definition set_reclaim_work_queued (q : bool) (w : world) : world :=
  {| jiffies := jiffies w; current := current w; tasks := tasks w;
     boost_drv_g := boost_drv_g w; reclaim_lock := reclaim_lock w;
     reclaim_work_queued := q;
     simple_lmk_wq := simple_lmk_wq w;
     last_reclaim_jiffies := last_reclaim_jiffies w;
     simple_lmk_ready := simple_lmk_ready w; trace := trace w |}.

Definition set_simple_lmk_wq (wq : Z) (w : world) : world :=
  {| jiffies := jiffies w; current := current w; tasks := tasks w;
     boost_drv_g := boost_drv_g w; reclaim_lock := reclaim_lock w;
     reclaim_work_queued := reclaim_work_queued w;
     simple_lmk_wq := wq;
     last_reclaim_jiffies := last_reclaim_jiffies w;
     simple_lmk_ready := simple_lmk_ready w; trace := trace w |}.

Definition set_last_reclaim_jiffies (j : Z) (w : world) : world :=
  {| jiffies := jiffies w; current := current w; tasks := tasks w;
     boost_drv_g := boost_drv_g w; reclaim_lock := reclaim_lock w;
     reclaim_work_queued := reclaim_work_queued w;
     simple_lmk_wq := simple_lmk_wq w;
     last_reclaim_jiffies := j;
     simple_lmk_ready := simple_lmk_ready w; trace := trace w |}.

Definition set_simple_lmk_ready (r : Z) (w : world) : world :=
  {| jiffies := jiffies w; current := current w; tasks := tasks w;
     boost_drv_g := boost_drv_g w; reclaim_lock := reclaim_lock w;
     reclaim_work_queued := reclaim_work_queued w;
     simple_lmk_wq := simple_lmk_wq w;
     last_reclaim_jiffies := last_reclaim_jiffies w;
     simple_lmk_ready := r; trace := trace w |}.

Definition set_jiffies (j : Z) (w : world) : world :=
  {| jiffies := j; current := current w; tasks := tasks w;
     boost_drv_g := boost_drv_g w; reclaim_lock := reclaim_lock w;
     reclaim_work_queued := reclaim_work_queued w;
     simple_lmk_wq := simple_lmk_wq w;
     last_reclaim_jiffies := last_reclaim_jiffies w;
     simple_lmk_ready := simple_lmk_ready w; trace := trace w |}.

(** Append to the trace. *)
Definition log (evs : list event) (w : world) : world :=
  {| jiffies := jiffies w; current := current w; tasks := tasks w;
     boost_drv_g := boost_drv_g w; reclaim_lock := reclaim_lock w;
     reclaim_work_queued := reclaim_work_queued w;
     simple_lmk_wq := simple_lmk_wq w;
     last_reclaim_jiffies := last_reclaim_jiffies w;
     simple_lmk_ready := simple_lmk_ready w; trace := trace w ++ evs |}.

(** The events a call added: what [w'] has beyond the trace of [w]. *)
Definition emitted (w w' : world) : list event :=
  drop (length (trace w)) (trace w').

(** [w'] differs from [w] at most in the process list, the boost driver,
    [last_reclaim_jiffies] and the trace: what a reclaim pass may write
    while the jiffies counter stands still. *)
Definition same_control (w w' : world) : Prop :=
  jiffies w' = jiffies w /\ current w' = current w
  /\ reclaim_lock w' = reclaim_lock w
  /\ reclaim_work_queued w' = reclaim_work_queued w
  /\ simple_lmk_wq w' = simple_lmk_wq w
  /\ simple_lmk_ready w' = simple_lmk_ready w.

(** ** Task accessors *)

(** Modelled from the spec: [same_thread_group] (linux/sched.h, not among the
    files modelled), the test for "the engine's own calling context"; thread
    groups are told apart by their [tgid]. *)
Definition same_thread_group (p1 p2 : task_struct) : bool :=
  tgid p1 =? tgid p2.

(** Modelled from the spec: [find_lock_task_mm] (mm/oom_kill.c, not among the
    files modelled).  A process is one descriptor here, so the task found is
    the process itself when it still has a memory context, and nothing when
    it "has no attached memory context (already exiting)". *)
Definition find_lock_task_mm (tsk : task_struct) : option task_struct :=
  match mm tsk with
  | Some _ => Some tsk
  | None => None
  end.

(** Modelled from the spec: [get_mm_rss] (linux/mm.h, not among the files
    modelled), the "resident memory footprint (pages)" of a memory context,
    an [unsigned long]. *)
Definition get_mm_rss (m : option mm_struct) : Z :=
  match m with
  | Some m => to_ulong (rss_stat m)
  | None => 0
  end.

(** Modelled from the spec: [test_tsk_thread_flag] (linux/sched.h, not among
    the files modelled); with TIF_MEMDIE it reads the "marked for death by
    platform" flag, one bit of the thread flags. *)
Definition test_tsk_thread_flag (tsk : task_struct) (flag : Z) : bool :=
  Z.testbit (thread_flags tsk) flag.

(** [victim->lmk_sigkill_sent = true]. *)
Definition mark_sigkill_sent (t : task_struct) : task_struct :=
  {| pid := pid t; tgid := tgid t; flags := flags t; mm := mm t;
     signal := signal t; thread_flags := thread_flags t;
     lmk_sigkill_sent := true;
     policy := policy t; rt_priority := rt_priority t |}.

(** Modelled from the spec: [sched_setscheduler_nocheck(p, policy, &param)]
    (kernel/sched/core.c, not among the files modelled), which "elevates its
    scheduling priority": it stores the policy and the priority. *)
Definition sched_setscheduler_nocheck (t : task_struct) (pol prio : Z)
    : task_struct :=
  {| pid := pid t; tgid := tgid t; flags := flags t; mm := mm t;
     signal := signal t; thread_flags := thread_flags t;
     lmk_sigkill_sent := lmk_sigkill_sent t;
     policy := pol; rt_priority := prio |}.

(** [oom_score_adj < min_adj || oom_score_adj > max_adj], the test that makes
    [scan_and_kill] pass over a task of another tier. *)
Definition adj_outside (min_adj max_adj adj : Z) : bool :=
  (adj <? min_adj) || (adj >? max_adj).

(** ** scan_and_kill and do_lmk_reclaim *)

Inductive loop_ctl := LoopContinue | LoopBreak.

(** Result of one pass through the body of the [for_each_process] loop. *)
Record scan_iter := {
  ctl : loop_ctl;
  tsk_after : task_struct;
  freed_after : Z;
  iter_events : list event
}.

Section SimpleLmk.
Variable P : platform.

(** The product is one of two [int]s; it is converted to [unsigned long]
    for the division by [PAGE_SIZE]. *)
Definition MIN_FREE_PAGES : Z :=
  to_ulong (to_int (CONFIG_ANDROID_SIMPLE_LMK_MINFREE P * SZ_1M P))
  / PAGE_SIZE P.

(** The body of the [for_each_process(tsk)] loop of [scan_and_kill]. *)
Definition scan_body (min_adj max_adj pages_needed : Z) (cur : task_struct)
    (tsk : task_struct) (pages_freed : Z) : scan_iter :=
  let skip := {| ctl := LoopContinue; tsk_after := tsk;
                 freed_after := pages_freed; iter_events := [] |} in
  (* Don't commit suicide or kill kthreads *)
  if same_thread_group tsk cur || negb (Z.land (flags tsk) (PF_KTHREAD P) =? 0)
  then skip
  else
    match find_lock_task_mm tsk with
    | None => skip
    | Some victim =>
        (* Don't kill tasks that have been killed or lack memory *)
        if lmk_sigkill_sent victim
           || test_tsk_thread_flag victim (TIF_MEMDIE P)
        then skip
        else
          let adj := oom_score_adj (signal victim) in
          if adj_outside min_adj max_adj adj then skip
          else
            let tasksize := get_mm_rss (mm victim) in
            if tasksize =? 0 then skip
            else
              let ret := do_send_sig_info P victim in
              if negb (ret =? 0)
              then {| ctl := LoopContinue; tsk_after := victim;
                      freed_after := pages_freed;
                      iter_events := [EvSendSigInfo victim ret] |}
              else
                let victim' :=
                  sched_setscheduler_nocheck (mark_sigkill_sent victim)
                    (SCHED_FIFO P) (MAX_RT_PRIO P - 1) in
                let pages_freed' := to_ulong (pages_freed + tasksize) in
                {| ctl := if pages_freed' >=? pages_needed
                          then LoopBreak else LoopContinue;
                   tsk_after := victim';
                   freed_after := pages_freed';
                   iter_events := [EvSendSigInfo victim ret] |}
    end.

(** The [for_each_process] loop over the process list [todo]: the freed
    total, the list with the victims' descriptors updated, the events. *)
Fixpoint scan_loop (min_adj max_adj pages_needed : Z) (cur : task_struct)
    (todo : list task_struct) (pages_freed : Z)
    : Z * list task_struct * list event :=
  match todo with
  | [] => (pages_freed, [], [])
  | tsk :: rest =>
      let it := scan_body min_adj max_adj pages_needed cur tsk pages_freed in
      match ctl it with
      | LoopBreak => (freed_after it, tsk_after it :: rest, iter_events it)
      | LoopContinue =>
          let '(freed, rest', evs) :=
            scan_loop min_adj max_adj pages_needed cur rest (freed_after it) in
          (freed, tsk_after it :: rest', iter_events it ++ evs)
      end
  end.

Definition scan_and_kill (min_adj max_adj pages_needed : Z) (w : world)
    : Z * world :=
  let '(pages_freed, ts, evs) :=
    scan_loop min_adj max_adj pages_needed (current w) (tasks w) 0 in
  (pages_freed,
   log (EvScanAndKill min_adj max_adj pages_needed :: evs
        ++ [EvScanReturn pages_freed])
     (set_tasks ts w)).

(** [for (i = 1; i < ARRAY_SIZE(adj_prio); i++)], as the list of the
    values [i] takes when no [break] is hit. *)
Definition tier_indices (tbl : list Z) : list nat :=
  seq 1 (ARRAY_SIZE tbl - 1).

Fixpoint tier_loop (tbl : list Z) (idx : list nat)
    (pages_needed pages_freed : Z) (w : world) : Z * world :=
  match idx with
  | [] => (pages_freed, w)
  | i :: idx' =>
      let '(n, w') :=
        scan_and_kill (at_index tbl i) (at_index tbl (i - 1))
          (to_ulong (pages_needed - pages_freed)) w in
      let pages_freed' := to_ulong (pages_freed + n) in
      if pages_freed' >=? pages_needed then (pages_freed', w')
      else tier_loop tbl idx' pages_needed pages_freed' w'
  end.

(** The two [*_boost_kick_max(..., BOOST_DURATION_MS)] calls that open
    [do_lmk_reclaim]. *)
Definition kick_boosts (w : world) : world :=
  let w1 :=
    log [EvCpuInputBoostKickMax BOOST_DURATION_MS]
      (set_boost_drv_g
         (cpu_input_boost_kick_max P (jiffies w) (boost_drv_g w)
            BOOST_DURATION_MS) w) in
  log [EvDevfreqBoostKickMax BOOST_DURATION_MS] w1.

(** [do_lmk_reclaim(pages_needed)].  The boost request reads jiffies as the
    world has it; [at_stamp] is what the counter has come to when line 127
    reads it again, after the scans. *)
Definition do_lmk_reclaim (pages_needed : Z) (at_stamp : Z) (w : world)
    : Z * world :=
  let w2 := kick_boosts w in
  let '(pages_freed, w3) :=
    tier_loop adj_prio (tier_indices adj_prio) pages_needed 0 w2 in
  let w3' := set_jiffies at_stamp w3 in
  let w4 := set_last_reclaim_jiffies (jiffies w3') w3' in
  (to_ulong (pages_freed * PAGE_SIZE P) / SZ_1M P, w4).

(** *** Trigger entry points, as straight-line code *)

(** Modelled from the spec: the mutex of linux/mutex.h (not among the files
    modelled) is "a mutual-exclusion lock", held or free.  This is
    [mutex_unlock(&reclaim_lock)]; taking it is written out where it happens:
    [mutex_lock] waits while the lock is held, [mutex_trylock] fails at
    once. *)
Definition mutex_unlock (w : world) : world := set_reclaim_lock false w.

(** Modelled from the spec: [queue_delayed_work(simple_lmk_wq, &reclaim_work,
    delay)] (linux/workqueue.h, not among the files modelled) "re-arms" the
    periodic trigger: the work is pending afterwards. *)
Definition queue_delayed_work (delay : Z) (w : world) : world :=
  log [EvQueueDelayedWork delay] (set_reclaim_work_queued true w).

(** Modelled from the spec: [cancel_delayed_work_sync(&reclaim_work)]
    (linux/workqueue.h, not among the files modelled) "cancels any pending
    periodic trigger": the work is not pending afterwards. *)
Definition cancel_delayed_work_sync (w : world) : world :=
  log [EvCancelDelayedWorkSync] (set_reclaim_work_queued false w).

(** [if (mib_freed) pr_info("...: freed %lu MiB\n", mib_freed);] *)
Definition pr_info_freed (who : trigger) (mib_freed : Z) (w : world) : world :=
  if mib_freed =? 0 then w else log [EvPrInfo who mib_freed] w.

Definition timeout_of (who : trigger) : Z :=
  match who with
  | Kswapd => LMK_KSWAPD_TIMEOUT P
  | Oom => LMK_OOM_TIMEOUT P
  end.

(** [time_after_eq(jiffies, last_reclaim_jiffies + timeout)]. *)
Definition reclaim_due (who : trigger) (w : world) : bool :=
  time_after_eq (jiffies w)
    (to_ulong (last_reclaim_jiffies w + timeout_of who)).

(** [simple_lmk_reclaim_work]; [None] when [mutex_lock] finds the lock held
    and the worker has to sleep until the holder unlocks.  The gate test
    reads jiffies as the world has it; [at_boost] is what the counter has
    come to when the pass makes its boost request, [at_stamp] when the pass
    reads it last. *)
Definition simple_lmk_reclaim_work (at_boost at_stamp : Z) (w : world)
    : option world :=
  if reclaim_lock w then None
  else
    let w1 := set_reclaim_lock true w in
    let '(mib_freed, w2) :=
      if reclaim_due Kswapd w1
      then do_lmk_reclaim MIN_FREE_PAGES at_stamp (set_jiffies at_boost w1)
      else (0, w1) in
    let w3 := mutex_unlock w2 in
    let w4 := pr_info_freed Kswapd mib_freed w3 in
    Some (queue_delayed_work (LMK_KSWAPD_TIMEOUT P) w4).

(** [simple_lmk_force_reclaim], with the later readings of jiffies as for
    [simple_lmk_reclaim_work]. *)
Definition simple_lmk_force_reclaim (at_boost at_stamp : Z) (w : world)
    : world :=
  if atomic_read (simple_lmk_ready w) =? 0 then w
  else
    (* Only one memory reclaim event can occur at a time *)
    if reclaim_lock w then w
    else
      let w1 := set_reclaim_lock true w in
      let '(mib_freed, w2) :=
        if reclaim_due Oom w1
        then do_lmk_reclaim MIN_FREE_PAGES at_stamp (set_jiffies at_boost w1)
        else (0, w1) in
      let w3 := mutex_unlock w2 in
      pr_info_freed Oom mib_freed w3.

Definition simple_lmk_start_reclaim (w : world) : world :=
  if atomic_read (simple_lmk_ready w) =? 0 then w
  else queue_delayed_work (LMK_KSWAPD_TIMEOUT P) w.

Definition simple_lmk_stop_reclaim (w : world) : world :=
  if atomic_read (simple_lmk_ready w) =? 0 then w
  else cancel_delayed_work_sync w.

(** [simple_lmk_init_set(val, kp)]; [wq] is what [alloc_workqueue] returns
    when it is called (0 for NULL).  [None] is [BUG_ON(!simple_lmk_wq)]. *)
Definition simple_lmk_init_set (val : list Z) (wq : Z) (w : world)
    : option (Z * world) :=
  if negb (atomic_read (simple_lmk_ready w) =? 0) then Some (0, w)
  else
    let w1 := set_simple_lmk_wq wq w in
    if simple_lmk_wq w1 =? 0 then None
    else Some (0, set_simple_lmk_ready 1 w1).

(** *** The same two triggers, one shared-memory access per step *)

(** Where a thread stands inside [simple_lmk_reclaim_work] or
    [simple_lmk_force_reclaim].  The pass is cut in two where it reads
    jiffies again: [InReclaim] stands before the boost requests, [AtStamp]
    before line 127 with the tier loop's [pages_freed]; what the counter
    reads at each step is what the world has then. *)
Inductive pc :=
  | AtEntry
  | AtLock
  | AtGate
  | InReclaim
  | AtStamp (pages_freed : Z)
  | AtUnlock (mib_freed : Z)
  | AtTail (mib_freed : Z)
  | AtReturn.

Inductive step_out :=
  | Next (p : pc) (w : world)
  | Sleeps
  | Finished.

Definition thread_step (who : trigger) (p : pc) (w : world) : step_out :=
  match p with
  | AtEntry =>
      match who with
      | Kswapd => Next AtLock w
      | Oom =>
          if atomic_read (simple_lmk_ready w) =? 0 then Next AtReturn w
          else Next AtLock w
      end
  | AtLock =>
      if reclaim_lock w then
        match who with
        | Kswapd => Sleeps           (* mutex_lock *)
        | Oom => Next AtReturn w     (* !mutex_trylock *)
        end
      else Next AtGate (set_reclaim_lock true w)
  | AtGate =>
      if reclaim_due who w then Next InReclaim w else Next (AtUnlock 0) w
  | InReclaim =>
      let '(pages_freed, w') :=
        tier_loop adj_prio (tier_indices adj_prio) MIN_FREE_PAGES 0
          (kick_boosts w) in
      Next (AtStamp pages_freed) w'
  | AtStamp pages_freed =>
      Next (AtUnlock (to_ulong (pages_freed * PAGE_SIZE P) / SZ_1M P))
        (set_last_reclaim_jiffies (jiffies w) w)
  | AtUnlock mib_freed => Next (AtTail mib_freed) (mutex_unlock w)
  | AtTail mib_freed =>
      let w' := pr_info_freed who mib_freed w in
      match who with
      | Kswapd => Next AtReturn (queue_delayed_work (LMK_KSWAPD_TIMEOUT P) w')
      | Oom => Next AtReturn w'
      end
  | AtReturn => Finished
  end.

(** A thread running with nobody else scheduled in between, the jiffies
    counter standing still. *)
Fixpoint run_alone (fuel : nat) (who : trigger) (p : pc) (w : world)
    : option world :=
  match fuel with
  | O => None
  | S fuel' =>
      match thread_step who p w with
      | Next p' w' => run_alone fuel' who p' w'
      | Sleeps => None
      | Finished => Some w
      end
  end.

(** *** Interleavings *)

Record system := {
  shared : world;
  threads : list (trigger * pc)
}.

(** A thread takes its next step; a new caller enters one of the two
    functions; a caller that returned enters again; or the rest of the
    kernel changes anything but the mutex. *)
Inductive sys_step : system -> system -> Prop :=
  | StepThread s i who p p' w' :
      threads s !! i = Some (who, p) ->
      thread_step who p (shared s) = Next p' w' ->
      sys_step s {| shared := w'; threads := <[i := (who, p')]> (threads s) |}
  | StepCall s who :
      sys_step s {| shared := shared s;
                    threads := threads s ++ [(who, AtEntry)] |}
  | StepCallAgain s i who0 who :
      threads s !! i = Some (who0, AtReturn) ->
      sys_step s {| shared := shared s;
                    threads := <[i := (who, AtEntry)]> (threads s) |}
  | StepKernel s w' :
      reclaim_lock w' = reclaim_lock (shared s) ->
      sys_step s {| shared := w'; threads := threads s |}.

Definition initial (s : system) : Prop :=
  reclaim_lock (shared s) = false /\ threads s = [].

Definition reachable (s : system) : Prop :=
  exists s0, initial s0 /\ rtc sys_step s0 s.

(** The program points between [mutex_lock]/[mutex_trylock] succeeding and
    [mutex_unlock]. *)
Definition holds_lock (t : trigger * pc) : bool :=
  match snd t with
  | AtGate | InReclaim | AtStamp _ | AtUnlock _ => true
  | _ => false
  end.

(** The program points inside [do_lmk_reclaim]. *)
Definition in_reclaim (t : trigger * pc) : bool :=
  match snd t with
  | InReclaim | AtStamp _ => true
  | _ => false
  end.

Definition count_where (f : trigger * pc -> bool) (ths : list (trigger * pc))
    : nat :=
  length (filter (fun t => f t = true) ths).

(** The lock is held exactly when one thread stands between its acquire and
    its release. *)
Definition lock_accounted (s : system) : Prop :=
  count_where holds_lock (threads s) = Nat.b2n (reclaim_lock (shared s)).

(** *** Vocabulary for the statements below *)

(** A task that gets as far as the tier test of [scan_body]: not the caller's
    thread group, not a kthread, with a memory context, neither killed by
    this driver already nor marked TIF_MEMDIE. *)
Definition is_candidate (cur t : task_struct) : bool :=
  negb (same_thread_group t cur || negb (Z.land (flags t) (PF_KTHREAD P) =? 0))
  && match find_lock_task_mm t with
     | None => false
     | Some victim =>
         negb (lmk_sigkill_sent victim
               || test_tsk_thread_flag victim (TIF_MEMDIE P))
     end.

(** What [scan_and_kill] makes of a victim's descriptor once the signal is
    delivered. *)
Definition marked (t : task_struct) : task_struct :=
  sched_setscheduler_nocheck (mark_sigkill_sent t)
    (SCHED_FIFO P) (MAX_RT_PRIO P - 1).

(** The three ways out of the loop body of [scan_and_kill]: the task is
    passed over; the signal is sent and fails; the signal is delivered and
    the task accounted. *)
Inductive body_case (min_adj max_adj pages_needed : Z) (cur tsk : task_struct)
    (pages_freed : Z) : scan_iter -> Prop :=
  | BodySkip :
      body_case min_adj max_adj pages_needed cur tsk pages_freed
        {| ctl := LoopContinue; tsk_after := tsk;
           freed_after := pages_freed; iter_events := [] |}
  | BodyFailed :
      is_candidate cur tsk = true ->
      adj_outside min_adj max_adj (oom_score_adj (signal tsk)) = false ->
      get_mm_rss (mm tsk) <> 0 ->
      do_send_sig_info P tsk <> 0 ->
      body_case min_adj max_adj pages_needed cur tsk pages_freed
        {| ctl := LoopContinue; tsk_after := tsk;
           freed_after := pages_freed;
           iter_events := [EvSendSigInfo tsk (do_send_sig_info P tsk)] |}
  | BodyKilled :
      is_candidate cur tsk = true ->
      adj_outside min_adj max_adj (oom_score_adj (signal tsk)) = false ->
      get_mm_rss (mm tsk) <> 0 ->
      do_send_sig_info P tsk = 0 ->
      body_case min_adj max_adj pages_needed cur tsk pages_freed
        {| ctl := if to_ulong (pages_freed + get_mm_rss (mm tsk))
                       >=? pages_needed
                  then LoopBreak else LoopContinue;
           tsk_after :=
             sched_setscheduler_nocheck (mark_sigkill_sent tsk)
               (SCHED_FIFO P) (MAX_RT_PRIO P - 1);
           freed_after := to_ulong (pages_freed + get_mm_rss (mm tsk));
           iter_events := [EvSendSigInfo tsk 0] |}.

(** One reclaim pass made under [reclaim_lock] by trigger [who], followed by
    that trigger's unlock and its [pr_info]. *)
Definition locked_pass (who : trigger) (at_boost at_stamp : Z) (w : world)
    : world :=
  let '(mib_freed, w2) :=
    do_lmk_reclaim MIN_FREE_PAGES at_stamp
      (set_jiffies at_boost (set_reclaim_lock true w)) in
  pr_info_freed who mib_freed (mutex_unlock w2).
End SimpleLmk.

(** ** Reading traces *)

(** The victims of all [do_send_sig_info] calls of a trace, in order. *)
Fixpoint sig_victims (evs : list event) : list task_struct :=
  match evs with
  | [] => []
  | EvSendSigInfo victim _ :: evs' => victim :: sig_victims evs'
  | _ :: evs' => sig_victims evs'
  end.

(** The victims of the calls that returned 0. *)
Fixpoint sig_delivered (evs : list event) : list task_struct :=
  match evs with
  | [] => []
  | EvSendSigInfo victim ret :: evs' =>
      if ret =? 0 then victim :: sig_delivered evs' else sig_delivered evs'
  | _ :: evs' => sig_delivered evs'
  end.

(** Sum of the resident footprints, in pages, as an unbounded integer. *)
Fixpoint footprints (vs : list task_struct) : Z :=
  match vs with
  | [] => 0
  | v :: vs' => get_mm_rss (mm v) + footprints vs'
  end.

(** Resident pages of the tasks that do not carry [lmk_sigkill_sent] yet. *)
Fixpoint unsent_rss (ts : list task_struct) : Z :=
  match ts with
  | [] => 0
  | t :: ts' =>
      (if lmk_sigkill_sent t then 0 else get_mm_rss (mm t)) + unsent_rss ts'
  end.

(** Plain sum of a list of page counts. *)
Fixpoint total (rets : list Z) : Z :=
  match rets with
  | [] => 0
  | r :: rets' => r + total rets'
  end.

(** Arguments of the [scan_and_kill] activations of a trace, in order. *)
Fixpoint scan_args (evs : list event) : list (Z * Z * Z) :=
  match evs with
  | [] => []
  | EvScanAndKill min_adj max_adj pages_needed :: evs' =>
      (min_adj, max_adj, pages_needed) :: scan_args evs'
  | _ :: evs' => scan_args evs'
  end.

(** Their return values, in order. *)
Fixpoint scan_rets (evs : list event) : list Z :=
  match evs with
  | [] => []
  | EvScanReturn pages_freed :: evs' => pages_freed :: scan_rets evs'
  | _ :: evs' => scan_rets evs'
  end.

(** The value of [do_lmk_reclaim]'s [pages_freed] after the scans that
    returned [rets], starting from [acc]: [pages_freed += ...] each time. *)
Fixpoint freed_from (acc : Z) (rets : list Z) : Z :=
  match rets with
  | [] => acc
  | r :: rets' => freed_from (to_ulong (acc + r)) rets'
  end.

Definition freed_so_far (rets : list Z) : Z := freed_from 0 rets.

Definition is_boost_request (e : event) : bool :=
  match e with
  | EvCpuInputBoostKickMax _ | EvDevfreqBoostKickMax _ => true
  | _ => false
  end.

(** Reclaim passes begun in a trace: each pass opens with exactly one
    [cpu_input_boost_kick_max] call, and nothing else in the file makes one. *)
Fixpoint passes_started (evs : list event) : nat :=
  match evs with
  | [] => O
  | EvCpuInputBoostKickMax _ :: evs' => S (passes_started evs')
  | _ :: evs' => passes_started evs'
  end.

(** ** Tiers of a boundary table *)

(** Tier [i] is scanned with bounds [(tbl[i], tbl[i - 1])]. *)
Definition tier (tbl : list Z) (i : nat) : Z * Z :=
  (at_index tbl i, at_index tbl (i - 1)).

(** Tier [i] lets a task of importance [score] through the test of
    [scan_and_kill]. *)
Definition accepts (tbl : list Z) (i : nat) (score : Z) : bool :=
  negb (adj_outside (fst (tier tbl i)) (snd (tier tbl i)) score).

Definition accepting_tiers (tbl : list Z) (score : Z) : list nat :=
  filter (fun i => accepts tbl i score = true) (tier_indices tbl).

(** A boundary table listed from least to most important: strictly
    decreasing. *)
Fixpoint descending (tbl : list Z) : bool :=
  match tbl with
  | a :: (b :: _) as rest => (b <? a) && descending rest
  | _ => true
  end.

(** ** A sample platform and sample worlds *)

(** The arm64 values of the constants, HZ = 100, timeouts of one second and
    a quarter of a second, and a signal that finds pid 13 gone (-ESRCH). *)
Definition sample_platform : platform :=
  {| PAGE_SIZE := 4096;
     SZ_1M := 1048576;
     CONFIG_ANDROID_SIMPLE_LMK_MINFREE := 64;
     LMK_KSWAPD_TIMEOUT := 100;
     LMK_OOM_TIMEOUT := 25;
     PF_KTHREAD := 2097152;
     TIF_MEMDIE := 18;
     MAX_RT_PRIO := 100;
     SCHED_FIFO := 1;
     msecs_to_jiffies := fun ms => (ms + 9) / 10;
     do_send_sig_info := fun t => if pid t =? 13 then -3 else 0 |}.

Definition sample_task (p adj rss : Z) : task_struct :=
  {| pid := p; tgid := p; flags := 0; mm := Some {| rss_stat := rss |};
     signal := {| oom_score_adj := adj |}; thread_flags := 0;
     lmk_sigkill_sent := false; policy := 0; rt_priority := 0 |}.

(** A boost driver nobody has kicked yet, and one with a longer boost still
    pending at jiffies 1000. *)
Definition sample_boost_drv : boost_drv :=
  {| max_boost_expires := 0; max_boost_dur := 0;
     state := SCREEN_AWAKE; max_boost_queued := false |}.

Definition sample_boost_drv_pending : boost_drv :=
  {| max_boost_expires := 1200; max_boost_dur := 2000;
     state := Z.lor SCREEN_AWAKE MAX_BOOST; max_boost_queued := true |}.

(** An activated engine at jiffies 1000 that has never reclaimed, called from
    pid 1, with five other processes. *)
Definition sample_world : world :=
  {| jiffies := 1000;
     current := sample_task 1 0 10;
     tasks := [ sample_task 1 0 10; sample_task 10 900 5000;
                sample_task 11 905 3000; sample_task 12 800 20000;
                sample_task 13 850 7000; sample_task 14 100 100 ];
     boost_drv_g := Some sample_boost_drv;
     reclaim_lock := false;
     reclaim_work_queued := false;
     simple_lmk_wq := 4096;
     last_reclaim_jiffies := 0;
     simple_lmk_ready := 1;
     trace := [] |}.

(** The same before the first write to the [minfree] parameter. *)
Definition sample_world_unready : world :=
  set_simple_lmk_wq 0 (set_simple_lmk_ready 0 sample_world).

(** The same with no resident page outside the caller. *)
Definition sample_world_idle : world :=
  set_tasks [ sample_task 1 0 10; sample_task 20 900 0; sample_task 21 300 0 ]
    sample_world.

(** The urgent trigger in the middle of a pass while the periodic worker has
    reached its [mutex_lock]. *)
Definition sample_system : system :=
  {| shared := set_reclaim_lock true sample_world;
     threads := [ (Oom, InReclaim); (Kswapd, AtLock) ] |}.

(** ** Further vocabulary: the targets of a scan *)

Section SimpleLmkTargets.
Variable P : platform.

(** A task [scan_and_kill(min_adj, max_adj, ...)] sends SIGKILL once its walk
    reaches it: a candidate whose score passes the tier test and that has a
    resident page. *)
Definition is_target (min_adj max_adj : Z) (cur t : task_struct) : bool :=
  is_candidate P cur t
  && negb (adj_outside min_adj max_adj (oom_score_adj (signal t)))
  && negb (get_mm_rss (mm t) =? 0).
End SimpleLmkTargets.

(** ** arch/sparc/include/asm/atomic_64.h *)

(** [cmpxchg(ptr, old, new)] and [xchg(ptr, new)] of asm/cmpxchg.h (not among
    the files modelled), on the word [counter] found at [ptr]: the value
    returned, which is what the word held, and what it holds afterwards. *)
Definition cmpxchg (counter old new : Z) : Z * Z :=
  (counter, if counter =? old then new else counter).

Definition xchg (counter new : Z) : Z * Z := (counter, new).

Definition atomic_cmpxchg (counter o n : Z) : Z * Z := cmpxchg counter o n.

Definition atomic_xchg (counter new : Z) : Z * Z := xchg counter new.

(** The [for (;;)] loop of [__atomic_add_unless], entered with [c] the value
    this CPU last saw in the counter.  [at_cmpxchg] lists what the counter
    holds when this CPU's successive [atomic_cmpxchg] calls run, other CPUs
    having stored in between; once the list is used up nobody interferes and
    the counter still holds [c].  The result is the counter after the last
    access and the value returned. *)
Fixpoint __atomic_add_unless_from (at_cmpxchg : list Z) (c a u : Z) : Z * Z :=
  if c =? u then (c, c)
  else
    match at_cmpxchg with
    | [] => (snd (atomic_cmpxchg c c (to_int (c + a))), c)
    | x :: rest =>
        let '(old, counter) := atomic_cmpxchg x c (to_int (c + a)) in
        if old =? c then (counter, c)
        else __atomic_add_unless_from rest old a u
    end.

Definition __atomic_add_unless (at_cmpxchg : list Z) (counter a u : Z)
    : Z * Z :=
  __atomic_add_unless_from at_cmpxchg (atomic_read counter) a u.



(** ** drivers/cpufreq/cpu_input_boost.c: workers, notifiers and set-up *)

(** linux/workqueue.h is not among the files modelled.  The driver uses a
    [struct delayed_work] for what its kernel-doc says of it: the work is
    pending (here with the delay it was queued with) or idle;
    [cancel_delayed_work_sync] returns whether it was pending and leaves it
    idle; [queue_delayed_work] leaves pending work as it is. *)
Module workqueue.
Definition delayed_work : Type := option Z.

Definition delayed_work_pending (dwork : delayed_work) : bool :=
  match dwork with
  | Some _ => true
  | None => false
  end.

Definition cancel_delayed_work_sync (dwork : delayed_work)
    : bool * delayed_work :=
  (delayed_work_pending dwork, None).

Definition queue_delayed_work (dwork : delayed_work) (delay : Z)
    : delayed_work :=
  if delayed_work_pending dwork then dwork else Some delay.
End workqueue.

(** Constants and macros the driver takes from cpufreq.h, fb.h, notifier.h,
    err.h, cpumask.h and the kernel configuration. *)
Record cpufreq_platform := {
  cpu_lp_mask : Z;
  CPUFREQ_ADJUST : Z;
  NOTIFY_OK : Z;
  FB_EARLY_EVENT_BLANK : Z;
  FB_BLANK_UNBLANK : Z;
  ENOMEM : Z;
  IS_ERR : Z -> bool;
  PTR_ERR : Z -> Z;
  CONFIG_INPUT_BOOST_FREQ_LP : Z;
  CONFIG_INPUT_BOOST_FREQ_PERF : Z;
  CONFIG_REMOVE_INPUT_BOOST_FREQ_LP : Z;
  CONFIG_REMOVE_INPUT_BOOST_FREQ_PERF : Z;
  CONFIG_INPUT_BOOST_DURATION_MS : Z;
  CONFIG_WAKE_BOOST_DURATION_MS : Z
}.

(** [cpumask_test_cpu(cpu, mask)], a cpumask being a bitmap. *)
Definition cpumask_test_cpu (cpu mask : Z) : bool := Z.testbit mask cpu.

(** [cpumask_set_cpu(cpu, &mask)]. *)
Definition cpumask_set_cpu (cpu mask : Z) : Z := Z.lor mask (Z.shiftl 1 cpu).

(** The fields of [struct cpufreq_policy] the notifier reads and writes. *)
Record cpufreq_cpuinfo := { min_freq : Z }.

Record cpufreq_policy := {
  cpuinfo : cpufreq_cpuinfo;
  min : Z;
  max : Z;
  cpu : Z
}.

Definition set_min (v : Z) (policy : cpufreq_policy) : cpufreq_policy :=
  {| cpuinfo := cpuinfo policy; min := v; max := max policy;
     cpu := cpu policy |}.

(** The module parameters of lines 18-28, writable through sysfs: four
    [unsigned int]s and an [unsigned short]. *)
Record boost_params := {
  input_boost_freq_lp : Z;
  input_boost_freq_hp : Z;
  remove_input_boost_freq_lp : Z;
  remove_input_boost_freq_hp : Z;
  input_boost_duration : Z
}.

(** The work items of [struct boost_drv] besides [max_boost]: whether
    [input_boost] is queued on the kthread worker, and the two delayed
    works. *)
Record boost_works := {
  input_boost_queued : bool;
  input_unboost : workqueue.delayed_work;
  max_unboost : workqueue.delayed_work
}.

Definition set_input_boost_queued (q : bool) (k : boost_works) : boost_works :=
  {| input_boost_queued := q; input_unboost := input_unboost k;
     max_unboost := max_unboost k |}.

Definition set_input_unboost (dw : workqueue.delayed_work) (k : boost_works)
    : boost_works :=
  {| input_boost_queued := input_boost_queued k; input_unboost := dw;
     max_unboost := max_unboost k |}.

Definition set_max_unboost (dw : workqueue.delayed_work) (k : boost_works)
    : boost_works :=
  {| input_boost_queued := input_boost_queued k;
     input_unboost := input_unboost k; max_unboost := dw |}.

(** The driver's memory: the one [struct boost_drv] ([atomics] for the part
    modelled above, [works] for the rest), the file's statics, and, for the
    calls that leave the file, the CPUs [cpufreq_update_policy] was called
    for, in order. *)
Record driver := {
  atomics : boost_drv;
  works : boost_works;
  params : boost_params;
  last_input_jiffies : Z;
  policy_updates : list Z
}.

Definition set_atomics (b : boost_drv) (d : driver) : driver :=
  {| atomics := b; works := works d; params := params d;
     last_input_jiffies := last_input_jiffies d;
     policy_updates := policy_updates d |}.

Definition set_works (k : boost_works) (d : driver) : driver :=
  {| atomics := atomics d; works := k; params := params d;
     last_input_jiffies := last_input_jiffies d;
     policy_updates := policy_updates d |}.

Definition set_params (p : boost_params) (d : driver) : driver :=
  {| atomics := atomics d; works := works d; params := p;
     last_input_jiffies := last_input_jiffies d;
     policy_updates := policy_updates d |}.

Definition set_last_input_jiffies (j : Z) (d : driver) : driver :=
  {| atomics := atomics d; works := works d; params := params d;
     last_input_jiffies := j; policy_updates := policy_updates d |}.

Definition set_policy_updates (l : list Z) (d : driver) : driver :=
  {| atomics := atomics d; works := works d; params := params d;
     last_input_jiffies := last_input_jiffies d; policy_updates := l |}.

Definition set_state (v : Z) (b : boost_drv) : boost_drv :=
  {| max_boost_expires := max_boost_expires b;
     max_boost_dur := max_boost_dur b;
     state := v; max_boost_queued := max_boost_queued b |}.

Definition set_max_boost_queued (q : bool) (b : boost_drv) : boost_drv :=
  {| max_boost_expires := max_boost_expires b;
     max_boost_dur := max_boost_dur b;
     state := state b; max_boost_queued := q |}.

(** Calls the set-up and tear-down paths make into the kernel, each with
    what it returned where the driver looks at it; [pr_err] with its format,
    less the newline that ends it. *)
Inductive setup_call :=
  | kzalloc (ok : bool)
  | kfree
  | kthread_init_worker
  | kthread_run (ret : Z)
  | kthread_destroy_worker
  | sched_setscheduler (pol prio ret : Z)
  | kthread_bind_mask (mask : Z)
  | wake_up_process
  | cpufreq_register_notifier (priority ret : Z)
  | cpufreq_unregister_notifier
  | input_register_handler (ret : Z)
  | input_unregister_handler
  | fb_register_client (priority ret : Z)
  | input_register_handle (ret : Z)
  | input_unregister_handle
  | input_open_device (ret : Z)
  | input_close_device
  | pr_err (fmt : string) (ret : Z).

(** What [cpu_input_boost_input_connect] stores in the handle it
    allocates. *)
Record input_handle := {
  dev : Z;
  handler : Z;
  name : string
}.

(** What the calls of [cpu_input_boost_input_connect] return. *)
Record connect_results := {
  connect_kzalloc : bool;
  connect_register_handle : Z;
  connect_open_device : Z
}.

(** What the calls of [cpu_input_boost_init] return; [init_sys_bg_mask] is
    what the stack slot of [sys_bg_mask], which is not initialised, holds. *)
Record init_results := {
  init_kzalloc : bool;
  init_kthread_run : Z;
  init_sched_setscheduler : Z;
  init_sys_bg_mask : Z;
  init_cpufreq_register_notifier : Z;
  init_input_register_handler : Z;
  init_fb_register_client : Z
}.

Section BoostDriver.
Variable P : platform.
Variable C : cpufreq_platform.

Definition get_boost_freq (d : driver) (cpu : Z) : Z :=
  if cpumask_test_cpu cpu (cpu_lp_mask C) then input_boost_freq_lp (params d)
  else input_boost_freq_hp (params d).

Definition get_min_freq (d : driver) (cpu : Z) : Z :=
  if cpumask_test_cpu cpu (cpu_lp_mask C)
  then remove_input_boost_freq_lp (params d)
  else remove_input_boost_freq_hp (params d).

Definition get_boost_state (d : driver) : Z := atomic_read (state (atomics d)).

(** [atomic_or(state, &b->state)]. *)
Definition set_boost_bit (d : driver) (st : Z) : driver :=
  set_atomics (set_state (Z.lor (state (atomics d)) st) (atomics d)) d.

(** [atomic_andnot(state, &b->state)]. *)
Definition clear_boost_bit (d : driver) (st : Z) : driver :=
  set_atomics
    (set_state (Z.land (state (atomics d)) (Z.lnot st)) (atomics d)) d.

(** [update_online_cpu_policy]; [online] is what [for_each_online_cpu]
    walks. *)
Definition update_online_cpu_policy (online : list Z) (d : driver) : driver :=
  set_policy_updates (policy_updates d ++ online) d.

Definition unboost_all_cpus (online : list Z) (d : driver) : driver :=
  let '(was_input, iu) :=
    workqueue.cancel_delayed_work_sync (input_unboost (works d)) in
  let d1 := set_works (set_input_unboost iu (works d)) d in
  let '(nothing_pending, d2) :=
    if negb was_input then
      let '(was_max, mu) :=
        workqueue.cancel_delayed_work_sync (max_unboost (works d1)) in
      (negb was_max, set_works (set_max_unboost mu (works d1)) d1)
    else (false, d1) in
  if nothing_pending then d2
  else
    update_online_cpu_policy online
      (clear_boost_bit d2 (Z.lor (Z.lor INPUT_BOOST WAKE_BOOST) MAX_BOOST)).

(** [kthread_queue_work(&b->worker, &b->input_boost)]. *)
Definition kthread_queue_input_boost (d : driver) : driver :=
  set_works (set_input_boost_queued true (works d)) d.

(** [cpu_input_boost_kick]; the argument is [boost_drv_g], [None] for
    NULL. *)
Definition cpu_input_boost_kick (g : option driver) : option driver :=
  match g with
  | None => None
  | Some d => Some (kthread_queue_input_boost d)
  end.

(** [cpu_input_boost_kick_max] on the whole driver. *)
Definition cpu_input_boost_kick_max_drv (races : list cas_race) (now : Z)
    (g : option driver) (duration_ms : Z) : option driver :=
  match g with
  | None => None
  | Some d =>
      Some (set_atomics
              (snd (__cpu_input_boost_kick_max P races now (atomics d)
                      duration_ms)) d)
  end.

Definition input_boost_worker (online : list Z) (d : driver) : driver :=
  let '(was_pending, iu) :=
    workqueue.cancel_delayed_work_sync (input_unboost (works d)) in
  let d1 := set_works (set_input_unboost iu (works d)) d in
  let d2 :=
    if negb was_pending
    then update_online_cpu_policy online (set_boost_bit d1 INPUT_BOOST)
    else d1 in
  set_works
    (set_input_unboost
       (workqueue.queue_delayed_work (input_unboost (works d2))
          (msecs_to_jiffies P (input_boost_duration (params d2))))
       (works d2)) d2.

Definition input_unboost_worker (online : list Z) (d : driver) : driver :=
  update_online_cpu_policy online (clear_boost_bit d INPUT_BOOST).

(** [max_boost_worker]; [msecs_to_jiffies] takes the [int] that
    [atomic_read] returns as an [unsigned int]. *)
Definition max_boost_worker (online : list Z) (d : driver) : driver :=
  let '(was_pending, mu) :=
    workqueue.cancel_delayed_work_sync (max_unboost (works d)) in
  let d1 := set_works (set_max_unboost mu (works d)) d in
  let d2 :=
    if negb was_pending
    then update_online_cpu_policy online (set_boost_bit d1 MAX_BOOST)
    else d1 in
  set_works
    (set_max_unboost
       (workqueue.queue_delayed_work (max_unboost (works d2))
          (msecs_to_jiffies P
             (to_uint (atomic_read (max_boost_dur (atomics d2))))))
       (works d2)) d2.

Definition max_unboost_worker (online : list Z) (d : driver) : driver :=
  update_online_cpu_policy online
    (clear_boost_bit d (Z.lor WAKE_BOOST MAX_BOOST)).

(** [cpu_notifier_cb(nb, action, data)]: the value returned and the policy
    [data] points to afterwards. *)
Definition cpu_notifier_cb (d : driver) (action : Z) (policy : cpufreq_policy)
    : Z * cpufreq_policy :=
  if negb (action =? CPUFREQ_ADJUST C) then (NOTIFY_OK C, policy)
  else
    let st := get_boost_state d in
    (* Boost CPU to max frequency for max boost *)
    if negb (Z.land st MAX_BOOST =? 0)
    then (NOTIFY_OK C, set_min (max policy) policy)
    else if negb (Z.land st INPUT_BOOST =? 0)
    then
      let boost_freq := get_boost_freq d (cpu policy) in
      (NOTIFY_OK C, set_min (Z.min (max policy) boost_freq) policy)
    else
      let remove_freq := get_min_freq d (cpu policy) in
      (NOTIFY_OK C,
       set_min (Z.max (min_freq (cpuinfo policy)) remove_freq) policy).

(** [fb_notifier_cb(nb, action, data)], [blank] being [*evdata->data]. *)
Definition fb_notifier_cb (races : list cas_race) (now : Z) (online : list Z)
    (d : driver) (action blank : Z) : Z * driver :=
  (* Parse framebuffer blank events as soon as they occur *)
  if negb (action =? FB_EARLY_EVENT_BLANK C) then (NOTIFY_OK C, d)
  else
    (* Boost when the screen turns on and unboost when it turns off *)
    if blank =? FB_BLANK_UNBLANK C then
      let d1 := set_boost_bit d SCREEN_AWAKE in
      (NOTIFY_OK C,
       set_atomics
         (snd (__cpu_input_boost_kick_max P races now (atomics d1)
                 (to_uint (CONFIG_WAKE_BOOST_DURATION_MS C)))) d1)
    else
      (NOTIFY_OK C, unboost_all_cpus online (clear_boost_bit d SCREEN_AWAKE)).

(** [cpu_input_boost_input_event] at jiffies [now]; type, code and value of
    the event are not looked at. *)
Definition cpu_input_boost_input_event (now : Z) (d : driver) : driver :=
  let st := get_boost_state d in
  if Z.land st SCREEN_AWAKE =? 0 then d
  else set_last_input_jiffies now (kthread_queue_input_boost d).

(** [cpu_input_boost_input_connect(handler, dev, id)]: the value returned,
    the handle left registered and open, the calls made. *)
Definition cpu_input_boost_input_connect (r : connect_results)
    (handler dev : Z) : Z * option input_handle * list setup_call :=
  if negb (connect_kzalloc r) then (- ENOMEM C, None, [kzalloc false])
  else
    let handle :=
      {| dev := dev; handler := handler;
         name := "cpu_input_boost_handle" |} in
    let ret := connect_register_handle r in
    if negb (ret =? 0)
    then (ret, None, [kzalloc true; input_register_handle ret; kfree])
    else
      let ret := connect_open_device r in
      if negb (ret =? 0)
      then (ret, None,
            [kzalloc true; input_register_handle 0; input_open_device ret;
             input_unregister_handle; kfree])
      else (0, Some handle,
            [kzalloc true; input_register_handle 0; input_open_device 0]).

Definition cpu_input_boost_input_disconnect : list setup_call :=
  [input_close_device; input_unregister_handle; kfree].

(** The driver as [cpu_input_boost_init] leaves it when it succeeds:
    [kzalloc] zeroes [*b], the statics have their initialisers, the [int]s
    of the configuration converted to the types of lines 18-22. *)
Definition driver_at_init : driver :=
  {| atomics := {| max_boost_expires := 0; max_boost_dur := 0;
                   state := SCREEN_AWAKE; max_boost_queued := false |};
     works := {| input_boost_queued := false; input_unboost := None;
                 max_unboost := None |};
     params := {| input_boost_freq_lp :=
                    to_uint (CONFIG_INPUT_BOOST_FREQ_LP C);
                  input_boost_freq_hp :=
                    to_uint (CONFIG_INPUT_BOOST_FREQ_PERF C);
                  remove_input_boost_freq_lp :=
                    to_uint (CONFIG_REMOVE_INPUT_BOOST_FREQ_LP C);
                  remove_input_boost_freq_hp :=
                    to_uint (CONFIG_REMOVE_INPUT_BOOST_FREQ_PERF C);
                  input_boost_duration :=
                    to_ushort (CONFIG_INPUT_BOOST_DURATION_MS C) |};
     last_input_jiffies := 0;
     policy_updates := [] |}.

(** [cpu_input_boost_init]: the value returned, [boost_drv_g] afterwards,
    the calls made. *)
Definition cpu_input_boost_init (r : init_results)
    : Z * option driver * list setup_call :=
  if negb (init_kzalloc r) then (- ENOMEM C, None, [kzalloc false])
  else
    let calls := [kzalloc true; kthread_init_worker;
                kthread_run (init_kthread_run r)] in
    if IS_ERR C (init_kthread_run r) then
      let ret := to_int (PTR_ERR C (init_kthread_run r)) in
      (ret, None,
       calls ++ [pr_err "Failed to start kworker, err: %d" ret; kfree])
    else
      let ret := init_sched_setscheduler r in
      let calls :=
        calls ++ [sched_setscheduler (SCHED_FIFO P) (MAX_RT_PRIO P - 2) ret]
            ++ (if negb (ret =? 0)
                then [pr_err "Failed to set SCHED_FIFO on kworker, err: %d"
                        ret]
                else []) in
      (* Init the cpumask: 1-3 inclusive *)
      let sys_bg_mask :=
        cpumask_set_cpu 3 (cpumask_set_cpu 2
          (cpumask_set_cpu 1 (init_sys_bg_mask r))) in
      let calls :=
        calls ++ [kthread_bind_mask sys_bg_mask; wake_up_process] in
      (* the stores into [*b] that follow are those of [driver_at_init] *)
      let ret := init_cpufreq_register_notifier r in
      let calls := calls ++ [cpufreq_register_notifier (INT_MAX - 2) ret] in
      if negb (ret =? 0)
      then (ret, None,
            calls ++ [pr_err "Failed to register cpufreq notifier, err: %d" ret;
                    kthread_destroy_worker; kfree])
      else
        let ret := init_input_register_handler r in
        let calls := calls ++ [input_register_handler ret] in
        if negb (ret =? 0)
        then (ret, None,
              calls ++ [pr_err "Failed to register input handler, err: %d"
                        ret;
                      cpufreq_unregister_notifier;
                      kthread_destroy_worker; kfree])
        else
          let ret := init_fb_register_client r in
          let calls := calls ++ [fb_register_client INT_MAX ret] in
          if negb (ret =? 0)
          then (ret, None,
                calls ++ [pr_err "Failed to register fb notifier, err: %d"
                          ret;
                        input_unregister_handler;
                        cpufreq_unregister_notifier;
                        kthread_destroy_worker; kfree])
          else
            (* Allow global boost config access for external boosts *)
            (0, Some driver_at_init, calls).

(** *** The driver at work *)

(** One thing happening to the driver: a call of an exported or registered
    entry point; the kthread worker taking a queued work and running it; a
    delayed work coming due and running; a write to a module parameter.
    Each is taken whole: the steps of two of them are not interleaved. *)
Inductive driver_step : driver -> driver -> Prop :=
  | StepKick d d' :
      cpu_input_boost_kick (Some d) = Some d' -> driver_step d d'
  | StepKickMax d d' races now duration_ms :
      cpu_input_boost_kick_max_drv races now (Some d) duration_ms = Some d' ->
      driver_step d d'
  | StepInputEvent d now :
      driver_step d (cpu_input_boost_input_event now d)
  | StepFbNotifier d races now online action blank :
      driver_step d (snd (fb_notifier_cb races now online d action blank))
  | StepInputBoostWork d online :
      input_boost_queued (works d) = true ->
      driver_step d
        (input_boost_worker online
           (set_works (set_input_boost_queued false (works d)) d))
  | StepMaxBoostWork d online :
      max_boost_queued (atomics d) = true ->
      driver_step d
        (max_boost_worker online
           (set_atomics (set_max_boost_queued false (atomics d)) d))
  | StepInputUnboostDue d online :
      workqueue.delayed_work_pending (input_unboost (works d)) = true ->
      driver_step d
        (input_unboost_worker online
           (set_works (set_input_unboost None (works d)) d))
  | StepMaxUnboostDue d online :
      workqueue.delayed_work_pending (max_unboost (works d)) = true ->
      driver_step d
        (max_unboost_worker online
           (set_works (set_max_unboost None (works d)) d))
  | StepParamWrite d p :
      driver_step d (set_params p d).

(** What the driver can come to after a successful [cpu_input_boost_init]. *)
Definition driver_reachable (d : driver) : Prop :=
  rtc driver_step driver_at_init d.

(** A bit of [b->state], tested as the driver does: [state & bit]. *)
Definition boost_bit_set (d : driver) (bit : Z) : bool :=
  negb (Z.land (get_boost_state d) bit =? 0).
End BoostDriver.

(** *** Resources of the set-up paths *)

Inductive setup_resource :=
  | ResMemory
  | ResWorkerThread
  | ResCpufreqNotifier
  | ResInputHandler
  | ResFbClient
  | ResInputHandle
  | ResOpenDevice.

Definition setup_resource_eqb (a b : setup_resource) : bool :=
  match a, b with
  | ResMemory, ResMemory | ResWorkerThread, ResWorkerThread
  | ResCpufreqNotifier, ResCpufreqNotifier | ResInputHandler, ResInputHandler
  | ResFbClient, ResFbClient | ResInputHandle, ResInputHandle
  | ResOpenDevice, ResOpenDevice => true
  | _, _ => false
  end.

Section SetupResources.
Variable C : cpufreq_platform.

(** What a call that succeeded leaves to be undone. *)
Definition acquires (c : setup_call) : option setup_resource :=
  match c with
  | kzalloc true => Some ResMemory
  | kthread_run ret => if IS_ERR C ret then None else Some ResWorkerThread
  | cpufreq_register_notifier _ ret =>
      if ret =? 0 then Some ResCpufreqNotifier else None
  | input_register_handler ret =>
      if ret =? 0 then Some ResInputHandler else None
  | fb_register_client _ ret => if ret =? 0 then Some ResFbClient else None
  | input_register_handle ret =>
      if ret =? 0 then Some ResInputHandle else None
  | input_open_device ret => if ret =? 0 then Some ResOpenDevice else None
  | _ => None
  end.

(** What a call undoes. *)
Definition releases (c : setup_call) : option setup_resource :=
  match c with
  | kfree => Some ResMemory
  | kthread_destroy_worker => Some ResWorkerThread
  | cpufreq_unregister_notifier => Some ResCpufreqNotifier
  | input_unregister_handler => Some ResInputHandler
  | input_unregister_handle => Some ResInputHandle
  | input_close_device => Some ResOpenDevice
  | _ => None
  end.

(** The resources held after [calls], most recent first, starting from
    [held]; [None] when a call undoes something other than the most recent
    resource still held. *)
Fixpoint held_after (held : list setup_resource) (calls : list setup_call)
    : option (list setup_resource) :=
  match calls with
  | [] => Some held
  | c :: calls' =>
      match acquires c, releases c with
      | Some r, _ => held_after (r :: held) calls'
      | None, Some r =>
          match held with
          | top :: below =>
              if setup_resource_eqb r top then held_after below calls'
              else None
          | [] => None
          end
      | None, None => held_after held calls'
      end
  end.
End SetupResources.

(** A sample of the cpufreq side: CPUs 0-3 in the low-power cluster, the
    values of the kernel headers, pointers from -4095 up read as errors. *)
Definition sample_cpufreq_platform : cpufreq_platform :=
  {| cpu_lp_mask := 15;
     CPUFREQ_ADJUST := 0;
     NOTIFY_OK := 1;
     FB_EARLY_EVENT_BLANK := 16;
     FB_BLANK_UNBLANK := 0;
     ENOMEM := 12;
     IS_ERR := fun p => (ULONG_MOD - 4095 <=? to_ulong p);
     PTR_ERR := to_long;
     CONFIG_INPUT_BOOST_FREQ_LP := 1171200;
     CONFIG_INPUT_BOOST_FREQ_PERF := 1574400;
     CONFIG_REMOVE_INPUT_BOOST_FREQ_LP := 518400;
     CONFIG_REMOVE_INPUT_BOOST_FREQ_PERF := 806400;
     CONFIG_INPUT_BOOST_DURATION_MS := 64;
     CONFIG_WAKE_BOOST_DURATION_MS := 1000 |}.

Definition sample_policy : cpufreq_policy :=
  {| cpuinfo := {| min_freq := 300000 |};
     min := 300000; max := 1900800; cpu := 2 |}.

(** ** A sample driver

    The driver after [cpu_input_boost_kick] and a run of the input boost
    work on four online CPUs. *)
Definition sample_driver_boosted : driver :=
  input_boost_worker sample_platform [0; 1; 2; 3]
    (set_works
       (set_input_boost_queued false
          (works (kthread_queue_input_boost
                    (driver_at_init sample_cpufreq_platform))))
       (kthread_queue_input_boost (driver_at_init sample_cpufreq_platform))).

(** * Properties *)

(** ** Machine arithmetic *)

Lemma ULONG_MOD_eq : ULONG_MOD = 18446744073709551616.
Proof. reflexivity. Qed.

Lemma to_ulong_range x : 0 <= to_ulong x < ULONG_MOD.
Proof. unfold to_ulong. apply Z.mod_pos_bound. rewrite ULONG_MOD_eq. lia. Qed.

Lemma to_ulong_small x : 0 <= x < ULONG_MOD -> to_ulong x = x.
Proof. intros H. unfold to_ulong. apply Z.mod_small. exact H. Qed.

Lemma to_ulong_le x : 0 <= x -> to_ulong x <= x.
Proof.
  intros H. unfold to_ulong. apply Z.mod_le; [exact H|].
  rewrite ULONG_MOD_eq. lia.
Qed.

Lemma to_ulong_add_l a b : to_ulong (to_ulong a + b) = to_ulong (a + b).
Proof. unfold to_ulong. apply Zplus_mod_idemp_l. Qed.

Lemma LONG_MAX_eq : LONG_MAX = 9223372036854775807.
Proof. reflexivity. Qed.

Lemma to_long_small z : - LONG_MAX - 1 <= z <= LONG_MAX -> to_long z = z.
Proof.
  intros Hz. unfold to_long, to_ulong. rewrite ULONG_MOD_eq, LONG_MAX_eq in *.
  destruct (Z_lt_le_dec z 0) as [Hneg|Hpos].
  - replace (z mod 18446744073709551616) with (z + 18446744073709551616).
    + destruct (Z.leb_spec (z + 18446744073709551616) 9223372036854775807); lia.
    + apply Z.mod_unique with (q := -1); lia.
  - rewrite Z.mod_small by lia.
    destruct (Z.leb_spec z 9223372036854775807); lia.
Qed.

Lemma to_ulong_idemp x : to_ulong (to_ulong x) = to_ulong x.
Proof. unfold to_ulong. apply Z.mod_mod. rewrite ULONG_MOD_eq. lia. Qed.

(** A [long] read back as an [unsigned long] has the bits it was stored
    with. *)
Lemma to_ulong_to_long x : to_ulong (to_long x) = to_ulong x.
Proof.
  unfold to_long. pose proof (to_ulong_range x) as Hu.
  destruct (to_ulong x <=? LONG_MAX); [apply to_ulong_idemp|].
  unfold to_ulong at 1. symmetry.
  apply Z.mod_unique with (q := -1); [left; exact Hu|lia].
Qed.

Lemma to_long_sub a b : to_long (to_ulong a - to_ulong b) = to_long (a - b).
Proof.
  unfold to_long, to_ulong. rewrite <- Zminus_mod. reflexivity.
Qed.

(** On plain integers less than 2^63 apart the wrap-safe tests are the
    ordinary comparisons. *)
Lemma time_after_lt a b :
  - LONG_MAX - 1 <= b - a <= LONG_MAX -> time_after a b = (b <? a).
Proof.
  intros H. unfold time_after. rewrite to_long_small by exact H.
  destruct (Z.ltb_spec (b - a) 0), (Z.ltb_spec b a); lia.
Qed.

Lemma time_after_eq_le a b :
  - LONG_MAX - 1 <= a - b <= LONG_MAX -> time_after_eq a b = (b <=? a).
Proof.
  intros H. unfold time_after_eq. rewrite to_long_small by exact H.
  destruct (Z.leb_spec 0 (a - b)), (Z.leb_spec b a); lia.
Qed.

Lemma time_after_eq_ulong a b :
  time_after_eq (to_ulong a) (to_ulong b) = time_after_eq a b.
Proof. unfold time_after_eq. rewrite to_long_sub. reflexivity. Qed.

(** ** Max-boost coalescing *)

Section CpuInputBoostFacts.
Variable P : platform.

Lemma kick_max_expires now d b :
  curr_expires_of (kick_max P now d b) =
    if time_after (curr_expires_of b) (new_expires_of P now d)
    then curr_expires_of b else new_expires_of P now d.
Proof.
  unfold kick_max, new_expires_of, curr_expires_of, atomic64_read. simpl.
  destruct (time_after _ _); [reflexivity|]. simpl.
  rewrite to_ulong_to_long. apply to_ulong_idemp.
Qed.

Lemma kick_max_dropped races now d b :
  time_after (curr_expires_of b) (new_expires_of P now d) = true ->
  __cpu_input_boost_kick_max P races now b d = (Dropped (curr_expires_of b), b).
Proof.
  intros H. unfold curr_expires_of, new_expires_of in *.
  destruct races; simpl; rewrite H; reflexivity.
Qed.

Lemma kick_max_outcome races : forall now d b,
  match __cpu_input_boost_kick_max P races now b d with
  | (Dropped kept, b') => curr_expires_of b' = kept
  | (Committed replaced stored, b') =>
      curr_expires_of b' = stored /\ time_after replaced stored = false
  end.
Proof.
  assert (forall x, to_ulong (to_long (to_ulong x)) = to_ulong x) as Hback
    by (intros x; rewrite to_ulong_to_long; apply to_ulong_idemp).
  induction races as [|r races IH]; intros now d b; simpl;
    unfold curr_expires_of, atomic64_read.
  - destruct (time_after _ _) eqn:E; [reflexivity|]. simpl.
    split; [apply Hback|exact E].
  - destruct (time_after _ _) eqn:E; [reflexivity|].
    destruct (to_ulong (at_cmpxchg r) =? to_ulong (max_boost_expires b)).
    + simpl. split; [apply Hback|exact E].
    + apply IH.
Qed.

(** On expiries that span less than 2^63 jiffies a request without
    interference stores the later of the stored expiry and its own. *)
Lemma kick_max_is_max now d b :
  - LONG_MAX - 1 <= new_expires_of P now d - curr_expires_of b <= LONG_MAX ->
  curr_expires_of (kick_max P now d b)
    = Z.max (curr_expires_of b) (new_expires_of P now d).
Proof.
  intros H. rewrite kick_max_expires, time_after_lt by exact H.
  destruct (Z.ltb_spec (new_expires_of P now d) (curr_expires_of b)); lia.
Qed.

(** C8.  A request whose expiry is earlier than the stored one is dropped and
    changes nothing, whatever other CPUs do meanwhile.  Two requests with
    expiries [E1] earlier than [E2], met by a stored expiry that is not later
    than [E2], leave [E2] stored in either arrival order.  "Earlier" is the
    kernel's [time_after]; on expiries that span no more than 2^63 - 1 jiffies
    it is plain [<], and there two requests leave the latest of the stored
    expiry and their own in either order: [E2] for [E1 < E2] unless a later
    expiry was stored already, which then stays.  And whenever a request does
    store its expiry, with or without lost cmpxchg races, the value it
    replaces is not later than the one it stores. *)
Theorem max_boost_expiry_is_set_if_greater :
  (forall races now d b,
     time_after (curr_expires_of b) (new_expires_of P now d) = true ->
     __cpu_input_boost_kick_max P races now b d
       = (Dropped (curr_expires_of b), b))
  /\ (forall now1 d1 now2 d2 b,
       let E1 := new_expires_of P now1 d1 in
       let E2 := new_expires_of P now2 d2 in
       time_after E2 E1 = true -> time_after E1 E2 = false ->
       time_after (curr_expires_of b) E2 = false ->
       curr_expires_of (kick_max P now2 d2 (kick_max P now1 d1 b)) = E2
       /\ curr_expires_of (kick_max P now1 d1 (kick_max P now2 d2 b)) = E2)
  /\ (forall now1 d1 now2 d2 b,
       let E1 := new_expires_of P now1 d1 in
       let E2 := new_expires_of P now2 d2 in
       E1 < E2 -> E2 - E1 <= LONG_MAX ->
       curr_expires_of b <= E2 -> E2 - curr_expires_of b <= LONG_MAX ->
       curr_expires_of (kick_max P now2 d2 (kick_max P now1 d1 b)) = E2
       /\ curr_expires_of (kick_max P now1 d1 (kick_max P now2 d2 b)) = E2)
  /\ (forall now1 d1 now2 d2 b,
       let E0 := curr_expires_of b in
       let E1 := new_expires_of P now1 d1 in
       let E2 := new_expires_of P now2 d2 in
       Z.max (Z.max E0 E1) E2 - Z.min (Z.min E0 E1) E2 <= LONG_MAX ->
       curr_expires_of (kick_max P now2 d2 (kick_max P now1 d1 b))
         = Z.max (Z.max E0 E1) E2
       /\ curr_expires_of (kick_max P now1 d1 (kick_max P now2 d2 b))
          = Z.max (Z.max E0 E1) E2)
  /\ (forall races now d b,
       match __cpu_input_boost_kick_max P races now b d with
       | (Dropped kept, b') => curr_expires_of b' = kept
       | (Committed replaced stored, b') =>
           curr_expires_of b' = stored
           /\ time_after replaced stored = false
       end).
Proof.
  assert (forall now1 d1 now2 d2 b,
            let E1 := new_expires_of P now1 d1 in
            let E2 := new_expires_of P now2 d2 in
            time_after E2 E1 = true -> time_after E1 E2 = false ->
            time_after (curr_expires_of b) E2 = false ->
            curr_expires_of (kick_max P now2 d2 (kick_max P now1 d1 b)) = E2
            /\ curr_expires_of (kick_max P now1 d1 (kick_max P now2 d2 b))
               = E2) as Horder.
  { intros now1 d1 now2 d2 b E1 E2 H21 H12 H02. split.
    - (* E1 arrives first: whichever of the two is then stored gives way *)
      rewrite !kick_max_expires. fold E1 E2.
      destruct (time_after (curr_expires_of b) E1).
      + rewrite H02. reflexivity.
      + rewrite H12. reflexivity.
    - (* E2 arrives first and is stored; E1 is then dropped *)
      rewrite !kick_max_expires. fold E1 E2.
      rewrite H02, H21. reflexivity. }
  split; [intros; apply kick_max_dropped; assumption|].
  split; [exact Horder|].
  split; [|split; [|intros; apply kick_max_outcome]].
  - intros now1 d1 now2 d2 b E1 E2 Hlt Hnear H0 H0near.
    pose proof LONG_MAX_eq as HM.
    apply Horder.
    + rewrite time_after_lt by lia. apply Z.ltb_lt. exact Hlt.
    + rewrite time_after_lt by lia. apply Z.ltb_ge. lia.
    + rewrite time_after_lt by lia. apply Z.ltb_ge. exact H0.
  - (* within the window each request takes the maximum *)
    intros now1 d1 now2 d2 b E0 E1 E2 Hspan.
    pose proof LONG_MAX_eq as HM.
    assert (curr_expires_of (kick_max P now1 d1 b) = Z.max E0 E1) as H1
      by (apply kick_max_is_max; fold E0 E1; lia).
    assert (curr_expires_of (kick_max P now2 d2 b) = Z.max E0 E2) as H2
      by (apply kick_max_is_max; fold E0 E2; lia).
    split.
    + rewrite kick_max_is_max; rewrite H1; fold E2; lia.
    + rewrite kick_max_is_max; rewrite H2; fold E1; lia.
Qed.
End CpuInputBoostFacts.

(** ** Tiers of a boundary table *)

Lemma accepts_spec tbl i s :
  accepts tbl i s = true <-> at_index tbl i <= s <= at_index tbl (i - 1).
Proof.
  unfold accepts, adj_outside, tier. simpl.
  rewrite negb_true_iff, orb_false_iff, Z.ltb_ge, Z.gtb_ltb, Z.ltb_ge. tauto.
Qed.

Lemma descending_head_max l : forall a (j : nat),
  descending (a :: l) = true -> (j < length (a :: l))%nat ->
  at_index (a :: l) j <= a.
Proof.
  unfold at_index.
  induction l as [|b l IH]; intros a j Hd Hj.
  - simpl in Hj. destruct j; [simpl; lia | lia].
  - destruct j as [|j]; [simpl; lia|].
    simpl in Hd. apply andb_true_iff in Hd as [Hba Hd].
    apply Z.ltb_lt in Hba.
    change (nth (S j) (a :: b :: l) 0) with (nth j (b :: l) 0).
    specialize (IH b j Hd). simpl in Hj. simpl in IH. 
    assert (nth j (b :: l) 0 <= b) by (apply IH; lia). lia.
Qed.

Lemma descending_tail a l : descending (a :: l) = true -> descending l = true.
Proof.
  destruct l as [|b l]; [reflexivity|]. simpl.
  intros H. apply andb_true_iff in H. tauto.
Qed.

Lemma descending_lt tbl : forall i j : nat,
  descending tbl = true -> (i < j < length tbl)%nat ->
  at_index tbl j < at_index tbl i.
Proof.
  unfold at_index.
  induction tbl as [|a l IH]; intros i j Hd Hij; [simpl in Hij; lia|].
  destruct j as [|j]; [lia|].
  destruct i as [|i].
  - destruct l as [|b l]; [simpl in Hij; lia|].
    simpl in Hd. apply andb_true_iff in Hd as [Hba Hd].
    apply Z.ltb_lt in Hba.
    change (nth (S j) (a :: b :: l) 0) with (nth j (b :: l) 0).
    pose proof (descending_head_max l b j Hd) as Hm. unfold at_index in Hm.
    simpl in Hij. simpl in Hm. simpl nth at 2.
    assert (nth j (b :: l) 0 <= b) by (apply Hm; lia). lia.
  - change (nth (S j) (a :: l) 0) with (nth j l 0).
    change (nth (S i) (a :: l) 0) with (nth i l 0).
    apply IH; [eapply descending_tail; exact Hd | simpl in Hij; lia].
Qed.

Lemma descending_cover l : forall a s,
  descending (a :: l) = true -> l <> [] ->
  at_index (a :: l) (length l) <= s <= a ->
  exists i : nat, (1 <= i <= length l)%nat /\
    at_index (a :: l) i <= s <= at_index (a :: l) (i - 1).
Proof.
  unfold at_index.
  induction l as [|b l IH]; intros a s Hd Hne Hs; [congruence|].
  destruct (Z_le_gt_dec b s) as [Hb|Hb].
  - exists 1%nat. simpl. lia.
  - destruct l as [|c l].
    + simpl in Hs. lia.
    + destruct (IH b s) as [i [Hi Hacc]].
      * eapply descending_tail; exact Hd.
      * discriminate.
      * change (nth (length (b :: c :: l)) (a :: b :: c :: l) 0)
          with (nth (length (c :: l)) (b :: c :: l) 0) in Hs. lia.
      * exists (S i). split; [simpl in *; lia|].
        change (nth (S i) (a :: b :: c :: l) 0) with (nth i (b :: c :: l) 0).
        replace (S i - 1)%nat with (S (i - 1)) by lia.
        change (nth (S (i - 1)) (a :: b :: c :: l) 0)
          with (nth (i - 1) (b :: c :: l) 0).
        exact Hacc.
Qed.

(** C3 (as amended).  For a boundary table listed in strictly decreasing
    order: the upper bound of tier [i] is the lower bound of tier [i - 1];
    every score between the last and the first boundary passes the test of
    at least one tier; two different tiers pass the same score only when they
    are neighbours and the score is the boundary they share; and each shared
    boundary is indeed passed by both its tiers. *)
Theorem tiers_cover_and_meet_at_bounds (tbl : list Z) :
  descending tbl = true ->
  (forall i : nat, (2 <= i < ARRAY_SIZE tbl)%nat ->
     snd (tier tbl i) = fst (tier tbl (i - 1)))
  /\ (forall s, (2 <= ARRAY_SIZE tbl)%nat ->
       at_index tbl (ARRAY_SIZE tbl - 1) <= s <= at_index tbl 0 ->
       exists i : nat, (1 <= i < ARRAY_SIZE tbl)%nat /\ accepts tbl i s = true)
  /\ (forall s (i j : nat), (1 <= i < j)%nat -> (j < ARRAY_SIZE tbl)%nat ->
       accepts tbl i s = true -> accepts tbl j s = true ->
       j = S i /\ s = at_index tbl i)
  /\ (forall i : nat, (1 <= i)%nat -> (S i < ARRAY_SIZE tbl)%nat ->
       accepts tbl i (at_index tbl i) = true
       /\ accepts tbl (S i) (at_index tbl i) = true).
Proof.
  intros Hd. unfold ARRAY_SIZE. split; [|split; [|split]].
  - intros i Hi. reflexivity.
  - intros s Hlen Hs. destruct tbl as [|a l]; [simpl in Hlen; lia|].
    simpl in Hlen, Hs. rewrite Nat.sub_0_r in Hs.
    destruct (descending_cover l a s Hd) as [i [Hi Hacc]].
    + destruct l; [simpl in Hlen; lia|discriminate].
    + exact Hs.
    + exists i. split; [simpl; lia|]. apply accepts_spec. exact Hacc.
  - intros s i j Hij Hj Hi' Hj'.
    apply accepts_spec in Hi'. apply accepts_spec in Hj'.
    destruct (decide (j = S i)) as [->|Hne].
    + split; [reflexivity|]. replace (S i - 1)%nat with i in Hj' by lia. lia.
    + exfalso.
      pose proof (descending_lt tbl i (j - 1) Hd ltac:(lia)). lia.
  - intros i Hi Hsi. split; apply accepts_spec.
    + pose proof (descending_lt tbl (i - 1) i Hd ltac:(lia)). lia.
    + replace (S i - 1)%nat with i by lia.
      pose proof (descending_lt tbl i (S i) Hd ltac:(lia)). lia.
Qed.

(** ** The walk over the process list *)

Section ScanFacts.
Variable P : platform.

Lemma emitted_app w w' evs : trace w' = trace w ++ evs -> emitted w w' = evs.
Proof. intros H. unfold emitted. rewrite H. apply drop_app_length. Qed.

Lemma find_lock_task_mm_self tsk victim :
  find_lock_task_mm tsk = Some victim -> victim = tsk.
Proof. unfold find_lock_task_mm. destruct (mm tsk); congruence. Qed.

Lemma scan_body_cases min_adj max_adj pages_needed cur tsk pages_freed :
  body_case P min_adj max_adj pages_needed cur tsk pages_freed
    (scan_body P min_adj max_adj pages_needed cur tsk pages_freed).
Proof.
  unfold scan_body.
  destruct (same_thread_group tsk cur
            || negb (Z.land (flags tsk) (PF_KTHREAD P) =? 0)) eqn:Hself;
    [constructor|].
  destruct (find_lock_task_mm tsk) as [victim|] eqn:Hmm; [|constructor].
  apply find_lock_task_mm_self in Hmm as Hv. subst victim.
  destruct (lmk_sigkill_sent tsk || test_tsk_thread_flag tsk (TIF_MEMDIE P))
    eqn:Hdead; [constructor|].
  assert (is_candidate P cur tsk = true) as Hcand.
  { unfold is_candidate. rewrite Hself, Hmm, Hdead. reflexivity. }
  destruct (adj_outside min_adj max_adj (oom_score_adj (signal tsk))) eqn:Hadj;
    [constructor|].
  destruct (get_mm_rss (mm tsk) =? 0) eqn:Hrss; [constructor|].
  apply Z.eqb_neq in Hrss.
  destruct (do_send_sig_info P tsk =? 0) eqn:Hsig; simpl.
  - apply Z.eqb_eq in Hsig. rewrite Hsig. constructor; assumption.
  - apply Z.eqb_neq in Hsig. constructor; assumption.
Qed.
End ScanFacts.

Section ScanLoopFacts.
Variable P : platform.
Variables (min_adj max_adj pages_needed : Z) (cur : task_struct).

Local Abbreviation loop := (scan_loop P min_adj max_adj pages_needed cur).
Local Abbreviation body := (scan_body P min_adj max_adj pages_needed cur).

Lemma scan_loop_cons tsk rest pages_freed :
  loop (tsk :: rest) pages_freed =
    match ctl (body tsk pages_freed) with
    | LoopBreak =>
        (freed_after (body tsk pages_freed),
         tsk_after (body tsk pages_freed) :: rest,
         iter_events (body tsk pages_freed))
    | LoopContinue =>
        let '(freed, rest', evs) :=
          loop rest (freed_after (body tsk pages_freed)) in
        (freed, tsk_after (body tsk pages_freed) :: rest',
         iter_events (body tsk pages_freed) ++ evs)
    end.
Proof. reflexivity. Qed.

Lemma is_candidate_alive t :
  is_candidate P cur t = true ->
  lmk_sigkill_sent t = false /\ test_tsk_thread_flag t (TIF_MEMDIE P) = false
  /\ same_thread_group t cur = false
  /\ Z.land (flags t) (PF_KTHREAD P) = 0
  /\ mm t <> None.
Proof.
  unfold is_candidate, find_lock_task_mm. intros H.
  apply andb_true_iff in H as [H1 H2].
  apply negb_true_iff, orb_false_iff in H1 as [Hs Hk].
  apply negb_false_iff, Z.eqb_eq in Hk.
  destruct (mm t); [|discriminate].
  apply negb_true_iff, orb_false_iff in H2 as [Hf Hm].
  repeat split; try assumption. discriminate.
Qed.

(** Stepping the loop: rewrite the head iteration and split on how the body
    left. *)
Ltac loop_head tsk pf H :=
  rewrite scan_loop_cons in H;
  let Hb := fresh "Hb" in
  pose proof (scan_body_cases P min_adj max_adj pages_needed cur tsk pf) as Hb;
  let it := fresh "it" in
  remember (body tsk pf) as it eqn:Hit; clear Hit;
  destruct Hb as [|Hc Ha Hr Hs|Hc Ha Hr Hs]; cbn [ctl tsk_after freed_after iter_events] in H.

Lemma scan_loop_freed todo : forall pages_freed f ts evs,
  loop todo pages_freed = (f, ts, evs) ->
  to_ulong f = to_ulong (pages_freed + footprints (sig_delivered evs))
  /\ (f = pages_freed \/ 0 <= f < ULONG_MOD).
Proof.
  induction todo as [|tsk rest IH]; intros pf f ts evs H.
  - simpl in H. inversion H; subst. simpl. rewrite Z.add_0_r. auto.
  - loop_head tsk pf H.
    + destruct (loop rest pf) as [[f' ts'] evs'] eqn:E. inversion H; subst.
      simpl. exact (IH _ _ _ _ E).
    + destruct (loop rest pf) as [[f' ts'] evs'] eqn:E. inversion H; subst.
      simpl. apply Z.eqb_neq in Hs. rewrite Hs. exact (IH _ _ _ _ E).
    + destruct (to_ulong (pf + get_mm_rss (mm tsk)) >=? pages_needed).
      * inversion H; subst. simpl. split.
        -- rewrite Z.add_0_r. unfold to_ulong. apply Zmod_mod.
        -- right. apply to_ulong_range.
      * destruct (loop rest (to_ulong (pf + get_mm_rss (mm tsk))))
          as [[f' ts'] evs'] eqn:E.
        inversion H; subst. simpl.
        destruct (IH _ _ _ _ E) as [Hf Hrange]. split.
        -- rewrite Hf, to_ulong_add_l. f_equal. lia.
        -- right. destruct Hrange as [->|Hrange]; [apply to_ulong_range|exact Hrange].
Qed.

Lemma get_mm_rss_nonneg m : 0 <= get_mm_rss m.
Proof. destruct m; simpl; [apply to_ulong_range|lia]. Qed.

Lemma footprints_nonneg vs : 0 <= footprints vs.
Proof.
  induction vs as [|v vs IH]; simpl; [lia|].
  pose proof (get_mm_rss_nonneg (mm v)). lia.
Qed.

(** Every task signalled was a live candidate of the walked list, inside the
    tier and with pages to give. *)
Lemma scan_loop_victims todo : forall pages_freed f ts evs,
  loop todo pages_freed = (f, ts, evs) ->
  sublist (sig_victims evs) todo
  /\ Forall (fun v => is_candidate P cur v = true
                      /\ adj_outside min_adj max_adj
                           (oom_score_adj (signal v)) = false
                      /\ get_mm_rss (mm v) <> 0)
       (sig_victims evs).
Proof.
  induction todo as [|tsk rest IH]; intros pf f ts evs H.
  - simpl in H. inversion H; subst. simpl. split; constructor.
  - loop_head tsk pf H.
    + destruct (loop rest pf) as [[f' ts'] evs'] eqn:E. inversion H; subst.
      simpl. destruct (IH _ _ _ _ E) as [Hsub Hall].
      split; [apply sublist_cons; exact Hsub|exact Hall].
    + destruct (loop rest pf) as [[f' ts'] evs'] eqn:E. inversion H; subst.
      simpl. destruct (IH _ _ _ _ E) as [Hsub Hall].
      split; [apply sublist_skip; exact Hsub|].
      constructor; [auto|exact Hall].
    + destruct (to_ulong (pf + get_mm_rss (mm tsk)) >=? pages_needed).
      * inversion H; subst. simpl. split.
        -- apply sublist_skip, sublist_nil_l.
        -- constructor; [auto|constructor].
      * destruct (loop rest (to_ulong (pf + get_mm_rss (mm tsk))))
          as [[f' ts'] evs'] eqn:E.
        inversion H; subst. simpl.
        destruct (IH _ _ _ _ E) as [Hsub Hall].
        split; [apply sublist_skip; exact Hsub|].
        constructor; [auto|exact Hall].
Qed.

(** The walk keeps every descriptor in place, leaves the one of each task
    whose signal was delivered with [lmk_sigkill_sent] set, and does not
    touch a task that already carried it or TIF_MEMDIE. *)
Lemma scan_loop_tasks todo : forall pages_freed f ts evs,
  loop todo pages_freed = (f, ts, evs) ->
  map pid ts = map pid todo
  /\ Forall (fun v => marked P v ∈ ts) (sig_delivered evs)
  /\ (forall t, t ∈ todo ->
        lmk_sigkill_sent t = true
        \/ test_tsk_thread_flag t (TIF_MEMDIE P) = true ->
        t ∈ ts).
Proof.
  induction todo as [|tsk rest IH]; intros pf f ts evs H.
  - simpl in H. inversion H; subst. simpl. repeat split; [constructor|auto].
  - loop_head tsk pf H.
    + destruct (loop rest pf) as [[f' ts'] evs'] eqn:E. inversion H; subst.
      destruct (IH _ _ _ _ E) as (Hp & Hm & Hk). simpl. repeat split.
      * f_equal. exact Hp.
      * eapply Forall_impl; [exact Hm|]. intros v Hv. right. exact Hv.
      * intros t Ht Hf. apply elem_of_cons in Ht as [->|Ht]; [left|right; auto].
    + destruct (loop rest pf) as [[f' ts'] evs'] eqn:E. inversion H; subst.
      destruct (IH _ _ _ _ E) as (Hp & Hm & Hk). simpl.
      apply Z.eqb_neq in Hs. rewrite Hs. repeat split.
      * f_equal. exact Hp.
      * eapply Forall_impl; [exact Hm|]. intros v Hv. right. exact Hv.
      * intros t Ht Hf. apply elem_of_cons in Ht as [->|Ht]; [left|right; auto].
    + apply is_candidate_alive in Hc as (Hflag & Hmem & _).
      destruct (to_ulong (pf + get_mm_rss (mm tsk)) >=? pages_needed).
      * inversion H; subst. simpl. repeat split.
        -- constructor; [left|constructor].
        -- intros t Ht Hf. apply elem_of_cons in Ht as [->|Ht];
             [destruct Hf; congruence|right; auto].
      * destruct (loop rest (to_ulong (pf + get_mm_rss (mm tsk))))
          as [[f' ts'] evs'] eqn:E.
        inversion H; subst.
        destruct (IH _ _ _ _ E) as (Hp & Hm & Hk). simpl. repeat split.
        -- f_equal. exact Hp.
        -- constructor; [left|].
           eapply Forall_impl; [exact Hm|]. intros v Hv. right. exact Hv.
        -- intros t Ht Hf. apply elem_of_cons in Ht as [->|Ht];
             [destruct Hf; congruence|right; auto].
Qed.

(** The walk only ever logs signals. *)
Lemma scan_loop_only_signals todo : forall pages_freed f ts evs,
  loop todo pages_freed = (f, ts, evs) ->
  scan_args evs = [] /\ scan_rets evs = []
  /\ Forall (fun e => is_boost_request e = false) evs.
Proof.
  induction todo as [|tsk rest IH]; intros pf f ts evs H.
  - simpl in H. inversion H; subst. simpl. repeat split. constructor.
  - loop_head tsk pf H.
    + destruct (loop rest pf) as [[f' ts'] evs'] eqn:E. inversion H; subst.
      exact (IH _ _ _ _ E).
    + destruct (loop rest pf) as [[f' ts'] evs'] eqn:E. inversion H; subst.
      destruct (IH _ _ _ _ E) as (Ha' & Hr' & Hb'). simpl.
      repeat split; [exact Ha'|exact Hr'|constructor; [reflexivity|exact Hb']].
    + destruct (to_ulong (pf + get_mm_rss (mm tsk)) >=? pages_needed).
      * inversion H; subst. simpl. repeat split. repeat constructor.
      * destruct (loop rest (to_ulong (pf + get_mm_rss (mm tsk))))
          as [[f' ts'] evs'] eqn:E.
        inversion H; subst.
        destruct (IH _ _ _ _ E) as (Ha' & Hr' & Hb'). simpl.
        repeat split; [exact Ha'|exact Hr'|constructor; [reflexivity|exact Hb']].
Qed.

(** With no candidate holding a page, the walk changes and signals nothing. *)
Lemma scan_loop_nothing_to_free todo : forall pages_freed,
  Forall (fun t => is_candidate P cur t = true -> get_mm_rss (mm t) = 0) todo ->
  loop todo pages_freed = (pages_freed, todo, []).
Proof.
  induction todo as [|tsk rest IH]; intros pf Hall; [reflexivity|].
  inversion Hall as [|? ? Ht Hrest]; subst.
  destruct (loop (tsk :: rest) pf) as [[f ts] evs] eqn:H.
  loop_head tsk pf H.
  - rewrite (IH pf Hrest) in H. inversion H; subst. reflexivity.
  - exfalso. auto.
  - exfalso. auto.
Qed.
End ScanLoopFacts.

(** ** Traces of appended segments *)

Lemma sig_victims_app l1 l2 :
  sig_victims (l1 ++ l2) = sig_victims l1 ++ sig_victims l2.
Proof.
  induction l1 as [|e l1 IH]; [reflexivity|].
  destruct e; simpl; rewrite IH; reflexivity.
Qed.

Lemma sig_delivered_app l1 l2 :
  sig_delivered (l1 ++ l2) = sig_delivered l1 ++ sig_delivered l2.
Proof.
  induction l1 as [|e l1 IH]; [reflexivity|].
  destruct e; simpl; try (rewrite IH; reflexivity).
  destruct (ret =? 0); simpl; rewrite IH; reflexivity.
Qed.

Lemma scan_args_app l1 l2 : scan_args (l1 ++ l2) = scan_args l1 ++ scan_args l2.
Proof.
  induction l1 as [|e l1 IH]; [reflexivity|].
  destruct e; simpl; rewrite IH; reflexivity.
Qed.

Lemma scan_rets_app l1 l2 : scan_rets (l1 ++ l2) = scan_rets l1 ++ scan_rets l2.
Proof.
  induction l1 as [|e l1 IH]; [reflexivity|].
  destruct e; simpl; rewrite IH; reflexivity.
Qed.

Lemma sig_delivered_victims evs : sublist (sig_delivered evs) (sig_victims evs).
Proof.
  induction evs as [|e evs IH]; [constructor|].
  destruct e; simpl; try exact IH.
  destruct (ret =? 0); [apply sublist_skip|apply sublist_cons]; exact IH.
Qed.

Lemma pid_unique (l : list task_struct) a b :
  NoDup (map pid l) -> a ∈ l -> b ∈ l -> pid a = pid b -> a = b.
Proof.
  induction l as [|x l IH]; intros Hnd Ha Hb Hp.
  - inversion Ha.
  - simpl in Hnd. apply NoDup_cons in Hnd as [Hx Hnd].
    apply elem_of_cons in Ha as [->|Ha]; apply elem_of_cons in Hb as [->|Hb].
    + reflexivity.
    + exfalso. apply Hx. rewrite Hp. apply (list_elem_of_fmap_2 pid). exact Hb.
    + exfalso. apply Hx. rewrite <- Hp. apply (list_elem_of_fmap_2 pid). exact Ha.
    + apply IH; assumption.
Qed.

Section ScanAndKillFacts.
Variable P : platform.

(** [scan_and_kill] is the walk of [tasks w], bracketed in the trace. *)
Lemma scan_and_kill_unfold min_adj max_adj pages_needed w :
  exists f ts evs,
    scan_loop P min_adj max_adj pages_needed (current w) (tasks w) 0
      = (f, ts, evs)
    /\ scan_and_kill P min_adj max_adj pages_needed w
       = (f, log (EvScanAndKill min_adj max_adj pages_needed :: evs
                  ++ [EvScanReturn f]) (set_tasks ts w)).
Proof.
  unfold scan_and_kill.
  destruct (scan_loop _ _ _ _ _ _ _) as [[f ts] evs].
  exists f, ts, evs. split; reflexivity.
Qed.

Lemma scan_and_kill_emitted min_adj max_adj pages_needed w f ts evs :
  scan_loop P min_adj max_adj pages_needed (current w) (tasks w) 0
    = (f, ts, evs) ->
  emitted w (snd (scan_and_kill P min_adj max_adj pages_needed w))
    = EvScanAndKill min_adj max_adj pages_needed :: evs ++ [EvScanReturn f]
  /\ tasks (snd (scan_and_kill P min_adj max_adj pages_needed w)) = ts
  /\ fst (scan_and_kill P min_adj max_adj pages_needed w) = f.
Proof.
  intros H. unfold scan_and_kill. rewrite H. simpl.
  repeat split. apply emitted_app. reflexivity.
Qed.
End ScanAndKillFacts.

(** ** Accounting without wrap-around *)

Lemma unsent_rss_nonneg ts : 0 <= unsent_rss ts.
Proof.
  induction ts as [|t ts IH]; simpl; [lia|].
  pose proof (get_mm_rss_nonneg (mm t)). destruct (lmk_sigkill_sent t); lia.
Qed.

Lemma freed_from_exact rets : forall acc,
  0 <= acc -> Forall (fun r => 0 <= r) rets -> acc + total rets < ULONG_MOD ->
  freed_from acc rets = acc + total rets.
Proof.
  induction rets as [|r rets IH]; intros acc Hacc Hpos Hsum; simpl in *.
  - lia.
  - inversion Hpos as [|? ? Hr Hrest]; subst.
    assert (0 <= total rets).
    { clear -Hrest. induction Hrest; simpl; lia. }
    rewrite to_ulong_small by lia. rewrite IH; [lia|lia|exact Hrest|lia].
Qed.

Lemma total_take_le rets (j : nat) :
  Forall (fun r => 0 <= r) rets -> 0 <= total (take j rets) <= total rets.
Proof.
  intros Hpos. revert j. induction Hpos as [|r rets Hr _ IH]; intros j.
  - rewrite take_nil. simpl. lia.
  - destruct j as [|j]; simpl.
    + assert (0 <= total rets) by (specialize (IH O); simpl in IH; lia). lia.
    + specialize (IH j). lia.
Qed.


Section ScanAndKillClaims.
Variable P : platform.

Lemma scan_and_kill_signals min_adj max_adj pages_needed w f ts evs :
  scan_loop P min_adj max_adj pages_needed (current w) (tasks w) 0
    = (f, ts, evs) ->
  let w' := snd (scan_and_kill P min_adj max_adj pages_needed w) in
  sig_victims (emitted w w') = sig_victims evs
  /\ sig_delivered (emitted w w') = sig_delivered evs.
Proof.
  intros H w'. subst w'.
  destruct (scan_and_kill_emitted P _ _ _ _ _ _ _ H) as (-> & _ & _).
  simpl. rewrite sig_victims_app, sig_delivered_app. simpl.
  rewrite !app_nil_r. split; reflexivity.
Qed.

Lemma scan_loop_delivered_ok min_adj max_adj pages_needed cur todo :
  forall pages_freed f ts evs,
  scan_loop P min_adj max_adj pages_needed cur todo pages_freed = (f, ts, evs) ->
  Forall (fun v => do_send_sig_info P v = 0) (sig_delivered evs).
Proof.
  induction todo as [|tsk rest IH]; intros pf f ts evs H.
  - simpl in H. inversion H; subst. constructor.
  - rewrite scan_loop_cons in H.
    pose proof (scan_body_cases P min_adj max_adj pages_needed cur tsk pf) as Hb.
    remember (scan_body P min_adj max_adj pages_needed cur tsk pf) as it eqn:Hit.
    clear Hit.
    destruct Hb as [|Hc Ha Hr Hs|Hc Ha Hr Hs];
      cbn [ctl tsk_after freed_after iter_events] in H.
    + destruct (scan_loop _ _ _ _ _ rest pf) as [[f' ts'] evs'] eqn:E.
      inversion H; subst. exact (IH _ _ _ _ E).
    + destruct (scan_loop _ _ _ _ _ rest pf) as [[f' ts'] evs'] eqn:E.
      inversion H; subst. simpl. apply Z.eqb_neq in Hs. rewrite Hs.
      exact (IH _ _ _ _ E).
    + destruct (to_ulong (pf + get_mm_rss (mm tsk)) >=? pages_needed).
      * inversion H; subst. simpl. repeat constructor. exact Hs.
      * destruct (scan_loop _ _ _ _ _ rest _) as [[f' ts'] evs'] eqn:E.
        inversion H; subst. simpl. constructor; [exact Hs|exact (IH _ _ _ _ E)].
Qed.

(** Every page a walk accounts leaves the pool of pages not yet sent a
    SIGKILL. *)
Lemma scan_loop_potential min_adj max_adj pages_needed cur todo :
  forall pages_freed f ts evs,
  scan_loop P min_adj max_adj pages_needed cur todo pages_freed = (f, ts, evs) ->
  unsent_rss ts + footprints (sig_delivered evs) = unsent_rss todo.
Proof.
  induction todo as [|tsk rest IH]; intros pf f ts evs H.
  - simpl in H. inversion H; subst. reflexivity.
  - rewrite scan_loop_cons in H.
    pose proof (scan_body_cases P min_adj max_adj pages_needed cur tsk pf) as Hb.
    remember (scan_body P min_adj max_adj pages_needed cur tsk pf) as it eqn:Hit.
    clear Hit.
    destruct Hb as [|Hc Ha Hr Hs|Hc Ha Hr Hs];
      cbn [ctl tsk_after freed_after iter_events] in H.
    + destruct (scan_loop _ _ _ _ _ rest pf) as [[f' ts'] evs'] eqn:E.
      inversion H; subst. simpl. specialize (IH _ _ _ _ E). lia.
    + destruct (scan_loop _ _ _ _ _ rest pf) as [[f' ts'] evs'] eqn:E.
      inversion H; subst. simpl. apply Z.eqb_neq in Hs. rewrite Hs.
      specialize (IH _ _ _ _ E). lia.
    + apply (is_candidate_alive P) in Hc as (Hflag & _).
      destruct (to_ulong (pf + get_mm_rss (mm tsk)) >=? pages_needed).
      * inversion H; subst. simpl. rewrite Hflag. lia.
      * destruct (scan_loop _ _ _ _ _ rest _) as [[f' ts'] evs'] eqn:E.
        inversion H; subst. simpl. rewrite Hflag.
        specialize (IH _ _ _ _ E). lia.
Qed.

Lemma scan_and_kill_exact min_adj max_adj pages_needed w :
  let r := scan_and_kill P min_adj max_adj pages_needed w in
  unsent_rss (tasks (snd r)) + footprints (sig_delivered (emitted w (snd r)))
    = unsent_rss (tasks w)
  /\ (unsent_rss (tasks w) < ULONG_MOD ->
      fst r = footprints (sig_delivered (emitted w (snd r))))
  /\ 0 <= fst r.
Proof.
  intros r. subst r.
  destruct (scan_loop P min_adj max_adj pages_needed (current w) (tasks w) 0)
    as [[f ts] evs] eqn:H.
  destruct (scan_and_kill_signals _ _ _ _ _ _ _ H) as [_ ->].
  destruct (scan_and_kill_emitted P _ _ _ _ _ _ _ H) as (_ & -> & ->).
  pose proof (scan_loop_potential _ _ _ _ _ _ _ _ _ H) as Hpot.
  destruct (scan_loop_freed P _ _ _ _ _ _ _ _ _ H) as [Hf Hrange].
  rewrite Z.add_0_l in Hf.
  pose proof (unsent_rss_nonneg ts).
  pose proof (footprints_nonneg (sig_delivered evs)).
  assert (0 <= f < ULONG_MOD) as Hfr.
  { destruct Hrange as [->|Hrange]; [rewrite ULONG_MOD_eq; lia|exact Hrange]. }
  split; [exact Hpot|]. split; [|lia].
  intros Hfit. rewrite <- (to_ulong_small f Hfr), Hf.
  apply to_ulong_small. lia.
Qed.

(** C4.  The total [scan_and_kill] returns never exceeds the summed resident
    footprints of the tasks whose SIGKILL was delivered during that call (it
    is that sum, reduced modulo 2^64 by the [unsigned long] accumulator, and
    the sum itself whenever the pages of the tasks not yet killed fit an
    [unsigned long]); every task summed had [do_send_sig_info] return 0, and
    an iteration whose signal fails leaves the running total as it found
    it. *)
Theorem scan_and_kill_total_within_delivered min_adj max_adj pages_needed w :
  let r := scan_and_kill P min_adj max_adj pages_needed w in
  let delivered := sig_delivered (emitted w (snd r)) in
  fst r <= footprints delivered
  /\ fst r = to_ulong (footprints delivered)
  /\ Forall (fun v => do_send_sig_info P v = 0) delivered
  /\ (forall cur tsk pages_freed,
        do_send_sig_info P tsk <> 0 ->
        freed_after (scan_body P min_adj max_adj pages_needed cur tsk pages_freed)
          = pages_freed)
  /\ (unsent_rss (tasks w) < ULONG_MOD -> fst r = footprints delivered).
Proof.
  intros r delivered. subst r delivered.
  destruct (scan_loop P min_adj max_adj pages_needed (current w) (tasks w) 0)
    as [[f ts] evs] eqn:H.
  destruct (scan_and_kill_signals _ _ _ _ _ _ _ H) as [_ ->].
  destruct (scan_and_kill_emitted P _ _ _ _ _ _ _ H) as (_ & _ & ->).
  destruct (scan_loop_freed P _ _ _ _ _ _ _ _ _ H) as [Hf Hrange].
  rewrite Z.add_0_l in Hf.
  assert (f = to_ulong (footprints (sig_delivered evs))) as Heq.
  { rewrite <- Hf. symmetry. apply to_ulong_small.
    destruct Hrange as [->|Hrange]; [rewrite ULONG_MOD_eq; lia|exact Hrange]. }
  split; [|split; [exact Heq|split; [|split]]].
  - rewrite Heq. apply to_ulong_le, footprints_nonneg.
  - eapply scan_loop_delivered_ok. exact H.
  - intros cur tsk pf Hfail.
    pose proof (scan_body_cases P min_adj max_adj pages_needed cur tsk pf) as Hb.
    destruct Hb; try reflexivity. congruence.
  - intros Hfit. rewrite Heq. apply to_ulong_small.
    pose proof (scan_loop_potential _ _ _ _ _ _ _ _ _ H).
    pose proof (unsent_rss_nonneg ts).
    pose proof (footprints_nonneg (sig_delivered evs)). lia.
Qed.

End ScanAndKillClaims.

(** ** The tier loop *)

Lemma same_control_refl w : same_control w w.
Proof. unfold same_control. tauto. Qed.

Lemma same_control_trans w1 w2 w3 :
  same_control w1 w2 -> same_control w2 w3 -> same_control w1 w3.
Proof. unfold same_control. intuition congruence. Qed.

Lemma freed_from_nonneg rets : forall acc, 0 <= acc -> 0 <= freed_from acc rets.
Proof.
  induction rets as [|r rets IH]; intros acc H; simpl; [exact H|].
  apply IH, to_ulong_range.
Qed.

Section TierLoopFacts.
Variable P : platform.

Lemma scan_and_kill_frame min_adj max_adj pages_needed w :
  let w' := snd (scan_and_kill P min_adj max_adj pages_needed w) in
  same_control w w'
  /\ boost_drv_g w' = boost_drv_g w
  /\ last_reclaim_jiffies w' = last_reclaim_jiffies w.
Proof.
  destruct (scan_and_kill_unfold P min_adj max_adj pages_needed w)
    as (f & ts & evs & _ & ->).
  simpl. unfold same_control. simpl. tauto.
Qed.

(** One activation, as seen in the trace. *)
Lemma scan_and_kill_log min_adj max_adj pages_needed w :
  let r := scan_and_kill P min_adj max_adj pages_needed w in
  exists evs,
    trace (snd r) = trace w ++ evs
    /\ scan_args evs = [(min_adj, max_adj, pages_needed)]
    /\ scan_rets evs = [fst r]
    /\ Forall (fun e => is_boost_request e = false) evs.
Proof.
  destruct (scan_and_kill_unfold P min_adj max_adj pages_needed w)
    as (f & ts & evs & Hloop & ->).
  destruct (scan_loop_only_signals P _ _ _ _ _ _ _ _ _ Hloop) as (Ha & Hr & Hb).
  eexists. split; [reflexivity|]. simpl.
  rewrite scan_args_app, scan_rets_app, Ha, Hr. simpl.
  repeat split. constructor; [reflexivity|].
  apply Forall_app. split; [exact Hb|]. repeat constructor.
Qed.

Lemma tier_loop_cons tbl i idx pages_needed pages_freed w :
  tier_loop P tbl (i :: idx) pages_needed pages_freed w =
    let r := scan_and_kill P (at_index tbl i) (at_index tbl (i - 1))
               (to_ulong (pages_needed - pages_freed)) w in
    if to_ulong (pages_freed + fst r) >=? pages_needed
    then (to_ulong (pages_freed + fst r), snd r)
    else tier_loop P tbl idx pages_needed (to_ulong (pages_freed + fst r)) (snd r).
Proof.
  simpl. destruct (scan_and_kill _ _ _ _ _) as [n w']. reflexivity.
Qed.

Lemma tier_loop_frame tbl idx : forall pages_needed pages_freed w,
  let w' := snd (tier_loop P tbl idx pages_needed pages_freed w) in
  same_control w w'
  /\ boost_drv_g w' = boost_drv_g w
  /\ last_reclaim_jiffies w' = last_reclaim_jiffies w.
Proof.
  induction idx as [|i idx IH]; intros needed freed w; simpl.
  - split; [apply same_control_refl|tauto].
  - pose proof (scan_and_kill_frame (at_index tbl i) (at_index tbl (i - 1))
                  (to_ulong (needed - freed)) w) as Hs.
    destruct (scan_and_kill _ _ _ _ _) as [n w1]. simpl in Hs.
    destruct (_ >=? _); [exact Hs|].
    specialize (IH needed (to_ulong (freed + n)) w1). simpl in IH.
    destruct Hs as (Hc & Hb & Hl). destruct IH as (Hc' & Hb' & Hl').
    split; [eapply same_control_trans; eassumption|]. split; congruence.
Qed.

(** The scans the loop makes from index [i] on, with [n] tiers left and
    [pages_freed] pages already accounted. *)
Lemma tier_loop_log tbl n : forall (i : nat) pages_needed pages_freed w,
  let r := tier_loop P tbl (seq i n) pages_needed pages_freed w in
  exists evs,
    trace (snd r) = trace w ++ evs
    /\ Forall (fun e => is_boost_request e = false) evs
    /\ length (scan_args evs) = length (scan_rets evs)
    /\ (length (scan_rets evs) <= n)%nat
    /\ ((0 < n)%nat -> (0 < length (scan_rets evs))%nat)
    /\ fst r = freed_from pages_freed (scan_rets evs)
    /\ (forall j : nat, (j < length (scan_rets evs))%nat ->
          scan_args evs !! j =
            Some (at_index tbl (i + j), at_index tbl (i + j - 1),
                  to_ulong (pages_needed
                            - freed_from pages_freed (take j (scan_rets evs)))))
    /\ (forall j : nat, (1 <= j < length (scan_rets evs))%nat ->
          freed_from pages_freed (take j (scan_rets evs)) < pages_needed)
    /\ (length (scan_rets evs) = n
        \/ pages_needed <= freed_from pages_freed (scan_rets evs)).
Proof.
  induction n as [|n IH]; intros i needed freed w r; subst r.
  - exists []. simpl. rewrite app_nil_r.
    split; [reflexivity|]. split; [constructor|].
    split; [reflexivity|]. split; [lia|]. split; [lia|].
    split; [reflexivity|]. split; [intros; lia|].
    split; [intros; lia|left; reflexivity].
  - change (seq i (S n)) with (i :: seq (S i) n). rewrite tier_loop_cons.
    destruct (scan_and_kill_log (at_index tbl i) (at_index tbl (i - 1))
                (to_ulong (needed - freed)) w)
      as (evs1 & Ht1 & Ha1 & Hr1 & Hb1).
    set (r1 := scan_and_kill P (at_index tbl i) (at_index tbl (i - 1))
                 (to_ulong (needed - freed)) w) in *.
    cbv zeta.
    destruct (to_ulong (freed + fst r1) >=? needed) eqn:Hstop.
    + exists evs1. rewrite Ha1, Hr1. simpl.
      split; [exact Ht1|]. split; [exact Hb1|].
      split; [reflexivity|]. split; [lia|]. split; [lia|].
      split; [reflexivity|]. split; [|split].
      * intros j Hj. assert (j = 0%nat) by lia. subst j. simpl.
        rewrite Nat.add_0_r. reflexivity.
      * intros j Hj. lia.
      * right. apply Z.geb_le in Hstop. exact Hstop.
    + destruct (IH (S i) needed (to_ulong (freed + fst r1)) (snd r1))
        as (evs2 & Ht2 & Hb2 & Hlen & Hle & Hpos & Hf & Hargs & Hlt & Hend).
      exists (evs1 ++ evs2).
      rewrite scan_args_app, scan_rets_app, Ha1, Hr1. simpl.
      split; [rewrite Ht2, Ht1, app_assoc; reflexivity|].
      split; [apply Forall_app; split; assumption|].
      split; [rewrite Hlen; reflexivity|]. split; [lia|]. split; [lia|].
      split; [exact Hf|]. split; [|split].
      * intros j Hj. destruct j as [|j]; simpl.
        -- rewrite Nat.add_0_r. reflexivity.
        -- rewrite Hargs by lia.
           replace (S i + j)%nat with (i + S j)%nat by lia.
           replace (i + S j - 1)%nat with (i + S j - 1)%nat by lia.
           reflexivity.
      * intros j Hj. destruct j as [|j]; [lia|]. simpl.
        destruct j as [|j].
        -- simpl. rewrite Z.geb_leb in Hstop. apply Z.leb_gt in Hstop.
           exact Hstop.
        -- apply Hlt. lia.
      * destruct Hend as [Hend|Hend]; [left; lia|right; exact Hend].
Qed.
(** With the pages of the tasks not yet killed fitting an [unsigned long]
    next to what is already accounted, no addition of the loop wraps: the
    count is the plain sum of the scans' returns, and that is the pages of
    the tasks killed. *)
Lemma tier_loop_exact tbl idx : forall pages_needed pages_freed w,
  0 <= pages_freed ->
  pages_freed + unsent_rss (tasks w) < ULONG_MOD ->
  let r := tier_loop P tbl idx pages_needed pages_freed w in
  exists evs,
    trace (snd r) = trace w ++ evs
    /\ Forall (fun x => 0 <= x) (scan_rets evs)
    /\ total (scan_rets evs) = footprints (sig_delivered evs)
    /\ unsent_rss (tasks (snd r)) + footprints (sig_delivered evs)
       = unsent_rss (tasks w).
Proof.
  induction idx as [|i idx IH]; intros needed freed w Hfreed Hfit r; subst r.
  - exists []. simpl. rewrite app_nil_r. repeat split; [constructor|lia].
  - rewrite tier_loop_cons.
    set (r1 := scan_and_kill P (at_index tbl i) (at_index tbl (i - 1))
                 (to_ulong (needed - freed)) w).
    destruct (scan_and_kill_log (at_index tbl i) (at_index tbl (i - 1))
                (to_ulong (needed - freed)) w)
      as (evs1 & Ht1 & _ & Hr1 & _).
    destruct (scan_and_kill_exact P (at_index tbl i) (at_index tbl (i - 1))
                (to_ulong (needed - freed)) w)
      as (Hpot & Hexact & Hpos).
    fold r1 in Ht1, Hr1, Hpot, Hexact, Hpos.
    rewrite (emitted_app _ _ _ Ht1) in Hpot, Hexact.
    pose proof (unsent_rss_nonneg (tasks w)) as Hw.
    pose proof (unsent_rss_nonneg (tasks (snd r1))) as Hw1.
    specialize (Hexact ltac:(lia)).
    cbv zeta. destruct (to_ulong (freed + fst r1) >=? needed).
    + exists evs1. cbn [snd]. rewrite Hr1. simpl.
      split; [exact Ht1|]. split; [repeat constructor; exact Hpos|].
      split; [lia|exact Hpot].
    + assert (to_ulong (freed + fst r1) = freed + fst r1) as Hsmall
        by (apply to_ulong_small; lia).
      destruct (IH needed (to_ulong (freed + fst r1)) (snd r1))
        as (evs2 & Ht2 & Hpos2 & Htot2 & Hpot2).
      * rewrite Hsmall. lia.
      * rewrite Hsmall. lia.
      * exists (evs1 ++ evs2).
        rewrite scan_rets_app, sig_delivered_app, Hr1.
        split; [rewrite Ht2, Ht1, app_assoc; reflexivity|].
        split; [constructor; [exact Hpos|exact Hpos2]|].
        assert (forall l1 l2, footprints (l1 ++ l2)
                              = footprints l1 + footprints l2) as Happ.
        { clear. induction l1 as [|v l1 IH]; intros l2; simpl;
            [reflexivity|rewrite IH; lia]. }
        rewrite Happ. simpl. split; lia.
Qed.
End TierLoopFacts.

Section ReclaimClaims.
Variable P : platform.

Lemma kick_boosts_trace w :
  trace (kick_boosts P w)
    = trace w ++ [EvCpuInputBoostKickMax BOOST_DURATION_MS;
                  EvDevfreqBoostKickMax BOOST_DURATION_MS].
Proof. unfold kick_boosts. simpl. rewrite <- app_assoc. reflexivity. Qed.

Lemma kick_boosts_frame w :
  same_control w (kick_boosts P w)
  /\ tasks (kick_boosts P w) = tasks w
  /\ last_reclaim_jiffies (kick_boosts P w) = last_reclaim_jiffies w
  /\ boost_drv_g (kick_boosts P w)
     = cpu_input_boost_kick_max P (jiffies w) (boost_drv_g w) BOOST_DURATION_MS.
Proof. unfold kick_boosts, same_control. simpl. tauto. Qed.

Lemma do_lmk_reclaim_unfold pages_needed at_stamp w :
  do_lmk_reclaim P pages_needed at_stamp w =
    let t := tier_loop P adj_prio (seq 1 10) pages_needed 0 (kick_boosts P w) in
    (to_ulong (fst t * PAGE_SIZE P) / SZ_1M P,
     set_last_reclaim_jiffies at_stamp (set_jiffies at_stamp (snd t))).
Proof.
  unfold do_lmk_reclaim. change (tier_indices adj_prio) with (seq 1 10).
  destruct (tier_loop _ _ _ _ _ _) as [f w3]. reflexivity.
Qed.

(** The stamp of line 127 touches the two time fields only. *)
Lemma stamp_frame j j' w :
  trace (set_last_reclaim_jiffies j (set_jiffies j' w)) = trace w
  /\ tasks (set_last_reclaim_jiffies j (set_jiffies j' w)) = tasks w
  /\ boost_drv_g (set_last_reclaim_jiffies j (set_jiffies j' w)) = boost_drv_g w.
Proof. repeat split. Qed.

(** What a pass adds to the trace: the two boost requests, then the scans
    of the tier loop. *)
Lemma do_lmk_reclaim_emitted pages_needed at_stamp w :
  let t := tier_loop P adj_prio (seq 1 10) pages_needed 0 (kick_boosts P w) in
  exists evs,
    trace (snd t) = trace (kick_boosts P w) ++ evs
    /\ emitted w (snd (do_lmk_reclaim P pages_needed at_stamp w))
       = EvCpuInputBoostKickMax BOOST_DURATION_MS
         :: EvDevfreqBoostKickMax BOOST_DURATION_MS :: evs.
Proof.
  intros t.
  destruct (tier_loop_log P adj_prio 10 1 pages_needed 0 (kick_boosts P w))
    as (evs & Ht & _).
  exists evs. split; [exact Ht|].
  rewrite do_lmk_reclaim_unfold. cbv zeta. cbn [snd].
  apply emitted_app. rewrite (proj1 (stamp_frame _ _ _)).
  rewrite Ht, kick_boosts_trace, <- app_assoc. reflexivity.
Qed.

(** The scans of one pass: what the tier loop logs behind the two boost
    requests, in the loop's own terms (first index 1, ten tiers, nothing
    freed yet). *)
Lemma do_lmk_reclaim_scans pages_needed at_stamp w :
  exists evs,
    emitted w (snd (do_lmk_reclaim P pages_needed at_stamp w))
      = EvCpuInputBoostKickMax BOOST_DURATION_MS
        :: EvDevfreqBoostKickMax BOOST_DURATION_MS :: evs
    /\ length (scan_args evs) = length (scan_rets evs)
    /\ (1 <= length (scan_rets evs) <= 10)%nat
    /\ fst (do_lmk_reclaim P pages_needed at_stamp w)
       = to_ulong (freed_from 0 (scan_rets evs) * PAGE_SIZE P) / SZ_1M P
    /\ (forall j : nat, (j < length (scan_rets evs))%nat ->
          scan_args evs !! j =
            Some (at_index adj_prio (1 + j), at_index adj_prio (1 + j - 1),
                  to_ulong (pages_needed
                            - freed_from 0 (take j (scan_rets evs)))))
    /\ (forall j : nat, (1 <= j < length (scan_rets evs))%nat ->
          freed_from 0 (take j (scan_rets evs)) < pages_needed)
    /\ (length (scan_rets evs) = 10%nat
        \/ pages_needed <= freed_from 0 (scan_rets evs))
    /\ (unsent_rss (tasks w) < ULONG_MOD ->
        Forall (fun x => 0 <= x) (scan_rets evs)
        /\ total (scan_rets evs) = footprints (sig_delivered evs)
        /\ total (scan_rets evs) <= unsent_rss (tasks w)).
Proof.
  destruct (tier_loop_log P adj_prio 10 1 pages_needed 0 (kick_boosts P w))
    as (evs & Ht & Hb & Hlen & Hle & Hpos & Hf & Hargs & Hlt & Hend).
  destruct (do_lmk_reclaim_emitted pages_needed at_stamp w) as (evs' & Ht' & Hem).
  rewrite Ht in Ht'. apply app_inv_head in Ht'. subst evs'.
  exists evs. split; [exact Hem|]. split; [exact Hlen|].
  split; [lia|]. split; [|split; [exact Hargs|split; [exact Hlt|split]]].
  - rewrite do_lmk_reclaim_unfold. cbv zeta. cbn [fst]. rewrite Hf. reflexivity.
  - exact Hend.
  - intros Hfit. destruct (kick_boosts_frame w) as (_ & Htasks & _).
    destruct (tier_loop_exact P adj_prio (seq 1 10) pages_needed 0
                (kick_boosts P w)) as (evs' & Ht' & Hnn & Htot & Hpot);
      [lia|rewrite Htasks; lia|].
    rewrite Ht in Ht'. apply app_inv_head in Ht'. subst evs'.
    split; [exact Hnn|]. split; [exact Htot|].
    rewrite Htasks in Hpot.
    pose proof (unsent_rss_nonneg
                  (tasks (snd (tier_loop P adj_prio (seq 1 10) pages_needed 0
                                 (kick_boosts P w))))). lia.
Qed.

(** C2 (as amended).  The [scan_and_kill] calls of one [do_lmk_reclaim] are,
    in order, the tiers 1, 2, ... of [adj_prio]: call number [j] (from 0) has
    bounds [(adj_prio[j+1], adj_prio[j])] and is asked for [pages_needed]
    minus the pages freed by the calls before it.  The stop test comes after
    each call: tier 1 is scanned whatever [pages_needed] is; after every call
    but the last the pages freed are still short of [pages_needed]; and the
    calls end either with the tenth and last tier or with the first call
    that leaves the pages freed at [pages_needed] or above.  So when nothing
    is needed there is exactly one call, to tier 1.  The value returned is
    the final count in MiB.  "Pages freed" is the [unsigned long] variable;
    it is the plain sum of the scans' returns, and the pages of the tasks
    killed in the pass, whenever the pages of the tasks not yet killed fit
    an [unsigned long]. *)
Theorem do_lmk_reclaim_walks_tiers pages_needed at_stamp w :
  let r := do_lmk_reclaim P pages_needed at_stamp w in
  let args := scan_args (emitted w (snd r)) in
  let rets := scan_rets (emitted w (snd r)) in
  length args = length rets
  /\ (1 <= length rets <= ARRAY_SIZE adj_prio - 1)%nat
  /\ (forall j : nat, (j < length rets)%nat ->
        args !! j =
          Some (at_index adj_prio (S j), at_index adj_prio j,
                to_ulong (pages_needed - freed_so_far (take j rets))))
  /\ (forall j : nat, (1 <= j < length rets)%nat ->
        freed_so_far (take j rets) < pages_needed)
  /\ (length rets = (ARRAY_SIZE adj_prio - 1)%nat
      \/ pages_needed <= freed_so_far rets)
  /\ (pages_needed <= 0 -> length rets = 1%nat)
  /\ fst r = to_ulong (freed_so_far rets * PAGE_SIZE P) / SZ_1M P
  /\ (unsent_rss (tasks w) < ULONG_MOD ->
      (forall j : nat, freed_so_far (take j rets) = total (take j rets))
      /\ total rets = footprints (sig_delivered (emitted w (snd r)))).
Proof.
  intros r args rets. subst r args rets.
  destruct (do_lmk_reclaim_scans pages_needed at_stamp w)
    as (evs & -> & Hlen & Hk & Hret & Hargs & Hlt & Hend & Hexact).
  (* the two boost requests are no scans *)
  cbn [scan_args scan_rets sig_delivered]. unfold freed_so_far.
  change (ARRAY_SIZE adj_prio - 1)%nat with 10%nat.
  split; [exact Hlen|]. split; [exact Hk|].
  split; [|split; [|split; [|split; [|split]]]].
  - intros j Hj. rewrite (Hargs j Hj).
    replace (1 + j - 1)%nat with j by lia. reflexivity.
  - exact Hlt.
  - exact Hend.
  - (* a second call would have found the pages freed below [pages_needed] *)
    intros Hzero.
    destruct (decide (length (scan_rets evs) = 1%nat)) as [|Hne];
      [assumption|exfalso].
    specialize (Hlt 1%nat ltac:(lia)).
    pose proof (freed_from_nonneg (take 1 (scan_rets evs)) 0 ltac:(lia)). lia.
  - exact Hret.
  - (* no addition wraps: every prefix sum stays below the pages at hand *)
    intros Hfit. destruct (Hexact Hfit) as (Hnn & Htot & Hle).
    split; [|exact Htot]. intros j.
    pose proof (total_take_le (scan_rets evs) j Hnn).
    rewrite freed_from_exact; [lia|lia|apply Forall_take; exact Hnn|lia].
Qed.

(** C10.  For a positive [pages_needed] (an [unsigned long]), every
    [scan_and_kill] call of [do_lmk_reclaim] is made with the pages freed so
    far strictly below [pages_needed]; the deficit it is passed is the exact
    difference, positive, with no wrap-around. *)
Theorem do_lmk_reclaim_deficit_positive pages_needed at_stamp w :
  0 < pages_needed < ULONG_MOD ->
  let r := do_lmk_reclaim P pages_needed at_stamp w in
  let args := scan_args (emitted w (snd r)) in
  let rets := scan_rets (emitted w (snd r)) in
  forall (j : nat) min_adj max_adj deficit,
    args !! j = Some (min_adj, max_adj, deficit) ->
    0 <= freed_so_far (take j rets) < pages_needed
    /\ deficit = pages_needed - freed_so_far (take j rets)
    /\ 0 < deficit.
Proof.
  intros Hn r args rets j min_adj max_adj deficit. subst r args rets.
  destruct (do_lmk_reclaim_scans pages_needed at_stamp w)
    as (evs & -> & Hlen & Hk & _ & Hargs & Hlt & _ & _).
  cbn [scan_args scan_rets]. unfold freed_so_far. intros Hj.
  assert (j < length (scan_rets evs))%nat as Hjlt.
  { rewrite <- Hlen. eapply lookup_lt_Some. exact Hj. }
  rewrite (Hargs j Hjlt) in Hj. inversion Hj; subst. clear Hj.
  (* nothing freed before the first call; the loop test failed before the
     others *)
  assert (0 <= freed_from 0 (take j (scan_rets evs)) < pages_needed) as Hfreed.
  { split; [apply freed_from_nonneg; lia|].
    destruct j as [|j]; [simpl; lia|]. apply Hlt. lia. }
  split; [exact Hfreed|].
  rewrite to_ulong_small by lia. split; [reflexivity|lia].
Qed.
End ReclaimClaims.

(** ** No task is targeted twice *)

Section NoRetarget.
Variable P : platform.

(** What one [scan_and_kill] does to the process list and whom it
    signals. *)
Lemma scan_and_kill_targets min_adj max_adj pages_needed w :
  let w1 := snd (scan_and_kill P min_adj max_adj pages_needed w) in
  map pid (tasks w1) = map pid (tasks w)
  /\ (forall t, t ∈ tasks w ->
        lmk_sigkill_sent t = true
        \/ test_tsk_thread_flag t (TIF_MEMDIE P) = true ->
        t ∈ tasks w1)
  /\ Forall (fun v => marked P v ∈ tasks w1) (sig_delivered (emitted w w1))
  /\ Forall (fun v => lmk_sigkill_sent v = false
                      /\ test_tsk_thread_flag v (TIF_MEMDIE P) = false)
       (sig_victims (emitted w w1))
  /\ sublist (sig_victims (emitted w w1)) (tasks w)
  /\ sublist (sig_delivered (emitted w w1)) (sig_victims (emitted w w1)).
Proof.
  intros w1.
  destruct (scan_loop P min_adj max_adj pages_needed (current w) (tasks w) 0)
    as [[f ts] evs] eqn:H.
  destruct (scan_and_kill_signals P _ _ _ _ _ _ _ H) as [Hv Hd].
  destruct (scan_and_kill_emitted P _ _ _ _ _ _ _ H) as (_ & Hts & _).
  fold w1 in Hv, Hd, Hts. rewrite Hv, Hd, Hts.
  destruct (scan_loop_victims P _ _ _ _ _ _ _ _ _ H) as [Hsub Hcand].
  destruct (scan_loop_tasks P _ _ _ _ _ _ _ _ _ H) as (Hpid & Hmark & Hkeep).
  split; [exact Hpid|]. split; [exact Hkeep|]. split; [exact Hmark|].
  split; [|split; [exact Hsub|]].
  - eapply Forall_impl; [exact Hcand|]. intros v (Hc & _).
    apply (is_candidate_alive P) in Hc as (Hf & Hm & _). split; assumption.
  - apply sig_delivered_victims.
Qed.

(** A task that carries [lmk_sigkill_sent] or TIF_MEMDIE is not signalled by
    a scan of a list with distinct pids. *)
Lemma scan_and_kill_spares min_adj max_adj pages_needed w t :
  NoDup (map pid (tasks w)) -> t ∈ tasks w ->
  lmk_sigkill_sent t = true \/ test_tsk_thread_flag t (TIF_MEMDIE P) = true ->
  pid t ∉ map pid (sig_victims
                     (emitted w (snd (scan_and_kill P min_adj max_adj
                                        pages_needed w)))).
Proof.
  intros Hnd Ht Hdead Hin.
  destruct (scan_and_kill_targets min_adj max_adj pages_needed w)
    as (_ & _ & _ & Halive & Hsub & _).
  apply list_elem_of_fmap_1 in Hin as [v [Hp Hv]].
  assert (v ∈ tasks w) as Hvw by (eapply elem_of_sublist; eassumption).
  assert (t = v) by (apply (pid_unique (tasks w)); assumption). subst v.
  rewrite Forall_forall in Halive. destruct (Halive _ Hv) as [Hf Hm].
  destruct Hdead; congruence.
Qed.

(** The same over the scans of a whole tier loop, whose bounds overlap at
    the shared boundaries: nobody is killed twice. *)
Lemma tier_loop_targets tbl idx : forall pages_needed pages_freed w,
  NoDup (map pid (tasks w)) ->
  let r := tier_loop P tbl idx pages_needed pages_freed w in
  exists evs,
    trace (snd r) = trace w ++ evs
    /\ NoDup (map pid (sig_delivered evs))
    /\ (forall t, t ∈ tasks w ->
          lmk_sigkill_sent t = true
          \/ test_tsk_thread_flag t (TIF_MEMDIE P) = true ->
          pid t ∉ map pid (sig_victims evs)).
Proof.
  induction idx as [|i idx IH]; intros needed freed w Hnd r; subst r.
  - exists []. simpl. rewrite app_nil_r.
    split; [reflexivity|]. split; [constructor|]. intros t _ _ Hin. inversion Hin.
  - rewrite tier_loop_cons.
    set (r1 := scan_and_kill P (at_index tbl i) (at_index tbl (i - 1))
                 (to_ulong (needed - freed)) w).
    destruct (scan_and_kill_log P (at_index tbl i) (at_index tbl (i - 1))
                (to_ulong (needed - freed)) w) as (evs1 & Ht1 & _).
    destruct (scan_and_kill_targets (at_index tbl i) (at_index tbl (i - 1))
                (to_ulong (needed - freed)) w)
      as (Hpid & Hkeep & Hmark & Halive & Hsub & Hdv).
    pose proof (fun t => scan_and_kill_spares (at_index tbl i)
                  (at_index tbl (i - 1)) (to_ulong (needed - freed)) w t Hnd)
      as Hspare.
    fold r1 in Ht1, Hpid, Hkeep, Hmark, Halive, Hsub, Hdv, Hspare.
    rewrite (emitted_app _ _ _ Ht1) in Hmark, Halive, Hsub, Hdv, Hspare.
    assert (NoDup (map pid (sig_delivered evs1))) as Hnd1.
    { eapply sublist_NoDup; [exact Hnd|]. apply (fmap_sublist pid).
      etransitivity; eassumption. }
    cbv zeta. destruct (to_ulong (freed + fst r1) >=? needed).
    + exists evs1. cbn [snd]. split; [exact Ht1|]. split; [exact Hnd1|].
      exact Hspare.
    + assert (NoDup (map pid (tasks (snd r1)))) as Hndw1
        by (rewrite Hpid; exact Hnd).
      destruct (IH needed (to_ulong (freed + fst r1)) (snd r1) Hndw1)
        as (evs2 & Ht2 & Hnd2 & Hspare2).
      exists (evs1 ++ evs2).
      split; [rewrite Ht2, Ht1, app_assoc; reflexivity|].
      rewrite sig_delivered_app, sig_victims_app. split.
      * (* the killed of this scan are marked, so the later scans pass them *)
        change (map pid (sig_delivered evs1 ++ sig_delivered evs2))
          with (pid <$> (sig_delivered evs1 ++ sig_delivered evs2)).
        rewrite fmap_app. apply NoDup_app. split; [exact Hnd1|].
        split; [|exact Hnd2].
        intros p Hp1 Hp2.
        apply list_elem_of_fmap_1 in Hp1 as [v [-> Hv]].
        rewrite Forall_forall in Hmark.
        apply (Hspare2 (marked P v) (Hmark _ Hv) (or_introl eq_refl)).
        change (pid (marked P v)) with (pid v).
        eapply elem_of_sublist; [exact Hp2|].
        apply (fmap_sublist pid), sig_delivered_victims.
      * intros t Ht Hdead Hin.
        change (map pid (sig_victims evs1 ++ sig_victims evs2))
          with (pid <$> (sig_victims evs1 ++ sig_victims evs2)) in Hin.
        rewrite fmap_app in Hin. apply elem_of_app in Hin as [Hin|Hin].
        -- exact (Hspare t Ht Hdead Hin).
        -- exact (Hspare2 t (Hkeep t Ht Hdead) Hdead Hin).
Qed.

(** C6.  Over a process list with distinct pids: a task already carrying
    [lmk_sigkill_sent] or TIF_MEMDIE is not signalled by a [scan_and_kill]
    call; a task whose signal the call delivers has [lmk_sigkill_sent] set in
    the list the call leaves behind, and the loop body sets it in the very
    iteration that sent the signal; so a second [scan_and_kill], whatever its
    arguments, does not signal that task again, and no call signals one pid
    twice.  The same holds of the scans of a whole pass, whose tiers overlap
    at their shared boundaries: no pid is killed twice in a pass, and a task
    carrying either flag beforehand is not signalled in it. *)
Theorem scan_and_kill_never_retargets w
    (min1 max1 need1 min2 max2 need2 pages_needed at_stamp : Z) :
  NoDup (map pid (tasks w)) ->
  let w1 := snd (scan_and_kill P min1 max1 need1 w) in
  let w2 := snd (scan_and_kill P min2 max2 need2 w1) in
  let wp := snd (do_lmk_reclaim P pages_needed at_stamp w) in
  (forall t, t ∈ tasks w ->
     lmk_sigkill_sent t = true \/ test_tsk_thread_flag t (TIF_MEMDIE P) = true ->
     pid t ∉ map pid (sig_victims (emitted w w1)))
  /\ (forall v, v ∈ sig_delivered (emitted w w1) ->
        exists t', t' ∈ tasks w1 /\ pid t' = pid v
                   /\ lmk_sigkill_sent t' = true)
  /\ (forall cur tsk pages_freed,
        EvSendSigInfo tsk 0
          ∈ iter_events (scan_body P min1 max1 need1 cur tsk pages_freed) ->
        lmk_sigkill_sent
          (tsk_after (scan_body P min1 max1 need1 cur tsk pages_freed)) = true)
  /\ (forall v, v ∈ sig_delivered (emitted w w1) ->
        pid v ∉ map pid (sig_victims (emitted w1 w2)))
  /\ NoDup (map pid (sig_victims (emitted w w1)))
  /\ NoDup (map pid (sig_delivered (emitted w wp)))
  /\ (forall t, t ∈ tasks w ->
        lmk_sigkill_sent t = true
        \/ test_tsk_thread_flag t (TIF_MEMDIE P) = true ->
        pid t ∉ map pid (sig_victims (emitted w wp))).
Proof.
  intros Hnd w1 w2 wp.
  destruct (scan_and_kill_targets min1 max1 need1 w)
    as (Hpid1 & _ & Hmark1 & _ & Hsub1 & _).
  fold w1 in Hpid1, Hmark1, Hsub1.
  assert (NoDup (map pid (tasks w1))) as Hnd1 by (rewrite Hpid1; exact Hnd).
  rewrite Forall_forall in Hmark1.
  split; [|split; [|split; [|split; [|split; [|split]]]]].
  - intros t Ht Hdead. apply scan_and_kill_spares; assumption.
  - intros v Hv. exists (marked P v).
    split; [apply Hmark1; exact Hv|]. split; reflexivity.
  - intros cur tsk pf Hin.
    pose proof (scan_body_cases P min1 max1 need1 cur tsk pf) as Hb.
    remember (scan_body P min1 max1 need1 cur tsk pf) as it eqn:Hit. clear Hit.
    destruct Hb as [|Hc Ha Hr Hs|Hc Ha Hr Hs]; cbn [iter_events tsk_after] in *.
    + inversion Hin.
    + apply list_elem_of_singleton in Hin. congruence.
    + reflexivity.
  - (* the victim's descriptor in [w1] is marked, and the second scan spares
       marked tasks *)
    intros v Hv.
    apply (scan_and_kill_spares min2 max2 need2 w1 (marked P v) Hnd1
             (Hmark1 _ Hv) (or_introl eq_refl)).
  - eapply sublist_NoDup; [exact Hnd|].
    apply (fmap_sublist pid). exact Hsub1.
  - destruct (do_lmk_reclaim_emitted P pages_needed at_stamp w) as (evs & Ht & Hem).
    destruct (kick_boosts_frame P w) as (_ & Htasks & _).
    destruct (tier_loop_targets adj_prio (seq 1 10) pages_needed 0
                (kick_boosts P w)) as (evs' & Ht' & Hnd' & _);
      [rewrite Htasks; exact Hnd|].
    rewrite Ht in Ht'. apply app_inv_head in Ht'. subst evs'.
    unfold wp. rewrite Hem. exact Hnd'.
  - destruct (do_lmk_reclaim_emitted P pages_needed at_stamp w) as (evs & Ht & Hem).
    destruct (kick_boosts_frame P w) as (_ & Htasks & _).
    destruct (tier_loop_targets adj_prio (seq 1 10) pages_needed 0
                (kick_boosts P w)) as (evs' & Ht' & _ & Hspare);
      [rewrite Htasks; exact Hnd|].
    rewrite Ht in Ht'. apply app_inv_head in Ht'. subst evs'.
    unfold wp. rewrite Hem. rewrite Htasks in Hspare. exact Hspare.
Qed.
End NoRetarget.

Section BoostFirst.
Variable P : platform.

Lemma set_tasks_same w : set_tasks (tasks w) w = w.
Proof. destruct w; reflexivity. Qed.

Lemma scan_and_kill_nothing_to_free min_adj max_adj pages_needed w :
  Forall (fun t => is_candidate P (current w) t = true -> get_mm_rss (mm t) = 0)
    (tasks w) ->
  scan_and_kill P min_adj max_adj pages_needed w
    = (0, log [EvScanAndKill min_adj max_adj pages_needed; EvScanReturn 0] w).
Proof.
  intros H. unfold scan_and_kill.
  rewrite (scan_loop_nothing_to_free P _ _ _ _ _ 0 H), set_tasks_same.
  reflexivity.
Qed.

Lemma tier_loop_nothing_to_free tbl idx pages_needed : forall w,
  Forall (fun t => is_candidate P (current w) t = true -> get_mm_rss (mm t) = 0)
    (tasks w) ->
  let r := tier_loop P tbl idx pages_needed 0 w in
  fst r = 0 /\ tasks (snd r) = tasks w
  /\ exists evs, trace (snd r) = trace w ++ evs /\ sig_victims evs = [].
Proof.
  induction idx as [|i idx IH]; intros w H; simpl.
  - repeat split. exists []. rewrite app_nil_r. split; reflexivity.
  - rewrite (scan_and_kill_nothing_to_free _ _ _ _ H).
    change (to_ulong (0 + 0)) with 0.
    destruct (0 >=? pages_needed).
    + simpl. repeat split. eexists. split; reflexivity.
    + set (w1 := log _ w).
      destruct (IH w1 H) as (Hf & Ht & evs & Htr & Hv).
      split; [exact Hf|]. split; [exact Ht|].
      eexists. split; [rewrite Htr; unfold w1; simpl; rewrite <- app_assoc; reflexivity|].
      simpl. exact Hv.
Qed.

(** C7.  Whatever [pages_needed] is, the first two things a pass does are the
    CPU and the DDR-bus boost requests, each for 250 ms, ahead of every scan;
    the CPU request reaches the boost driver; and when no candidate has a
    resident page the pass still makes them, signals nobody, leaves the
    process list alone and returns 0. *)
Theorem do_lmk_reclaim_boosts_first pages_needed at_stamp w :
  let r := do_lmk_reclaim P pages_needed at_stamp w in
  (exists rest,
      emitted w (snd r)
        = EvCpuInputBoostKickMax 250 :: EvDevfreqBoostKickMax 250 :: rest
      /\ Forall (fun e => is_boost_request e = false) rest)
  /\ boost_drv_g (snd r)
     = cpu_input_boost_kick_max P (jiffies w) (boost_drv_g w) 250
  /\ (Forall (fun t => is_candidate P (current w) t = true
                       -> get_mm_rss (mm t) = 0) (tasks w) ->
      fst r = 0 /\ sig_victims (emitted w (snd r)) = []
      /\ tasks (snd r) = tasks w).
Proof.
  intros r. subst r.
  destruct (tier_loop_log P adj_prio 10 1 pages_needed 0 (kick_boosts P w))
    as (evs & Ht & Hb & _).
  destruct (do_lmk_reclaim_emitted P pages_needed at_stamp w) as (evs' & Ht' & Hem).
  rewrite Ht in Ht'. apply app_inv_head in Ht'. subst evs'.
  split; [exists evs; split; [exact Hem|exact Hb]|].
  rewrite Hem, do_lmk_reclaim_unfold. cbv zeta. cbn [fst snd].
  destruct (tier_loop_frame P adj_prio (seq 1 10) pages_needed 0 (kick_boosts P w))
    as (_ & Hboost & _).
  destruct (kick_boosts_frame P w) as (Hctl & Htasks & _ & Hkick).
  split.
  - rewrite (proj2 (proj2 (stamp_frame _ _ _))), Hboost. exact Hkick.
  - intros Hnone.
    assert (Forall (fun t => is_candidate P (current (kick_boosts P w)) t = true
                             -> get_mm_rss (mm t) = 0)
              (tasks (kick_boosts P w))) as Hnone'.
    { rewrite Htasks. destruct Hctl as (_ & -> & _). exact Hnone. }
    destruct (tier_loop_nothing_to_free adj_prio (seq 1 10) pages_needed _ Hnone')
      as (Hf & Hts & evs' & Htr & Hv).
    rewrite Ht in Htr. apply app_inv_head in Htr. subst evs'.
    rewrite Hf. split; [reflexivity|]. split; [simpl; exact Hv|].
    rewrite (proj1 (proj2 (stamp_frame _ _ _))), Hts. exact Htasks.
Qed.
End BoostFirst.

(** ** The trigger entry points *)

Lemma passes_started_app l1 l2 :
  passes_started (l1 ++ l2) = (passes_started l1 + passes_started l2)%nat.
Proof.
  induction l1 as [|e l1 IH]; [reflexivity|].
  destruct e; simpl; rewrite IH; reflexivity.
Qed.

Lemma passes_started_none evs :
  Forall (fun e => is_boost_request e = false) evs -> passes_started evs = O.
Proof.
  induction 1 as [|e evs He _ IH]; [reflexivity|].
  destruct e; simpl in *; try exact IH; discriminate.
Qed.

Lemma unlock_after_lock w :
  reclaim_lock w = false -> set_reclaim_lock false (set_reclaim_lock true w) = w.
Proof. destruct w; simpl; intros ->; reflexivity. Qed.

Section TriggerFacts.
Variable P : platform.

Lemma set_jiffies_same w : set_jiffies (jiffies w) w = w.
Proof. destruct w; reflexivity. Qed.

(** A pass leaves the caller, the lock, the queued work and the flag alone;
    the counter stands at what line 127 read. *)
Lemma do_lmk_reclaim_frame pages_needed at_stamp w :
  jiffies (snd (do_lmk_reclaim P pages_needed at_stamp w)) = at_stamp
  /\ current (snd (do_lmk_reclaim P pages_needed at_stamp w)) = current w
  /\ reclaim_lock (snd (do_lmk_reclaim P pages_needed at_stamp w))
     = reclaim_lock w
  /\ reclaim_work_queued (snd (do_lmk_reclaim P pages_needed at_stamp w))
     = reclaim_work_queued w
  /\ simple_lmk_wq (snd (do_lmk_reclaim P pages_needed at_stamp w))
     = simple_lmk_wq w
  /\ simple_lmk_ready (snd (do_lmk_reclaim P pages_needed at_stamp w))
     = simple_lmk_ready w.
Proof.
  rewrite do_lmk_reclaim_unfold. cbv zeta. cbn [snd].
  destruct (kick_boosts_frame P w) as (Hk & _).
  destruct (tier_loop_frame P adj_prio (seq 1 10) pages_needed 0 (kick_boosts P w))
    as (Ht & _).
  pose proof (same_control_trans _ _ _ Hk Ht) as (_ & Hc & Hl & Hq & Hwq & Hr).
  cbn [set_last_reclaim_jiffies set_jiffies jiffies current reclaim_lock
       reclaim_work_queued simple_lmk_wq simple_lmk_ready].
  tauto.
Qed.

Lemma do_lmk_reclaim_trace pages_needed at_stamp w :
  exists evs,
    trace (snd (do_lmk_reclaim P pages_needed at_stamp w)) = trace w ++ evs
    /\ passes_started evs = 1%nat.
Proof.
  destruct (tier_loop_log P adj_prio 10 1 pages_needed 0 (kick_boosts P w))
    as (evs & Ht & Hb & _).
  rewrite do_lmk_reclaim_unfold. cbv zeta. cbn [snd].
  rewrite (proj1 (stamp_frame _ _ _)).
  rewrite Ht, kick_boosts_trace, <- app_assoc.
  eexists. split; [reflexivity|].
  cbn [app passes_started]. rewrite (passes_started_none _ Hb). reflexivity.
Qed.

(** The time a pass records is the one it reads at its end. *)
Lemma do_lmk_reclaim_stamp pages_needed at_stamp w :
  last_reclaim_jiffies (snd (do_lmk_reclaim P pages_needed at_stamp w))
    = at_stamp.
Proof. rewrite do_lmk_reclaim_unfold. reflexivity. Qed.

(** With the counter standing still, that is the time the pass began. *)
Lemma do_lmk_reclaim_still pages_needed w :
  do_lmk_reclaim P pages_needed (jiffies w) w =
    let t := tier_loop P adj_prio (tier_indices adj_prio) pages_needed 0
               (kick_boosts P w) in
    (to_ulong (fst t * PAGE_SIZE P) / SZ_1M P,
     set_last_reclaim_jiffies (jiffies (snd t)) (snd t)).
Proof.
  unfold do_lmk_reclaim. cbv zeta.
  destruct (kick_boosts_frame P w) as ((Hk & _) & _).
  destruct (tier_loop_frame P adj_prio (tier_indices adj_prio) pages_needed 0
              (kick_boosts P w)) as ((Ht & _) & _).
  destruct (tier_loop P adj_prio (tier_indices adj_prio) pages_needed 0
              (kick_boosts P w)) as [f w3].
  cbn [fst snd] in Ht |- *.
  rewrite <- Hk, <- Ht, set_jiffies_same. reflexivity.
Qed.

Lemma pr_info_freed_frame who mib w :
  same_control w (pr_info_freed who mib w)
  /\ tasks (pr_info_freed who mib w) = tasks w
  /\ last_reclaim_jiffies (pr_info_freed who mib w) = last_reclaim_jiffies w
  /\ exists evs, trace (pr_info_freed who mib w) = trace w ++ evs
                 /\ passes_started evs = O /\ sig_victims evs = [].
Proof.
  unfold pr_info_freed, same_control. destruct (mib =? 0); simpl.
  - repeat split. exists []. rewrite app_nil_r. repeat split.
  - repeat split. eexists. repeat split.
Qed.

(** What [locked_pass] leaves: the lock free again, the flag untouched,
    exactly one pass in the trace, and as the time of the pass the value
    jiffies had when the pass read it last. *)
Lemma locked_pass_effect who at_boost at_stamp w :
  reclaim_lock (locked_pass P who at_boost at_stamp w) = false
  /\ simple_lmk_ready (locked_pass P who at_boost at_stamp w)
     = simple_lmk_ready w
  /\ passes_started (emitted w (locked_pass P who at_boost at_stamp w)) = 1%nat
  /\ last_reclaim_jiffies (locked_pass P who at_boost at_stamp w) = at_stamp.
Proof.
  unfold locked_pass.
  set (w0 := set_jiffies at_boost (set_reclaim_lock true w)).
  pose proof (do_lmk_reclaim_frame (MIN_FREE_PAGES P) at_stamp w0)
    as (_ & _ & _ & _ & _ & Hr).
  pose proof (do_lmk_reclaim_stamp (MIN_FREE_PAGES P) at_stamp w0) as Hl.
  destruct (do_lmk_reclaim_trace (MIN_FREE_PAGES P) at_stamp w0)
    as (evs & Ht & Hp).
  destruct (do_lmk_reclaim P (MIN_FREE_PAGES P) at_stamp w0) as [mib w2].
  cbn [snd] in Hr, Hl, Ht.
  destruct (pr_info_freed_frame who mib (mutex_unlock w2))
    as ((_ & _ & Hlock' & _ & _ & Hr') & _ & Hl' & evs3 & Ht3 & Hp3 & _).
  split; [rewrite Hlock'; reflexivity|].
  split; [rewrite Hr'; exact Hr|].
  split; [|rewrite Hl'; exact Hl].
  rewrite (emitted_app w _ (evs ++ evs3)).
  - rewrite passes_started_app, Hp, Hp3. reflexivity.
  - rewrite Ht3. change (trace (mutex_unlock w2)) with (trace w2).
    rewrite Ht, <- app_assoc. reflexivity.
Qed.

Lemma locked_pass_clock who at_boost at_stamp w :
  jiffies (locked_pass P who at_boost at_stamp w) = at_stamp.
Proof.
  unfold locked_pass.
  set (w0 := set_jiffies at_boost (set_reclaim_lock true w)).
  pose proof (do_lmk_reclaim_frame (MIN_FREE_PAGES P) at_stamp w0) as (Hj & _).
  destruct (do_lmk_reclaim P (MIN_FREE_PAGES P) at_stamp w0) as [mib w2].
  cbn [snd] in Hj.
  destruct (pr_info_freed_frame who mib (mutex_unlock w2)) as ((Hj' & _) & _).
  rewrite Hj'. exact Hj.
Qed.
End TriggerFacts.

Section TriggerClaims.
Variable P : platform.

Lemma force_reclaim_due at_boost at_stamp w :
  simple_lmk_ready w <> 0 -> reclaim_lock w = false ->
  reclaim_due P Oom w = true ->
  simple_lmk_force_reclaim P at_boost at_stamp w
    = locked_pass P Oom at_boost at_stamp w.
Proof.
  intros Hr Hl Hd. unfold simple_lmk_force_reclaim, locked_pass, atomic_read.
  apply Z.eqb_neq in Hr. rewrite Hr, Hl.
  change (reclaim_due P Oom (set_reclaim_lock true w)) with (reclaim_due P Oom w).
  rewrite Hd.
  destruct (do_lmk_reclaim _ _ _ _) as [mib w2]. reflexivity.
Qed.

Lemma force_reclaim_not_due at_boost at_stamp w :
  reclaim_lock w = false -> reclaim_due P Oom w = false ->
  simple_lmk_force_reclaim P at_boost at_stamp w = w.
Proof.
  intros Hl Hd. unfold simple_lmk_force_reclaim, atomic_read.
  destruct (simple_lmk_ready w =? 0); [reflexivity|]. rewrite Hl.
  change (reclaim_due P Oom (set_reclaim_lock true w)) with (reclaim_due P Oom w).
  rewrite Hd. unfold pr_info_freed, mutex_unlock. simpl.
  apply unlock_after_lock. exact Hl.
Qed.

Lemma force_reclaim_locked at_boost at_stamp w :
  reclaim_lock w = true -> simple_lmk_force_reclaim P at_boost at_stamp w = w.
Proof.
  intros Hl. unfold simple_lmk_force_reclaim.
  destruct (atomic_read (simple_lmk_ready w) =? 0); [reflexivity|].
  rewrite Hl. reflexivity.
Qed.

Lemma force_reclaim_unready at_boost at_stamp w :
  simple_lmk_ready w = 0 -> simple_lmk_force_reclaim P at_boost at_stamp w = w.
Proof.
  intros Hr. unfold simple_lmk_force_reclaim, atomic_read. rewrite Hr.
  reflexivity.
Qed.

Lemma run_alone_S n who p w :
  run_alone P (S n) who p w =
    match thread_step P who p w with
    | Next p' w' => run_alone P n who p' w'
    | Sleeps => None
    | Finished => Some w
    end.
Proof. reflexivity. Qed.

(** The two steps that make up the pass, taken with the counter standing
    still, are [do_lmk_reclaim]. *)
Lemma run_alone_pass n who w :
  run_alone P (S (S n)) who InReclaim w =
    run_alone P n who
      (AtUnlock (fst (do_lmk_reclaim P (MIN_FREE_PAGES P) (jiffies w) w)))
      (snd (do_lmk_reclaim P (MIN_FREE_PAGES P) (jiffies w) w)).
Proof.
  rewrite do_lmk_reclaim_still. cbv zeta.
  rewrite run_alone_S. cbn [thread_step].
  destruct (tier_loop _ _ _ _ _ _) as [pages_freed w3].
  rewrite run_alone_S. reflexivity.
Qed.

Lemma pass_under_lock w :
  set_jiffies (jiffies w) (set_reclaim_lock true w) = set_reclaim_lock true w.
Proof. destruct w; reflexivity. Qed.

(** Run with nobody else scheduled and the counter standing still, the
    small-step urgent trigger is the straight-line function. *)
Lemma run_alone_force w :
  run_alone P 8 Oom AtEntry w
    = Some (simple_lmk_force_reclaim P (jiffies w) (jiffies w) w).
Proof.
  unfold simple_lmk_force_reclaim. rewrite run_alone_S. cbn [thread_step].
  destruct (atomic_read (simple_lmk_ready w) =? 0); [reflexivity|].
  rewrite run_alone_S. cbn [thread_step].
  destruct (reclaim_lock w); [reflexivity|].
  rewrite run_alone_S. cbn [thread_step].
  destruct (reclaim_due P Oom (set_reclaim_lock true w)).
  - rewrite run_alone_pass, pass_under_lock.
    change (jiffies (set_reclaim_lock true w)) with (jiffies w).
    destruct (do_lmk_reclaim _ _ _ _) as [mib w2]. reflexivity.
  - reflexivity.
Qed.

Lemma run_alone_work w :
  run_alone P 8 Kswapd AtEntry w
    = simple_lmk_reclaim_work P (jiffies w) (jiffies w) w.
Proof.
  unfold simple_lmk_reclaim_work. rewrite run_alone_S. cbn [thread_step].
  rewrite run_alone_S. cbn [thread_step].
  destruct (reclaim_lock w); [reflexivity|].
  rewrite run_alone_S. cbn [thread_step].
  destruct (reclaim_due P Kswapd (set_reclaim_lock true w)).
  - rewrite run_alone_pass, pass_under_lock.
    change (jiffies (set_reclaim_lock true w)) with (jiffies w).
    destruct (do_lmk_reclaim _ _ _ _) as [mib w2]. reflexivity.
  - reflexivity.
Qed.

Lemma oom_step_never_sleeps p w : thread_step P Oom p w <> Sleeps.
Proof.
  destruct p; cbn [thread_step]; try discriminate.
  - destruct (_ =? _); discriminate.
  - destruct (reclaim_lock w); discriminate.
  - destruct (reclaim_due _ _ _); discriminate.
  - destruct (tier_loop _ _ _ _ _ _); discriminate.
Qed.

(** The gate test against the time elapsed since the last reclaim. *)
Lemma reclaim_due_elapsed who w elapsed :
  jiffies w = to_ulong (last_reclaim_jiffies w + elapsed) ->
  - LONG_MAX - 1 <= elapsed - timeout_of P who <= LONG_MAX ->
  reclaim_due P who w = (timeout_of P who <=? elapsed).
Proof.
  intros Hj Hnear. unfold reclaim_due.
  rewrite Hj, time_after_eq_ulong, time_after_eq_le by lia.
  destruct (Z.leb_spec (last_reclaim_jiffies w + timeout_of P who)
              (last_reclaim_jiffies w + elapsed)),
           (Z.leb_spec (timeout_of P who) elapsed); lia.
Qed.

(** A world whose gate test is made [elapsed] jiffies after a pass read
    jiffies last. *)
Lemma reclaim_due_after_pass who' who at_boost at_stamp w elapsed :
  - LONG_MAX - 1 <= elapsed - timeout_of P who' <= LONG_MAX ->
  reclaim_due P who'
    (set_jiffies (to_ulong (at_stamp + elapsed))
       (locked_pass P who at_boost at_stamp w))
    = (timeout_of P who' <=? elapsed).
Proof.
  intros Hnear. apply reclaim_due_elapsed; [|exact Hnear].
  destruct (locked_pass_effect P who at_boost at_stamp w) as (_ & _ & _ & Hs).
  change (jiffies (set_jiffies ?j ?x)) with j.
  change (last_reclaim_jiffies (set_jiffies ?j ?x))
    with (last_reclaim_jiffies x).
  rewrite Hs. reflexivity.
Qed.

(** C5 (as amended).  [simple_lmk_force_reclaim] has no program point at which
    it waits, and run on its own it returns.  With the lock held it returns
    the world untouched.  With the readiness flag unset it also returns the
    world untouched, lock not even tried.  With the flag set and the lock
    free: if the urgent interval has not elapsed it takes and releases the
    lock and returns with nothing else changed; otherwise it makes exactly one
    reclaim pass and returns with the lock released.  The interval test is
    [LMK_OOM_TIMEOUT <= jiffies elapsed since the last reclaim]; and a second
    call whose test comes sooner than that after the pass read jiffies last
    does nothing.  All of it holds whatever the jiffies counter comes to
    while the call runs. *)
Theorem force_reclaim_never_blocks at_boost at_stamp w :
  (forall p w0, thread_step P Oom p w0 <> Sleeps)
  /\ run_alone P 8 Oom AtEntry w
     = Some (simple_lmk_force_reclaim P (jiffies w) (jiffies w) w)
  /\ (reclaim_lock w = true ->
      simple_lmk_force_reclaim P at_boost at_stamp w = w)
  /\ (simple_lmk_ready w = 0 ->
      simple_lmk_force_reclaim P at_boost at_stamp w = w)
  /\ (simple_lmk_ready w <> 0 -> reclaim_lock w = false ->
      reclaim_due P Oom w = false ->
      simple_lmk_force_reclaim P at_boost at_stamp w = w
      /\ sig_victims
           (emitted w (simple_lmk_force_reclaim P at_boost at_stamp w)) = []
      /\ passes_started
           (emitted w (simple_lmk_force_reclaim P at_boost at_stamp w)) = O)
  /\ (simple_lmk_ready w <> 0 -> reclaim_lock w = false ->
      reclaim_due P Oom w = true ->
      simple_lmk_force_reclaim P at_boost at_stamp w
        = locked_pass P Oom at_boost at_stamp w
      /\ passes_started
           (emitted w (simple_lmk_force_reclaim P at_boost at_stamp w)) = 1%nat
      /\ reclaim_lock (simple_lmk_force_reclaim P at_boost at_stamp w) = false)
  /\ (forall elapsed,
        jiffies w = to_ulong (last_reclaim_jiffies w + elapsed) ->
        - LONG_MAX - 1 <= elapsed - LMK_OOM_TIMEOUT P <= LONG_MAX ->
        reclaim_due P Oom w = (LMK_OOM_TIMEOUT P <=? elapsed))
  /\ (simple_lmk_ready w <> 0 -> reclaim_lock w = false ->
      reclaim_due P Oom w = true ->
      forall elapsed at_boost' at_stamp',
        0 <= elapsed < LMK_OOM_TIMEOUT P -> LMK_OOM_TIMEOUT P <= LONG_MAX ->
        let w1 := set_jiffies (to_ulong (at_stamp + elapsed))
                    (simple_lmk_force_reclaim P at_boost at_stamp w) in
        simple_lmk_force_reclaim P at_boost' at_stamp' w1 = w1).
Proof.
  split; [exact oom_step_never_sleeps|].
  split; [apply run_alone_force|].
  split; [apply force_reclaim_locked|].
  split; [apply force_reclaim_unready|].
  split; [|split; [|split]].
  - intros _ Hl Hd. rewrite (force_reclaim_not_due _ _ w Hl Hd).
    unfold emitted. rewrite drop_all. repeat split.
  - intros Hr Hl Hd. rewrite (force_reclaim_due _ _ w Hr Hl Hd).
    destruct (locked_pass_effect P Oom at_boost at_stamp w)
      as (Hlock & _ & Hp & _).
    repeat split; assumption.
  - intros elapsed. apply (reclaim_due_elapsed Oom).
  - intros Hr Hl Hd elapsed at_boost' at_stamp' Hel Hmax. cbv zeta.
    rewrite (force_reclaim_due _ _ w Hr Hl Hd).
    destruct (locked_pass_effect P Oom at_boost at_stamp w) as (Hlock & _).
    pose proof LONG_MAX_eq as HM.
    apply force_reclaim_not_due; [exact Hlock|].
    rewrite (reclaim_due_after_pass Oom) by (cbn [timeout_of]; lia).
    apply Z.leb_gt. apply Hel.
Qed.

(** C9.  While [simple_lmk_ready] is 0 the three exported entry points return
    the world untouched.  A write to the parameter that finds the flag 0
    stores the workqueue and sets the flag to 1 (or stops in [BUG_ON] when
    the allocation failed); one that finds it set returns 0 and changes
    nothing; the written value plays no part.  No entry point, the periodic
    work included, changes a flag that is set. *)
Theorem readiness_is_write_once at_boost at_stamp w (val : list Z) (wq : Z) :
  (simple_lmk_ready w = 0 ->
     simple_lmk_force_reclaim P at_boost at_stamp w = w
     /\ simple_lmk_start_reclaim P w = w
     /\ simple_lmk_stop_reclaim w = w)
  /\ (simple_lmk_ready w = 0 -> wq <> 0 ->
      simple_lmk_init_set val wq w
        = Some (0, set_simple_lmk_ready 1 (set_simple_lmk_wq wq w)))
  /\ (simple_lmk_ready w = 0 -> wq = 0 -> simple_lmk_init_set val wq w = None)
  /\ (simple_lmk_ready w <> 0 -> simple_lmk_init_set val wq w = Some (0, w))
  /\ (forall val', simple_lmk_init_set val' wq w = simple_lmk_init_set val wq w)
  /\ (simple_lmk_ready w <> 0 ->
      simple_lmk_ready (simple_lmk_force_reclaim P at_boost at_stamp w)
        = simple_lmk_ready w
      /\ simple_lmk_ready (simple_lmk_start_reclaim P w) = simple_lmk_ready w
      /\ simple_lmk_ready (simple_lmk_stop_reclaim w) = simple_lmk_ready w
      /\ (forall w', simple_lmk_reclaim_work P at_boost at_stamp w = Some w' ->
            simple_lmk_ready w' = simple_lmk_ready w)
      /\ (forall ret w', simple_lmk_init_set val wq w = Some (ret, w') ->
            simple_lmk_ready w' = simple_lmk_ready w)).
Proof.
  split; [|split; [|split; [|split; [|split]]]].
  - intros Hr. split; [apply force_reclaim_unready; exact Hr|].
    unfold simple_lmk_start_reclaim, simple_lmk_stop_reclaim, atomic_read.
    rewrite Hr. split; reflexivity.
  - intros Hr Hwq. unfold simple_lmk_init_set, atomic_read. rewrite Hr.
    simpl. apply Z.eqb_neq in Hwq. rewrite Hwq. reflexivity.
  - intros Hr ->. unfold simple_lmk_init_set, atomic_read. rewrite Hr.
    reflexivity.
  - intros Hr. unfold simple_lmk_init_set, atomic_read.
    apply Z.eqb_neq in Hr. rewrite Hr. reflexivity.
  - intros val'. reflexivity.
  - intros Hr. split; [|split; [|split; [|split]]].
    + unfold simple_lmk_force_reclaim.
      destruct (_ =? 0); [reflexivity|].
      destruct (reclaim_lock w) eqn:Hl; [reflexivity|].
      change (reclaim_due P Oom (set_reclaim_lock true w))
        with (reclaim_due P Oom w).
      destruct (reclaim_due P Oom w) eqn:Hd.
      * pose proof (locked_pass_effect P Oom at_boost at_stamp w)
          as (_ & H & _).
        unfold locked_pass in H. exact H.
      * reflexivity.
    + unfold simple_lmk_start_reclaim. destruct (_ =? 0); reflexivity.
    + unfold simple_lmk_stop_reclaim. destruct (_ =? 0); reflexivity.
    + intros w'. unfold simple_lmk_reclaim_work.
      destruct (reclaim_lock w) eqn:Hl; [discriminate|].
      change (reclaim_due P Kswapd (set_reclaim_lock true w))
        with (reclaim_due P Kswapd w).
      destruct (reclaim_due P Kswapd w) eqn:Hd.
      * pose proof (locked_pass_effect P Kswapd at_boost at_stamp w)
          as (_ & H & _).
        unfold locked_pass in H.
        destruct (do_lmk_reclaim _ _ _ _) as [mib w2].
        intros [= <-]. exact H.
      * intros [= <-]. reflexivity.
    + intros ret w'. unfold simple_lmk_init_set, atomic_read.
      apply Z.eqb_neq in Hr. rewrite Hr. intros [= _ <-]. reflexivity.
Qed.
End TriggerClaims.

(** ** Interleavings of the two triggers *)

Lemma count_where_cons f x l :
  count_where f (x :: l) = (Nat.b2n (f x) + count_where f l)%nat.
Proof.
  unfold count_where. rewrite filter_cons.
  destruct (f x); simpl; reflexivity.
Qed.

Lemma count_where_snoc f l x :
  count_where f (l ++ [x]) = (count_where f l + Nat.b2n (f x))%nat.
Proof.
  induction l as [|y l IH]; simpl.
  - rewrite count_where_cons. unfold count_where. simpl. lia.
  - rewrite !count_where_cons, IH. lia.
Qed.

Lemma count_where_insert f l : forall (i : nat) x y,
  l !! i = Some x ->
  (count_where f (<[i := y]> l) + Nat.b2n (f x)
   = count_where f l + Nat.b2n (f y))%nat.
Proof.
  induction l as [|z l IH]; intros i x y H; [discriminate|].
  destruct i as [|i]; simpl in *.
  - inversion H; subst. rewrite !count_where_cons. lia.
  - rewrite !count_where_cons. specialize (IH i x y H). lia.
Qed.

Lemma count_where_two f l : forall (i j : nat) x y,
  l !! i = Some x -> l !! j = Some y -> i <> j ->
  f x = true -> f y = true -> (2 <= count_where f l)%nat.
Proof.
  assert (forall l (k : nat) z, l !! k = Some z -> f z = true ->
            (1 <= count_where f l)%nat) as Hone.
  { clear. induction l as [|a l IH]; intros k z H Hz; [discriminate|].
    rewrite count_where_cons. destruct k as [|k]; simpl in H.
    - inversion H; subst. rewrite Hz. simpl. lia.
    - specialize (IH k z H Hz). lia. }
  induction l as [|a l IH]; intros i j x y Hi Hj Hne Hx Hy; [discriminate|].
  rewrite count_where_cons.
  destruct i as [|i], j as [|j]; simpl in Hi, Hj.
  - congruence.
  - inversion Hi; subst. rewrite Hx. simpl.
    pose proof (Hone l j y Hj Hy). lia.
  - inversion Hj; subst. rewrite Hy. simpl.
    pose proof (Hone l i x Hi Hx). lia.
  - assert (i <> j) by congruence.
    pose proof (IH i j x y Hi Hj H Hx Hy). lia.
Qed.

Lemma count_where_le (f g : trigger * pc -> bool) l :
  (forall t, f t = true -> g t = true) ->
  (count_where f l <= count_where g l)%nat.
Proof.
  intros Hfg. induction l as [|x l IH]; [reflexivity|].
  rewrite !count_where_cons.
  destruct (f x) eqn:Hx; [rewrite (Hfg x Hx)|]; simpl; lia.
Qed.

Lemma in_reclaim_holds_lock t : in_reclaim t = true -> holds_lock t = true.
Proof. destruct t as [who []]; compute; intros H; congruence. Qed.

Section Interleavings.
Variable P : platform.

(** A step either takes the free lock, or gives up the lock it holds, or
    leaves both the lock and its own standing towards it alone. *)
Lemma thread_step_lock who p w p' w' :
  thread_step P who p w = Next p' w' ->
  (holds_lock (who, p) = false /\ holds_lock (who, p') = true
   /\ reclaim_lock w = false /\ reclaim_lock w' = true)
  \/ (holds_lock (who, p) = true /\ holds_lock (who, p') = false
      /\ reclaim_lock w' = false)
  \/ (holds_lock (who, p') = holds_lock (who, p)
      /\ reclaim_lock w' = reclaim_lock w).
Proof.
  destruct p; cbn [thread_step]; intros H.
  - right; right. destruct who; [inversion H; subst; auto|].
    destruct (_ =? _); inversion H; subst; auto.
  - destruct (reclaim_lock w) eqn:Hl.
    + right; right. destruct who; inversion H; subst. auto.
    + left. inversion H; subst. auto.
  - right; right. destruct (reclaim_due _ _ _); inversion H; subst; auto.
  - right; right.
    destruct (kick_boosts_frame P w) as ((_ & _ & Hk & _) & _).
    destruct (tier_loop_frame P adj_prio (tier_indices adj_prio)
                (MIN_FREE_PAGES P) 0 (kick_boosts P w))
      as ((_ & _ & Hl & _) & _).
    destruct (tier_loop _ _ _ _ _ _) as [pages_freed w3]. cbn [snd] in Hl.
    inversion H; subst. split; [reflexivity|congruence].
  - right; right. inversion H; subst. auto.
  - right; left. inversion H; subst. auto.
  - right; right.
    destruct (pr_info_freed_frame who mib_freed w) as ((_ & _ & Hl & _) & _).
    destruct who; inversion H; subst; split; try reflexivity; exact Hl.
  - discriminate.
Qed.

Lemma lock_accounted_step s s' :
  lock_accounted s -> sys_step P s s' -> lock_accounted s'.
Proof.
  unfold lock_accounted. intros Hinv Hstep.
  destruct Hstep as [s i who p p' w' Hi Hs|s who|s i who0 who Hi|s w' Hl];
    cbn [threads shared].
  - pose proof (count_where_insert holds_lock (threads s) i
                  (who, p) (who, p') Hi) as Hc.
    destruct (thread_step_lock _ _ _ _ _ Hs)
      as [(Hp & Hp' & Hw & Hw')|[(Hp & Hp' & Hw')|(Hp' & Hw')]].
    + rewrite Hp, Hp' in Hc. rewrite Hw in Hinv. rewrite Hw'.
      simpl in *. lia.
    + rewrite Hp, Hp' in Hc. rewrite Hw'.
      destruct (reclaim_lock (shared s)); simpl in *; lia.
    + rewrite Hp' in Hc. rewrite Hw'. lia.
  - rewrite count_where_snoc. change (holds_lock (who, AtEntry)) with false.
    simpl. lia.
  - pose proof (count_where_insert holds_lock (threads s) i
                  (who0, AtReturn) (who, AtEntry) Hi) as Hc.
    change (holds_lock (who0, AtReturn)) with false in Hc.
    change (holds_lock (who, AtEntry)) with false in Hc. lia.
  - rewrite Hl. exact Hinv.
Qed.

Lemma lock_accounted_reachable s : reachable P s -> lock_accounted s.
Proof.
  intros (s0 & [Hl Hth] & Hrtc).
  assert (lock_accounted s0) as H0.
  { unfold lock_accounted. rewrite Hl, Hth. reflexivity. }
  clear Hl Hth. induction Hrtc as [|x y z Hxy _ IH]; [exact H0|].
  apply IH. eapply lock_accounted_step; eassumption.
Qed.

(** C1.  In every state the two triggers can reach by interleaving their
    steps in any order, with any number of callers and with the rest of the
    kernel free to change everything but the mutex, at most one thread is
    inside [do_lmk_reclaim]; two threads found there are the same thread; and
    whenever one is there [reclaim_lock] is held. *)
Theorem reclaim_passes_never_overlap s :
  reachable P s ->
  (count_where in_reclaim (threads s) <= 1)%nat
  /\ (forall (i j : nat) ti tj,
        threads s !! i = Some ti -> threads s !! j = Some tj ->
        in_reclaim ti = true -> in_reclaim tj = true -> i = j)
  /\ (forall (i : nat) ti,
        threads s !! i = Some ti -> in_reclaim ti = true ->
        reclaim_lock (shared s) = true).
Proof.
  intros Hreach. apply lock_accounted_reachable in Hreach.
  unfold lock_accounted in Hreach.
  assert (count_where holds_lock (threads s) <= 1)%nat as Hle.
  { rewrite Hreach. destruct (reclaim_lock (shared s)); simpl; lia. }
  split; [|split].
  - etransitivity; [|exact Hle].
    apply count_where_le, in_reclaim_holds_lock.
  - intros i j ti tj Hi Hj Hti Htj.
    destruct (decide (i = j)) as [|Hne]; [assumption|exfalso].
    pose proof (count_where_two holds_lock (threads s) i j ti tj Hi Hj Hne
                  (in_reclaim_holds_lock _ Hti) (in_reclaim_holds_lock _ Htj)).
    lia.
  - intros i ti Hi Hti.
    destruct (reclaim_lock (shared s)); [reflexivity|exfalso].
    assert (1 <= count_where holds_lock (threads s))%nat; [|simpl in *; lia].
    clear Hreach Hle. revert i Hi.
    induction (threads s) as [|x l IH]; intros i Hi; [discriminate|].
    rewrite count_where_cons. destruct i as [|i]; simpl in Hi.
    + inversion Hi; subst. rewrite (in_reclaim_holds_lock _ Hti). simpl. lia.
    + specialize (IH i Hi). lia.
Qed.
End Interleavings.

(** * The properties on the sample platform *)

(** C8 on the sample platform, for a 100 ms and a 250 ms request at jiffies
    1000: on a driver nobody has kicked the later expiry, 1025, is left in
    either order; behind a boost pending until 1200 that one stays. *)
Lemma max_boost_expiry_sample :
  (new_expires_of sample_platform 1000 100 = 1010
   /\ new_expires_of sample_platform 1000 250 = 1025
   /\ curr_expires_of sample_boost_drv = 0
   /\ curr_expires_of sample_boost_drv_pending = 1200)
  /\ (curr_expires_of
        (kick_max sample_platform 1000 250
           (kick_max sample_platform 1000 100 sample_boost_drv)) = 1025
      /\ curr_expires_of
           (kick_max sample_platform 1000 100
              (kick_max sample_platform 1000 250 sample_boost_drv)) = 1025)
  /\ (curr_expires_of
        (kick_max sample_platform 1000 250
           (kick_max sample_platform 1000 100 sample_boost_drv_pending)) = 1200
      /\ curr_expires_of
           (kick_max sample_platform 1000 100
              (kick_max sample_platform 1000 250 sample_boost_drv_pending))
         = 1200).
Proof.
  split; [repeat split|].
  pose proof (max_boost_expiry_is_set_if_greater sample_platform)
    as (_ & _ & Hlate & Hmax & _).
  split.
  - apply (Hlate 1000 100 1000 250 sample_boost_drv); vm_compute; congruence.
  - apply (Hmax 1000 100 1000 250 sample_boost_drv_pending).
    vm_compute. congruence.
Defined.

(** C3: the amended statement holds of [adj_prio]. *)
Lemma adj_prio_tiers_cover_and_meet :
  descending adj_prio = true
  /\ (exists i : nat, (1 <= i < ARRAY_SIZE adj_prio)%nat
                      /\ accepts adj_prio i 850 = true)
  /\ (forall s (i j : nat), (1 <= i < j)%nat -> (j < ARRAY_SIZE adj_prio)%nat ->
        accepts adj_prio i s = true -> accepts adj_prio j s = true ->
        j = S i /\ s = at_index adj_prio i).
Proof.
  split; [reflexivity|].
  pose proof (tiers_cover_and_meet_at_bounds adj_prio eq_refl)
    as (_ & Hcover & Hmeet & _).
  split; [|exact Hmeet].
  apply Hcover; unfold ARRAY_SIZE, at_index; simpl; lia.
Defined.

(** C3 as stated fails: the score 900 lies in the covered range 0..906 and
    passes the test of tier 1 (900..906) and of tier 2 (800..900). *)
Lemma adj_prio_boundary_in_two_tiers :
  0 <= 900 <= 906
  /\ accepts adj_prio 1 900 = true
  /\ accepts adj_prio 2 900 = true
  /\ accepting_tiers adj_prio 900 = [1%nat; 2%nat]
  /\ length (accepting_tiers adj_prio 900) <> 1%nat.
Proof. repeat split; try reflexivity; try lia. discriminate. Qed.

(** C5 as stated fails: before activation, with the lock free and the urgent
    interval long elapsed, the call returns the world as it found it, and
    that is not a reclaim pass. *)
Lemma force_reclaim_before_activation :
  reclaim_lock sample_world_unready = false
  /\ reclaim_due sample_platform Oom sample_world_unready = true
  /\ simple_lmk_force_reclaim sample_platform 1001 1003 sample_world_unready
     = sample_world_unready
  /\ passes_started
       (emitted sample_world_unready
          (simple_lmk_force_reclaim sample_platform 1001 1003 sample_world_unready)) = O
  /\ simple_lmk_force_reclaim sample_platform 1001 1003 sample_world_unready
     <> locked_pass sample_platform Oom 1001 1003 sample_world_unready.
Proof.
  repeat split; try reflexivity.
  intros H. apply (f_equal last_reclaim_jiffies) in H. vm_compute in H.
  discriminate.
Qed.

(** C5: the amended statement, on the activated sample world where the
    interval has elapsed. *)
Lemma force_reclaim_sample :
  (simple_lmk_ready sample_world <> 0 /\ reclaim_lock sample_world = false
   /\ reclaim_due sample_platform Oom sample_world = true)
  /\ simple_lmk_force_reclaim sample_platform 1001 1003 sample_world
     = locked_pass sample_platform Oom 1001 1003 sample_world
  /\ passes_started
       (emitted sample_world
          (simple_lmk_force_reclaim sample_platform 1001 1003 sample_world)) = 1%nat
  /\ reclaim_lock (simple_lmk_force_reclaim sample_platform 1001 1003 sample_world)
     = false.
Proof.
  split; [repeat split; [discriminate|reflexivity..]|].
  apply (proj1 (proj2 (proj2 (proj2 (proj2 (proj2
           (force_reclaim_never_blocks sample_platform 1001 1003 sample_world)))))));
    [discriminate|reflexivity..].
Defined.

(** C1 on the sample system.  It is reached by: the urgent trigger is
    called, the periodic work starts, the urgent caller passes the readiness
    test, takes the lock, finds the interval elapsed and enters the pass, and
    the worker arrives at its [mutex_lock].  One thread is inside the pass,
    the worker is not, and the worker's next step is to sleep on the mutex. *)
Lemma reclaim_passes_sample :
  reachable sample_platform sample_system
  /\ (count_where in_reclaim (threads sample_system) <= 1)%nat
  /\ thread_step sample_platform Kswapd AtLock (shared sample_system) = Sleeps.
Proof.
  assert (reachable sample_platform sample_system) as Hreach.
  { exists {| shared := sample_world; threads := [] |}.
    split; [split; reflexivity|].
    eapply rtc_l; [apply (StepCall sample_platform _ Oom)|].
    eapply rtc_l; [apply (StepCall sample_platform _ Kswapd)|].
    eapply rtc_l;
      [eapply (StepThread sample_platform _ 0%nat Oom AtEntry); reflexivity|].
    eapply rtc_l;
      [eapply (StepThread sample_platform _ 0%nat Oom AtLock); reflexivity|].
    eapply rtc_l;
      [eapply (StepThread sample_platform _ 0%nat Oom AtGate); reflexivity|].
    eapply rtc_l;
      [eapply (StepThread sample_platform _ 1%nat Kswapd AtEntry); reflexivity|].
    apply rtc_refl. }
  split; [exact Hreach|].
  split; [|reflexivity].
  exact (proj1 (reclaim_passes_never_overlap sample_platform sample_system
                  Hreach)).
Defined.

(** C4 on the sample world: the scan of tier 2 asked for 30000 pages signals
    pids 10, 12 and 13; pid 13 is gone, and only the 5000 and 20000 pages of
    the other two are returned. *)
Lemma scan_and_kill_total_sample :
  do_send_sig_info sample_platform (sample_task 13 850 7000) <> 0
  /\ fst (scan_and_kill sample_platform 800 900 30000 sample_world) = 25000
  /\ map pid (sig_victims
       (emitted sample_world
          (snd (scan_and_kill sample_platform 800 900 30000 sample_world))))
     = [10; 12; 13]
  /\ freed_after
       (scan_body sample_platform 800 900 30000 (current sample_world)
          (sample_task 13 850 7000) 25000) = 25000.
Proof.
  split; [discriminate|]. split; [reflexivity|]. split; [reflexivity|].
  apply (proj1 (proj2 (proj2 (proj2
           (scan_and_kill_total_within_delivered sample_platform
              800 900 30000 sample_world))))).
  discriminate.
Defined.

(** C6 on the sample world: tier 1 then tier 2. *)
Lemma scan_and_kill_never_retargets_sample :
  NoDup (map pid (tasks sample_world))
  /\ (let w1 := snd (scan_and_kill sample_platform 900 906 16384 sample_world) in
      let w2 := snd (scan_and_kill sample_platform 800 900 8384 w1) in
      map pid (sig_delivered (emitted sample_world w1)) = [10; 11]
      /\ map pid (sig_victims (emitted w1 w2)) = [12]
      /\ forall v, v ∈ sig_delivered (emitted sample_world w1) ->
           pid v ∉ map pid (sig_victims (emitted w1 w2))).
Proof.
  assert (NoDup (map pid (tasks sample_world))) as Hnd.
  { apply (bool_decide_unpack _). vm_compute. exact I. }
  split; [exact Hnd|]. intros w1 w2.
  split; [reflexivity|]. split; [reflexivity|].
  exact (proj1 (proj2 (proj2 (proj2
           (scan_and_kill_never_retargets sample_platform sample_world
              900 906 16384 800 900 8384 16384 1003 Hnd))))).
Defined.

(** C7 on the idle sample world. *)
Lemma do_lmk_reclaim_boosts_first_sample :
  Forall (fun t => is_candidate sample_platform (current sample_world_idle) t
                     = true -> get_mm_rss (mm t) = 0)
    (tasks sample_world_idle)
  /\ fst (do_lmk_reclaim sample_platform 16384 1003 sample_world_idle) = 0
  /\ sig_victims
       (emitted sample_world_idle
          (snd (do_lmk_reclaim sample_platform 16384 1003 sample_world_idle))) = []
  /\ take 2 (emitted sample_world_idle
               (snd (do_lmk_reclaim sample_platform 16384 1003 sample_world_idle)))
     = [EvCpuInputBoostKickMax 250; EvDevfreqBoostKickMax 250].
Proof.
  assert (Forall (fun t => is_candidate sample_platform
                             (current sample_world_idle) t = true
                           -> get_mm_rss (mm t) = 0)
            (tasks sample_world_idle)) as Hidle.
  { repeat constructor; intros H; try reflexivity; discriminate H. }
  split; [exact Hidle|].
  destruct (proj2 (proj2 (do_lmk_reclaim_boosts_first sample_platform 16384 1003
                            sample_world_idle)) Hidle) as (H0 & Hv & _).
  split; [exact H0|]. split; [exact Hv|]. reflexivity.
Defined.

(** C9 on the sample world before activation: the three entry points do
    nothing, the first write activates, the second changes nothing. *)
Lemma readiness_sample :
  simple_lmk_ready sample_world_unready = 0
  /\ simple_lmk_force_reclaim sample_platform 1001 1003 sample_world_unready
     = sample_world_unready
  /\ simple_lmk_start_reclaim sample_platform sample_world_unready
     = sample_world_unready
  /\ simple_lmk_stop_reclaim sample_world_unready = sample_world_unready
  /\ simple_lmk_init_set [49; 10] 4096 sample_world_unready
     = Some (0, sample_world)
  /\ simple_lmk_init_set [50; 10] 8192 sample_world = Some (0, sample_world).
Proof.
  split; [reflexivity|].
  destruct (proj1 (readiness_is_write_once sample_platform 1001 1003
                     sample_world_unready [49; 10] 4096) eq_refl)
    as (Hf & Hs & Hc).
  split; [exact Hf|]. split; [exact Hs|]. split; [exact Hc|].
  split; reflexivity.
Defined.

(** C2 as stated fails: asked for 0 pages, a pass has met its target before
    a tier is scanned, and still it scans tier 1, where it kills pid 10 with
    its 5000 pages, and returns 19 MiB. *)
Lemma do_lmk_reclaim_scans_when_nothing_is_needed :
  let r := do_lmk_reclaim sample_platform 0 1003 sample_world in
  let rets := scan_rets (emitted sample_world (snd r)) in
  0 <= freed_so_far (take 0 rets)
  /\ scan_args (emitted sample_world (snd r)) = [(900, 906, 0)]
  /\ rets = [5000]
  /\ map pid (sig_delivered (emitted sample_world (snd r))) = [10]
  /\ fst r = 19
  /\ scan_args (emitted sample_world (snd r)) <> [].
Proof. repeat split; try reflexivity; discriminate. Qed.

(** C2, as amended, on the sample world: a pass asked for 16384 pages scans
    tier 1 for 8000 pages and tier 2 for 20000 and stops; nothing wraps. *)
Lemma do_lmk_reclaim_walks_tiers_sample :
  unsent_rss (tasks sample_world) < ULONG_MOD
  /\ (let r := do_lmk_reclaim sample_platform 16384 1003 sample_world in
      scan_args (emitted sample_world (snd r))
        = [(900, 906, 16384); (800, 900, 8384)]
      /\ scan_rets (emitted sample_world (snd r)) = [8000; 20000]
      /\ total (scan_rets (emitted sample_world (snd r)))
         = footprints (sig_delivered (emitted sample_world (snd r)))).
Proof.
  assert (unsent_rss (tasks sample_world) < ULONG_MOD) as Hfit by reflexivity.
  split; [exact Hfit|]. intros r. split; [reflexivity|]. split; [reflexivity|].
  destruct (do_lmk_reclaim_walks_tiers sample_platform 16384 1003 sample_world)
    as (_ & _ & _ & _ & _ & _ & _ & Hexact).
  exact (proj2 (Hexact Hfit)).
Defined.

(** C10 on the sample world: the second scan of a pass asked for 16384 pages
    is passed 16384 - 8000. *)
Lemma do_lmk_reclaim_deficit_sample :
  0 < 16384 < ULONG_MOD
  /\ (let r := do_lmk_reclaim sample_platform 16384 1003 sample_world in
      scan_args (emitted sample_world (snd r)) !! 1%nat = Some (800, 900, 8384)
      /\ 0 <= freed_so_far (take 1 (scan_rets (emitted sample_world (snd r))))
           < 16384
      /\ 8384 = 16384
                - freed_so_far (take 1 (scan_rets (emitted sample_world (snd r))))
      /\ 0 < 8384).
Proof.
  assert (0 < 16384 < ULONG_MOD) as Hn by (split; reflexivity).
  split; [exact Hn|]. intros r. split; [reflexivity|].
  exact (do_lmk_reclaim_deficit_positive sample_platform 16384 1003 sample_world Hn
           1%nat 800 900 8384 eq_refl).
Defined.

(** * Further properties of the reclaim engine *)

(** ** What a scan signals, and what it leaves *)

Section ScanTargets.
Variable P : platform.
Variables (min_adj max_adj pages_needed : Z) (cur : task_struct).

Local Abbreviation loop := (scan_loop P min_adj max_adj pages_needed cur).
Local Abbreviation body := (scan_body P min_adj max_adj pages_needed cur).
Local Abbreviation target := (is_target P min_adj max_adj cur).

Lemma is_target_spec t :
  target t = true <->
  is_candidate P cur t = true
  /\ adj_outside min_adj max_adj (oom_score_adj (signal t)) = false
  /\ get_mm_rss (mm t) <> 0.
Proof.
  unfold is_target.
  rewrite !andb_true_iff, !negb_true_iff, Z.eqb_neq. tauto.
Qed.

Lemma marked_no_target t : target (marked P t) = false.
Proof.
  unfold is_target, is_candidate, find_lock_task_mm, marked. simpl.
  destruct (mm t); simpl; rewrite ?andb_false_r; reflexivity.
Qed.

(** The body passes over whatever is no target, and signals every target. *)
Lemma scan_body_no_target tsk pages_freed :
  target tsk = false ->
  body tsk pages_freed
    = {| ctl := LoopContinue; tsk_after := tsk;
         freed_after := pages_freed; iter_events := [] |}.
Proof.
  unfold is_target, is_candidate, scan_body. intros H.
  destruct (same_thread_group tsk cur
            || negb (Z.land (flags tsk) (PF_KTHREAD P) =? 0)); [reflexivity|].
  unfold find_lock_task_mm in *. destruct (mm tsk) as [m|] eqn:Hm; [|reflexivity].
  destruct (lmk_sigkill_sent tsk || test_tsk_thread_flag tsk (TIF_MEMDIE P));
    [reflexivity|].
  destruct (adj_outside min_adj max_adj (oom_score_adj (signal tsk)));
    [reflexivity|].
  rewrite Hm. destruct (get_mm_rss (Some m) =? 0); [reflexivity|discriminate].
Qed.

Lemma scan_body_target tsk pages_freed :
  target tsk = true ->
  body tsk pages_freed
    = if do_send_sig_info P tsk =? 0
      then {| ctl := if to_ulong (pages_freed + get_mm_rss (mm tsk))
                          >=? pages_needed
                     then LoopBreak else LoopContinue;
              tsk_after := marked P tsk;
              freed_after := to_ulong (pages_freed + get_mm_rss (mm tsk));
              iter_events := [EvSendSigInfo tsk 0] |}
      else {| ctl := LoopContinue; tsk_after := tsk;
              freed_after := pages_freed;
              iter_events := [EvSendSigInfo tsk (do_send_sig_info P tsk)] |}.
Proof.
  unfold is_target, is_candidate, scan_body, marked. intros H.
  destruct (same_thread_group tsk cur
            || negb (Z.land (flags tsk) (PF_KTHREAD P) =? 0)); [discriminate|].
  unfold find_lock_task_mm in *. destruct (mm tsk) as [m|] eqn:Hm; [|discriminate].
  destruct (lmk_sigkill_sent tsk || test_tsk_thread_flag tsk (TIF_MEMDIE P));
    [discriminate|].
  destruct (adj_outside min_adj max_adj (oom_score_adj (signal tsk)));
    [discriminate|].
  rewrite Hm in *. destruct (get_mm_rss (Some m) =? 0); [discriminate|].
  destruct (do_send_sig_info P tsk =? 0) eqn:Hs; simpl; [|reflexivity].
  apply Z.eqb_eq in Hs. rewrite Hs. reflexivity.
Qed.

(** Stepping the loop on whether the head is a target and whether its signal
    is delivered. *)
Ltac walk_head tsk pf H :=
  rewrite scan_loop_cons in H;
  let Ht := fresh "Ht" in
  let Hs := fresh "Hs" in
  destruct (target tsk) eqn:Ht;
  [rewrite (scan_body_target tsk pf Ht) in H;
   destruct (do_send_sig_info P tsk =? 0) eqn:Hs;
   cbn [ctl tsk_after freed_after iter_events] in H
  |rewrite (scan_body_no_target tsk pf Ht) in H;
   cbn [ctl tsk_after freed_after iter_events] in H].

(** Descriptor by descriptor: a walk leaves a task as it was, or marked when
    its signal was delivered. *)
Lemma scan_loop_marks todo : forall pages_freed f ts evs,
  loop todo pages_freed = (f, ts, evs) ->
  Forall2 (fun t t' => t' = t \/ (t' = marked P t /\ t ∈ sig_delivered evs))
    todo ts.
Proof.
  induction todo as [|tsk rest IH]; intros pf f ts evs H.
  - simpl in H. inversion H; subst. constructor.
  - walk_head tsk pf H.
    + destruct (to_ulong (pf + get_mm_rss (mm tsk)) >=? pages_needed).
      * inversion H; subst. constructor.
        -- right. split; [reflexivity|]. simpl. left.
        -- apply Forall2_same_length_lookup_2; [reflexivity|].
           intros i x y Hx Hy. left. congruence.
      * destruct (loop rest _) as [[f' ts'] evs'] eqn:E. inversion H; subst.
        constructor.
        -- right. split; [reflexivity|]. simpl. left.
        -- eapply Forall2_impl; [exact (IH _ _ _ _ E)|].
           intros t t' [->|[-> Hin]]; [left; reflexivity|right].
           split; [reflexivity|]. simpl. right. exact Hin.
    + destruct (loop rest pf) as [[f' ts'] evs'] eqn:E. inversion H; subst.
      constructor; [left; reflexivity|].
      simpl. rewrite Hs. exact (IH _ _ _ _ E).
    + destruct (loop rest pf) as [[f' ts'] evs'] eqn:E. inversion H; subst.
      constructor; [left; reflexivity|]. exact (IH _ _ _ _ E).
Qed.

(** A walk that comes back short of [pages_needed] never broke off: it
    signalled every target, and none it leaves behind could be signalled. *)
Lemma scan_loop_short todo : forall pages_freed f ts evs,
  loop todo pages_freed = (f, ts, evs) -> f < pages_needed ->
  Forall (fun t => target t = true ->
                   t ∈ sig_victims evs
                   /\ (do_send_sig_info P t = 0 -> t ∈ sig_delivered evs)) todo
  /\ Forall (fun t' => target t' = true -> do_send_sig_info P t' <> 0) ts.
Proof.
  induction todo as [|tsk rest IH]; intros pf f ts evs H Hshort.
  - simpl in H. inversion H; subst. split; constructor.
  - walk_head tsk pf H.
    + destruct (to_ulong (pf + get_mm_rss (mm tsk)) >=? pages_needed) eqn:Hb.
      * inversion H; subst. apply Z.geb_le in Hb. lia.
      * destruct (loop rest _) as [[f' ts'] evs'] eqn:E. inversion H; subst.
        destruct (IH _ _ _ _ E Hshort) as [Hall Hleft]. split.
        -- constructor.
           ++ intros _. simpl. split; [left|intros _; left].
           ++ eapply Forall_impl; [exact Hall|]. intros t Hin Htt.
              destruct (Hin Htt) as [Hv Hd]. simpl.
              split; [right; exact Hv|intros H0; right; exact (Hd H0)].
        -- constructor; [|exact Hleft].
           rewrite marked_no_target. discriminate.
    + destruct (loop rest pf) as [[f' ts'] evs'] eqn:E. inversion H; subst.
      destruct (IH _ _ _ _ E Hshort) as [Hall Hleft].
      apply Z.eqb_neq in Hs as Hs'. split.
      * constructor.
        -- intros _. simpl. split; [left|intros H0; contradiction].
        -- eapply Forall_impl; [exact Hall|]. intros t Hin Htt.
           destruct (Hin Htt) as [Hv Hd]. simpl. rewrite Hs.
           split; [right; exact Hv|exact Hd].
      * constructor; [intros _; exact Hs'|exact Hleft].
    + destruct (loop rest pf) as [[f' ts'] evs'] eqn:E. inversion H; subst.
      destruct (IH _ _ _ _ E Hshort) as [Hall Hleft]. split.
      * constructor; [congruence|exact Hall].
      * constructor; [congruence|exact Hleft].
Qed.

(** With no addition wrapping, the pages accounted before each later victim
    are short of [pages_needed]: the walk stops with the kill that reaches
    it. *)
Lemma scan_loop_stops todo : forall pages_freed f ts evs,
  loop todo pages_freed = (f, ts, evs) ->
  0 <= pages_freed -> pages_freed + unsent_rss todo < ULONG_MOD ->
  forall k : nat, (1 <= k < length (sig_delivered evs))%nat ->
    pages_freed + footprints (take k (sig_delivered evs)) < pages_needed.
Proof.
  induction todo as [|tsk rest IH]; intros pf f ts evs H Hpf Hfit k Hk.
  - simpl in H. inversion H; subst. simpl in Hk. lia.
  - pose proof (unsent_rss_nonneg rest) as Hrest.
    pose proof (get_mm_rss_nonneg (mm tsk)) as Hrss.
    walk_head tsk pf H.
    + apply is_target_spec in Ht as (Hc & _ & _).
      apply (is_candidate_alive P) in Hc as (Hflag & _).
      cbn [unsent_rss] in Hfit. rewrite Hflag in Hfit.
      rewrite (to_ulong_small (pf + get_mm_rss (mm tsk))) in H by lia.
      destruct (pf + get_mm_rss (mm tsk) >=? pages_needed) eqn:Hb.
      * inversion H; subst. simpl in Hk. lia.
      * destruct (loop rest _) as [[f' ts'] evs'] eqn:E. inversion H; subst.
        rewrite Z.geb_leb in Hb. apply Z.leb_gt in Hb.
        simpl in Hk |- *. destruct k as [|k]; [lia|]. simpl.
        destruct k as [|k]; [simpl; lia|].
        specialize (IH _ _ _ _ E ltac:(lia) ltac:(lia) (S k) ltac:(lia)).
        lia.
    + destruct (loop rest pf) as [[f' ts'] evs'] eqn:E. inversion H; subst.
      simpl in Hk |- *. rewrite Hs in Hk |- *.
      apply (IH _ _ _ _ E Hpf); [|exact Hk].
      cbn [unsent_rss] in Hfit. destruct (lmk_sigkill_sent tsk); lia.
    + destruct (loop rest pf) as [[f' ts'] evs'] eqn:E. inversion H; subst.
      apply (IH _ _ _ _ E Hpf); [|exact Hk].
      cbn [unsent_rss] in Hfit. destruct (lmk_sigkill_sent tsk); lia.
Qed.
End ScanTargets.

Section ScanExtras.
Variable P : platform.

(** X1.  Whoever [scan_and_kill] sends a signal is a process of the list it
    walked, outside the caller's thread group, no kthread, with a memory
    context, a score inside [min_adj, max_adj] and at least one resident
    page. *)
Theorem scan_and_kill_signals_only_targets min_adj max_adj pages_needed w :
  let w' := snd (scan_and_kill P min_adj max_adj pages_needed w) in
  forall v, v ∈ sig_victims (emitted w w') ->
    v ∈ tasks w
    /\ same_thread_group v (current w) = false
    /\ Z.land (flags v) (PF_KTHREAD P) = 0
    /\ mm v <> None
    /\ min_adj <= oom_score_adj (signal v) <= max_adj
    /\ get_mm_rss (mm v) <> 0.
Proof.
  intros w' v Hv. subst w'.
  destruct (scan_loop P min_adj max_adj pages_needed (current w) (tasks w) 0)
    as [[f ts] evs] eqn:H.
  destruct (scan_and_kill_signals P _ _ _ _ _ _ _ H) as [Hsv _].
  rewrite Hsv in Hv.
  destruct (scan_loop_victims P _ _ _ _ _ _ _ _ _ H) as [Hsub Hall].
  rewrite Forall_forall in Hall. destruct (Hall v Hv) as (Hc & Ha & Hr).
  apply (is_candidate_alive P) in Hc as (_ & _ & Hself & Hk & Hmm).
  split; [eapply elem_of_sublist; eassumption|].
  split; [exact Hself|]. split; [exact Hk|]. split; [exact Hmm|].
  split; [|exact Hr].
  unfold adj_outside in Ha. apply orb_false_iff in Ha as [Hlo Hhi].
  apply Z.ltb_ge in Hlo. rewrite Z.gtb_ltb in Hhi. apply Z.ltb_ge in Hhi. lia.
Qed.


(** X3.  A [scan_and_kill] that returns less than it was asked for has walked
    the whole list: every target in it was sent the signal, delivered wherever
    it could be, and no target that could be signalled is left. *)
Theorem scan_and_kill_short_scan_is_exhaustive min_adj max_adj pages_needed w :
  let r := scan_and_kill P min_adj max_adj pages_needed w in
  fst r < pages_needed ->
  (forall t, t ∈ tasks w ->
     is_target P min_adj max_adj (current w) t = true ->
     t ∈ sig_victims (emitted w (snd r))
     /\ (do_send_sig_info P t = 0 -> t ∈ sig_delivered (emitted w (snd r))))
  /\ (forall t', t' ∈ tasks (snd r) ->
        is_target P min_adj max_adj (current w) t' = true ->
        do_send_sig_info P t' <> 0).
Proof.
  intros r Hshort. subst r.
  destruct (scan_loop P min_adj max_adj pages_needed (current w) (tasks w) 0)
    as [[f ts] evs] eqn:H.
  destruct (scan_and_kill_signals P _ _ _ _ _ _ _ H) as [-> ->].
  destruct (scan_and_kill_emitted P _ _ _ _ _ _ _ H) as (_ & Hts & Hf).
  rewrite Hts. rewrite Hf in Hshort.
  destruct (scan_loop_short P _ _ _ _ _ _ _ _ _ H Hshort) as [Hall Hleft].
  rewrite Forall_forall in Hall, Hleft. split.
  - intros t Ht. apply Hall. exact Ht.
  - intros t' Ht'. apply Hleft. exact Ht'.
Qed.

(** X4.  While the pages of the tasks not yet killed fit an [unsigned long],
    [scan_and_kill] delivers no signal beyond the one that brings its total up
    to [pages_needed]: the victims up to any one that is not the last hold
    fewer pages than that.  So for a positive [pages_needed] the total less
    the last victim's footprint is below [pages_needed]; and for
    [pages_needed] = 0, where the test after the first kill succeeds at
    once, at most one signal is delivered. *)
Theorem scan_and_kill_stops_at_the_target min_adj max_adj pages_needed w :
  unsent_rss (tasks w) < ULONG_MOD ->
  let r := scan_and_kill P min_adj max_adj pages_needed w in
  let delivered := sig_delivered (emitted w (snd r)) in
  (forall k : nat, (1 <= k < length delivered)%nat ->
     footprints (take k delivered) < pages_needed)
  /\ (forall l v, delivered = l ++ [v] -> 0 < pages_needed ->
        fst r - get_mm_rss (mm v) < pages_needed)
  /\ (pages_needed <= 0 -> (length delivered <= 1)%nat).
Proof.
  intros Hfit r delivered. subst r delivered.
  destruct (scan_and_kill_exact P min_adj max_adj pages_needed w)
    as (_ & Hexact & _).
  specialize (Hexact Hfit). cbv zeta in Hexact. rewrite Hexact. clear Hexact.
  destruct (scan_loop P min_adj max_adj pages_needed (current w) (tasks w) 0)
    as [[f ts] evs] eqn:H.
  destruct (scan_and_kill_signals P _ _ _ _ _ _ _ H) as [_ ->].
  pose proof (scan_loop_stops P _ _ _ _ _ _ _ _ _ H (Z.le_refl 0)) as Hstop.
  rewrite Z.add_0_l in Hstop. specialize (Hstop Hfit).
  assert (forall l1 l2, footprints (l1 ++ l2) = footprints l1 + footprints l2)
    as Happ.
  { clear. induction l1 as [|x l1 IH]; intros l2; simpl;
      [reflexivity|rewrite IH; lia]. }
  split; [|split].
  - intros k Hk. specialize (Hstop k Hk). lia.
  - intros l v Hl Hpos. rewrite Hl, Happ. simpl.
    destruct l as [|x l]; [simpl; lia|].
    specialize (Hstop (length (x :: l))). rewrite Hl in Hstop.
    rewrite length_app, take_app_length in Hstop. simpl in Hstop.
    specialize (Hstop ltac:(lia)). simpl. lia.
  - intros Hzero.
    destruct (sig_delivered evs) as [|a [|b l]] eqn:Hd; simpl; try lia.
    specialize (Hstop 1%nat). simpl in Hstop. specialize (Hstop ltac:(lia)).
    pose proof (get_mm_rss_nonneg (mm a)). lia.
Qed.
End ScanExtras.

(** ** Whom a whole pass signals, and in which order *)

Section PassVictims.
Variable P : platform.

(** A descriptor that does not carry [lmk_sigkill_sent] after a scan is one
    the scan found. *)
Lemma scan_and_kill_unmarked_is_old min_adj max_adj pages_needed w v :
  v ∈ tasks (snd (scan_and_kill P min_adj max_adj pages_needed w)) ->
  lmk_sigkill_sent v = false -> v ∈ tasks w.
Proof.
  destruct (scan_loop P min_adj max_adj pages_needed (current w) (tasks w) 0)
    as [[f ts] evs] eqn:H.
  destruct (scan_and_kill_emitted P _ _ _ _ _ _ _ H) as (_ & -> & _).
  pose proof (scan_loop_marks P _ _ _ _ _ _ _ _ _ H) as Hm.
  intros Hv Hflag. apply list_elem_of_lookup in Hv as [i Hi].
  destruct (Forall2_lookup_r _ _ _ _ _ Hm Hi) as (t & Ht & [->|[-> _]]).
  - eapply list_elem_of_lookup_2. exact Ht.
  - discriminate Hflag.
Qed.

Lemma tier_loop_victims tbl n : forall (i : nat) pages_needed pages_freed w,
  let r := tier_loop P tbl (seq i n) pages_needed pages_freed w in
  exists evs,
    trace (snd r) = trace w ++ evs
    /\ (forall v, v ∈ tasks (snd r) -> lmk_sigkill_sent v = false ->
          v ∈ tasks w)
    /\ Forall (fun v =>
                 v ∈ tasks w
                 /\ exists k : nat, (i <= k < i + n)%nat
                      /\ is_target P (at_index tbl k) (at_index tbl (k - 1))
                           (current w) v = true)
         (sig_victims evs)
    /\ (descending tbl = true -> (i + n <= length tbl)%nat ->
        forall (a b : nat) va vb,
          sig_victims evs !! a = Some va -> sig_victims evs !! b = Some vb ->
          (a < b)%nat ->
          oom_score_adj (signal va) < oom_score_adj (signal vb) ->
          exists k : nat, (i <= k < i + n)%nat
            /\ accepts tbl k (oom_score_adj (signal va)) = true
            /\ accepts tbl k (oom_score_adj (signal vb)) = true).
Proof.
  induction n as [|n IH]; intros i needed freed w r; subst r.
  - exists []. simpl. rewrite app_nil_r.
    split; [reflexivity|]. split; [auto|]. split; [constructor|].
    intros _ _ a b va vb Ha. discriminate Ha.
  - change (seq i (S n)) with (i :: seq (S i) n). rewrite tier_loop_cons.
    set (lo := at_index tbl i). set (hi := at_index tbl (i - 1)).
    set (r1 := scan_and_kill P lo hi (to_ulong (needed - freed)) w).
    destruct (scan_and_kill_log P lo hi (to_ulong (needed - freed)) w)
      as (evs1 & Ht1 & _).
    fold r1 in Ht1.
    pose proof (scan_and_kill_unmarked_is_old lo hi
                  (to_ulong (needed - freed)) w) as Hold1.
    fold r1 in Hold1.
    destruct (scan_and_kill_frame P lo hi (to_ulong (needed - freed)) w)
      as ((_ & Hcur & _) & _).
    fold r1 in Hcur.
    (* the victims of this scan are targets of tier [i] *)
    assert (Forall (fun v => v ∈ tasks w
                             /\ is_target P lo hi (current w) v = true)
              (sig_victims evs1)) as Hv1.
    { destruct (scan_loop P lo hi (to_ulong (needed - freed)) (current w)
                  (tasks w) 0) as [[f ts] evs] eqn:H.
      destruct (scan_and_kill_signals P _ _ _ _ _ _ _ H) as [Hsv _].
      fold r1 in Hsv. rewrite (emitted_app _ _ _ Ht1) in Hsv. rewrite Hsv.
      destruct (scan_loop_victims P _ _ _ _ _ _ _ _ _ H) as [Hsub Hall].
      rewrite Forall_forall in Hall |- *. intros v Hv. split.
      - eapply elem_of_sublist; eassumption.
      - apply is_target_spec. apply Hall. exact Hv. }
    assert (Forall (fun v =>
                      v ∈ tasks w
                      /\ exists k : nat, (i <= k < i + S n)%nat
                           /\ is_target P (at_index tbl k)
                                (at_index tbl (k - 1)) (current w) v = true)
              (sig_victims evs1)) as Hv1'.
    { eapply Forall_impl; [exact Hv1|]. intros v [Hin Htg].
      split; [exact Hin|]. exists i. split; [lia|exact Htg]. }
    cbv zeta. destruct (to_ulong (freed + fst r1) >=? needed).
    + exists evs1. cbn [snd]. split; [exact Ht1|]. split; [exact Hold1|].
      split; [exact Hv1'|].
      intros _ _ a b va vb Ha Hb _ _. exists i. split; [lia|].
      rewrite Forall_forall in Hv1.
      apply list_elem_of_lookup_2 in Ha, Hb.
      destruct (Hv1 _ Ha) as [_ Hta]. destruct (Hv1 _ Hb) as [_ Htb].
      apply is_target_spec in Hta as (_ & Hta & _).
      apply is_target_spec in Htb as (_ & Htb & _).
      unfold accepts, tier. cbn [fst snd]. fold lo hi.
      rewrite Hta, Htb. split; reflexivity.
    + destruct (IH (S i) needed (to_ulong (freed + fst r1)) (snd r1))
        as (evs2 & Ht2 & Hold2 & Hv2 & Hord2).
      exists (evs1 ++ evs2).
      split; [rewrite Ht2, Ht1, app_assoc; reflexivity|].
      split; [intros v Hv Hflag; apply Hold1; [apply Hold2|]; assumption|].
      rewrite sig_victims_app. split.
      * apply Forall_app. split; [exact Hv1'|].
        eapply Forall_impl; [exact Hv2|].
        intros v (Hin & k & Hk & Htg). rewrite Hcur in Htg.
        assert (lmk_sigkill_sent v = false) as Hflag.
        { apply is_target_spec in Htg as (Hc & _).
          apply (is_candidate_alive P) in Hc. tauto. }
        split; [apply Hold1; assumption|].
        exists k. split; [lia|exact Htg].
      * intros Hd Hlen a b va vb Ha Hb Hab Hadj.
        rewrite Forall_forall in Hv1, Hv2.
        apply lookup_app_Some in Ha as [Ha|[Hla Ha]];
          apply lookup_app_Some in Hb as [Hb|[Hlb Hb]].
        -- exists i. split; [lia|].
           apply list_elem_of_lookup_2 in Ha, Hb.
           destruct (Hv1 _ Ha) as [_ Hta]. destruct (Hv1 _ Hb) as [_ Htb].
           apply is_target_spec in Hta as (_ & Hta & _).
           apply is_target_spec in Htb as (_ & Htb & _).
           unfold accepts, tier. cbn [fst snd]. fold lo hi.
           rewrite Hta, Htb. split; reflexivity.
        -- (* [va] of this tier, [vb] of a later one: [vb] scores no higher *)
           exfalso.
           apply list_elem_of_lookup_2 in Ha, Hb.
           destruct (Hv1 _ Ha) as [_ Hta].
           destruct (Hv2 _ Hb) as (_ & k & Hk & Htb).
           apply is_target_spec in Hta as (_ & Hta & _).
           apply is_target_spec in Htb as (_ & Htb & _).
           assert (accepts tbl i (oom_score_adj (signal va)) = true) as Hai
             by (unfold accepts, tier; cbn [fst snd]; fold lo hi;
                 rewrite Hta; reflexivity).
           assert (accepts tbl k (oom_score_adj (signal vb)) = true) as Hbk
             by (unfold accepts, tier; cbn [fst snd]; rewrite Htb; reflexivity).
           apply accepts_spec in Hai, Hbk.
           destruct (decide (k - 1 = i)%nat) as [Hki|Hki].
           ++ rewrite Hki in Hbk. lia.
           ++ pose proof (descending_lt tbl i (k - 1) Hd ltac:(lia)). lia.
        -- apply lookup_lt_Some in Hb. lia.
        -- destruct (Hord2 Hd ltac:(lia) _ _ _ _ Ha Hb ltac:(lia) Hadj)
             as (k & Hk & Hacc).
           exists k. split; [lia|exact Hacc].
Qed.

(** What the tier loop of a pass logs, with the victims' tiers. *)
Lemma do_lmk_reclaim_victims pages_needed at_stamp w :
  let w' := snd (do_lmk_reclaim P pages_needed at_stamp w) in
  Forall (fun v =>
            v ∈ tasks w
            /\ exists k : nat, (1 <= k < 11)%nat
                 /\ is_target P (at_index adj_prio k) (at_index adj_prio (k - 1))
                      (current w) v = true)
    (sig_victims (emitted w w'))
  /\ forall (a b : nat) va vb,
       sig_victims (emitted w w') !! a = Some va ->
       sig_victims (emitted w w') !! b = Some vb ->
       (a < b)%nat ->
       oom_score_adj (signal va) < oom_score_adj (signal vb) ->
       exists k : nat, (1 <= k < 11)%nat
         /\ accepts adj_prio k (oom_score_adj (signal va)) = true
         /\ accepts adj_prio k (oom_score_adj (signal vb)) = true.
Proof.
  intros w'. subst w'.
  destruct (do_lmk_reclaim_emitted P pages_needed at_stamp w) as (evs & Ht & ->).
  destruct (kick_boosts_frame P w) as ((_ & Hcur & _) & Htasks & _).
  destruct (tier_loop_victims adj_prio 10 1 pages_needed 0 (kick_boosts P w))
    as (evs' & Ht' & _ & Hv & Hord).
  rewrite Ht in Ht'. apply app_inv_head in Ht'. subst evs'.
  rewrite Htasks, Hcur in Hv. cbn [sig_victims].
  split; [exact Hv|]. apply Hord; [reflexivity|]. simpl. lia.
Qed.

(** X5.  A pass signals nobody outside the boundary table: every process sent
    a signal by [do_lmk_reclaim] was in the process list when the pass began
    and has a score from 0 to 906; it is outside the caller's thread group, no
    kthread, and carried neither [lmk_sigkill_sent] nor TIF_MEMDIE. *)
Theorem do_lmk_reclaim_spares_scores_off_the_table pages_needed at_stamp w :
  let w' := snd (do_lmk_reclaim P pages_needed at_stamp w) in
  forall v, v ∈ sig_victims (emitted w w') ->
    v ∈ tasks w
    /\ 0 <= oom_score_adj (signal v) <= 906
    /\ same_thread_group v (current w) = false
    /\ Z.land (flags v) (PF_KTHREAD P) = 0
    /\ lmk_sigkill_sent v = false
    /\ test_tsk_thread_flag v (TIF_MEMDIE P) = false
    /\ get_mm_rss (mm v) <> 0.
Proof.
  intros w' v Hv. subst w'.
  destruct (do_lmk_reclaim_victims pages_needed at_stamp w) as [Hall _].
  rewrite Forall_forall in Hall.
  destruct (Hall v Hv) as (Hin & k & Hk & Htg).
  apply is_target_spec in Htg as (Hc & Ha & Hr).
  apply (is_candidate_alive P) in Hc as (Hflag & Hdie & Hself & Hkt & _).
  split; [exact Hin|]. split; [|tauto].
  assert (accepts adj_prio k (oom_score_adj (signal v)) = true) as Hacc
    by (unfold accepts, tier; cbn [fst snd]; rewrite Ha; reflexivity).
  apply accepts_spec in Hacc.
  pose proof (descending_head_max (tl adj_prio) 906 (k - 1) eq_refl) as Hhi.
  change (906 :: tl adj_prio) with adj_prio in Hhi.
  specialize (Hhi ltac:(simpl; lia)).
  assert (0 <= at_index adj_prio k) as Hlo.
  { destruct (decide (k = 10%nat)) as [->|Hne]; [reflexivity|].
    pose proof (descending_lt adj_prio k 10 eq_refl ltac:(simpl; lia)) as H.
    change (at_index adj_prio 10) with 0 in H. lia. }
  lia.
Qed.

(** X6.  Least important first, down to the tier: when a pass signals one
    process before another that has a strictly higher score, one tier holds
    both scores. *)
Theorem do_lmk_reclaim_signals_tier_by_tier pages_needed at_stamp w :
  let w' := snd (do_lmk_reclaim P pages_needed at_stamp w) in
  forall (a b : nat) va vb,
    sig_victims (emitted w w') !! a = Some va ->
    sig_victims (emitted w w') !! b = Some vb ->
    (a < b)%nat ->
    oom_score_adj (signal va) < oom_score_adj (signal vb) ->
    exists k : nat, (1 <= k < ARRAY_SIZE adj_prio)%nat
      /\ at_index adj_prio k <= oom_score_adj (signal va)
      /\ oom_score_adj (signal vb) <= at_index adj_prio (k - 1).
Proof.
  intros w' a b va vb Ha Hb Hab Hadj. subst w'.
  destruct (do_lmk_reclaim_victims pages_needed at_stamp w) as [_ Hord].
  destruct (Hord a b va vb Ha Hb Hab Hadj) as (k & Hk & Hka & Hkb).
  apply accepts_spec in Hka, Hkb.
  exists k. split; [exact Hk|]. lia.
Qed.
End PassVictims.

(** ** A pass that falls short *)

Section PassExhaustive.
Variable P : platform.

(** While nothing wraps, a tier loop that ends short of [pages_needed] has
    scanned every tier it was given, each scan came back short, and no task
    it leaves behind is a target of any of those tiers that could be
    signalled. *)
Lemma tier_loop_short tbl n : forall (i : nat) pages_needed pages_freed w,
  0 <= pages_freed -> pages_needed < ULONG_MOD ->
  pages_freed + unsent_rss (tasks w) < ULONG_MOD ->
  let r := tier_loop P tbl (seq i n) pages_needed pages_freed w in
  fst r < pages_needed ->
  forall (k : nat) t', (i <= k < i + n)%nat -> t' ∈ tasks (snd r) ->
    is_target P (at_index tbl k) (at_index tbl (k - 1)) (current w) t' = true ->
    do_send_sig_info P t' <> 0.
Proof.
  induction n as [|n IH]; intros i needed freed w Hfreed Hneed Hfit r Hshort;
    subst r; [intros; lia|].
  change (seq i (S n)) with (i :: seq (S i) n) in *.
  rewrite tier_loop_cons in *.
  set (lo := at_index tbl i) in *. set (hi := at_index tbl (i - 1)) in *.
  set (deficit := to_ulong (needed - freed)) in *.
  set (r1 := scan_and_kill P lo hi deficit w) in *.
  destruct (scan_and_kill_exact P lo hi deficit w) as (Hpot & Hexact & Hpos).
  fold r1 in Hpot, Hexact, Hpos.
  pose proof (unsent_rss_nonneg (tasks w)) as Hw.
  pose proof (unsent_rss_nonneg (tasks (snd r1))) as Hw1.
  pose proof (footprints_nonneg (sig_delivered (emitted w (snd r1)))) as Hfp.
  specialize (Hexact ltac:(lia)).
  destruct (scan_and_kill_frame P lo hi deficit w) as ((_ & Hcur & _) & _).
  fold r1 in Hcur.
  assert (to_ulong (freed + fst r1) = freed + fst r1) as Hsmall
    by (apply to_ulong_small; lia).
  cbv zeta in Hshort |- *. rewrite Hsmall in *.
  destruct (freed + fst r1 >=? needed) eqn:Hstop.
  { cbn [fst] in Hshort. apply Z.geb_le in Hstop. lia. }
  rewrite Z.geb_leb in Hstop. apply Z.leb_gt in Hstop.
  intros k t' Hk Ht' Htg.
  pose proof (IH (S i) needed (freed + fst r1) (snd r1) ltac:(lia) Hneed
                ltac:(lia) Hshort) as Hrest.
  destruct (decide (k = i)) as [->|Hne].
  - (* tier [i]: its own scan was short, and later scans only mark tasks *)
    assert (fst r1 < deficit) as Hshort1.
    { unfold deficit. rewrite to_ulong_small by lia. lia. }
    destruct (scan_loop P lo hi deficit (current w) (tasks w) 0)
      as [[f ts] evs1] eqn:H.
    destruct (scan_and_kill_emitted P _ _ _ _ _ _ _ H) as (_ & Hts & Hf).
    fold r1 in Hts, Hf. rewrite Hf in Hshort1.
    destruct (scan_loop_short P _ _ _ _ _ _ _ _ _ H Hshort1) as [_ Hleft].
    rewrite Forall_forall in Hleft. apply Hleft; [rewrite <- Hts|exact Htg].
    destruct (tier_loop_victims P tbl n (S i) needed (freed + fst r1) (snd r1))
      as (evs & _ & Hold & _).
    apply Hold; [exact Ht'|].
    apply is_target_spec in Htg as (Hc & _).
    apply (is_candidate_alive P) in Hc. tauto.
  - apply (Hrest k t' ltac:(lia) Ht'). rewrite Hcur. exact Htg.
Qed.
End PassExhaustive.

Section PassShort.
Variable P : platform.

(** X7.  A pass gives up only when nobody is left to kill.  While the pages of
    the tasks not yet killed fit an [unsigned long]: if the tasks a pass
    killed hold fewer pages than it was asked for, then every tier was
    scanned, and no process left in the list with a score from 0 to 906 is
    still a candidate with resident pages whose signal could be delivered. *)
Theorem do_lmk_reclaim_falls_short_only_when_nobody_is_left pages_needed at_stamp w :
  pages_needed < ULONG_MOD ->
  unsent_rss (tasks w) < ULONG_MOD ->
  let r := do_lmk_reclaim P pages_needed at_stamp w in
  footprints (sig_delivered (emitted w (snd r))) < pages_needed ->
  length (scan_rets (emitted w (snd r))) = (ARRAY_SIZE adj_prio - 1)%nat
  /\ forall t', t' ∈ tasks (snd r) ->
       is_candidate P (current w) t' = true ->
       0 <= oom_score_adj (signal t') <= 906 ->
       get_mm_rss (mm t') <> 0 ->
       do_send_sig_info P t' <> 0.
Proof.
  intros Hneed Hfit r Hshort. subst r.
  destruct (do_lmk_reclaim_scans P pages_needed at_stamp w)
    as (evs & Hem & _ & _ & _ & _ & _ & Hend & Hexact).
  destruct (Hexact Hfit) as (Hnn & Htot & Hle).
  rewrite Hem in Hshort |- *. cbn [sig_delivered scan_rets] in Hshort |- *.
  assert (freed_from 0 (scan_rets evs) = total (scan_rets evs)) as Hfreed.
  { rewrite freed_from_exact; [lia|lia|exact Hnn|lia]. }
  split.
  - destruct Hend as [Hend|Hend]; [exact Hend|lia].
  - intros t' Ht' Hc Hadj Hrss.
    destruct (kick_boosts_frame P w) as ((_ & Hcur & _) & Htasks & _).
    pose proof (tier_loop_short P adj_prio 10 1 pages_needed 0 (kick_boosts P w)
                  (Z.le_refl 0) Hneed) as Hloop.
    rewrite Htasks, Hcur in Hloop. specialize (Hloop ltac:(lia)).
    cbv zeta in Hloop.
    destruct (tier_loop_log P adj_prio 10 1 pages_needed 0 (kick_boosts P w))
      as (evs' & Ht & _ & _ & _ & _ & Hf & _).
    destruct (do_lmk_reclaim_emitted P pages_needed at_stamp w) as (evs'' & Ht'' & Hem'').
    rewrite Hem in Hem''. inversion Hem''; subst evs''.
    rewrite Ht in Ht''. apply app_inv_head in Ht''. subst evs'.
    rewrite Hf, Hfreed, Htot in Hloop. specialize (Hloop Hshort).
    rewrite do_lmk_reclaim_unfold in Ht'. cbv zeta in Ht'. cbn [snd] in Ht'.
    rewrite (proj1 (proj2 (stamp_frame _ _ _))) in Ht'.
    destruct (descending_cover (tl adj_prio) 906 (oom_score_adj (signal t'))
                eq_refl ltac:(discriminate) ltac:(exact Hadj))
      as (k & Hk & Hacc).
    change (906 :: tl adj_prio) with adj_prio in Hacc.
    apply (Hloop k t'); [simpl in Hk; lia|exact Ht'|].
    apply is_target_spec. split; [exact Hc|]. split; [|exact Hrss].
    apply accepts_spec in Hacc. unfold accepts, tier in Hacc.
    cbn [fst snd] in Hacc. apply negb_true_iff in Hacc. exact Hacc.
Qed.
End PassShort.

(** ** A pass kills no more than it needs *)

Lemma footprints_app l1 l2 :
  footprints (l1 ++ l2) = footprints l1 + footprints l2.
Proof. induction l1 as [|v l1 IH]; simpl; [reflexivity|rewrite IH; lia]. Qed.

Section PassMinimal.
Variable P : platform.

Lemma tier_loop_stops tbl idx : forall pages_needed pages_freed w,
  0 <= pages_freed < pages_needed -> pages_needed < ULONG_MOD ->
  pages_freed + unsent_rss (tasks w) < ULONG_MOD ->
  let r := tier_loop P tbl idx pages_needed pages_freed w in
  exists evs,
    trace (snd r) = trace w ++ evs
    /\ forall k : nat, (k < length (sig_delivered evs))%nat ->
         pages_freed + footprints (take k (sig_delivered evs)) < pages_needed.
Proof.
  induction idx as [|i idx IH]; intros needed freed w Hfreed Hneed Hfit r;
    subst r.
  - exists []. simpl. rewrite app_nil_r. split; [reflexivity|]. intros; lia.
  - rewrite tier_loop_cons.
    set (lo := at_index tbl i). set (hi := at_index tbl (i - 1)).
    set (deficit := to_ulong (needed - freed)).
    set (r1 := scan_and_kill P lo hi deficit w).
    destruct (scan_and_kill_log P lo hi deficit w) as (evs1 & Ht1 & _).
    destruct (scan_and_kill_exact P lo hi deficit w) as (Hpot & Hexact & Hpos).
    fold r1 in Ht1, Hpot, Hexact, Hpos.
    rewrite (emitted_app _ _ _ Ht1) in Hpot, Hexact.
    pose proof (unsent_rss_nonneg (tasks w)) as Hw.
    pose proof (unsent_rss_nonneg (tasks (snd r1))) as Hw1.
    specialize (Hexact ltac:(lia)).
    assert (deficit = needed - freed) as Hdef
      by (apply to_ulong_small; lia).
    (* within this scan *)
    assert (forall k : nat, (k < length (sig_delivered evs1))%nat ->
              freed + footprints (take k (sig_delivered evs1)) < needed)
      as Hin1.
    { intros k Hk. destruct k as [|k]; [simpl; lia|].
      destruct (scan_loop P lo hi deficit (current w) (tasks w) 0)
        as [[f ts] evs] eqn:H.
      destruct (scan_and_kill_signals P _ _ _ _ _ _ _ H) as [_ Hsd].
      fold r1 in Hsd. rewrite (emitted_app _ _ _ Ht1) in Hsd.
      pose proof (scan_loop_stops P _ _ _ _ _ _ _ _ _ H (Z.le_refl 0)
                    ltac:(lia) (S k)) as Hs.
      rewrite <- Hsd in Hs. specialize (Hs ltac:(lia)). lia. }
    assert (to_ulong (freed + fst r1) = freed + fst r1) as Hsmall
      by (apply to_ulong_small; lia).
    cbv zeta. rewrite Hsmall.
    destruct (freed + fst r1 >=? needed) eqn:Hstop.
    + exists evs1. cbn [snd]. split; [exact Ht1|exact Hin1].
    + rewrite Z.geb_leb in Hstop. apply Z.leb_gt in Hstop.
      destruct (IH needed (freed + fst r1) (snd r1) ltac:(lia) Hneed
                  ltac:(lia)) as (evs2 & Ht2 & Hin2).
      exists (evs1 ++ evs2).
      split; [rewrite Ht2, Ht1, app_assoc; reflexivity|].
      rewrite sig_delivered_app. intros k Hk. rewrite length_app in Hk.
      destruct (decide (k < length (sig_delivered evs1))%nat) as [Hlt|Hge].
      * rewrite take_app_le by lia. apply Hin1. exact Hlt.
      * rewrite take_app_ge by lia. rewrite footprints_app.
        specialize (Hin2 (k - length (sig_delivered evs1))%nat ltac:(lia)).
        lia.
Qed.

(** X8.  A pass kills no more than it needs.  For a positive [pages_needed],
    while the pages of the tasks not yet killed fit an [unsigned long], the
    tasks killed before any given kill of the pass hold fewer pages than
    [pages_needed]: only the last kill can bring the total up to it, and
    without that last victim the pass would have fallen short. *)
Theorem do_lmk_reclaim_kills_no_more_than_needed pages_needed at_stamp w :
  0 < pages_needed < ULONG_MOD ->
  unsent_rss (tasks w) < ULONG_MOD ->
  let delivered :=
    sig_delivered (emitted w (snd (do_lmk_reclaim P pages_needed at_stamp w))) in
  (forall k : nat, (k < length delivered)%nat ->
     footprints (take k delivered) < pages_needed)
  /\ (forall l v, delivered = l ++ [v] ->
        footprints delivered - get_mm_rss (mm v) < pages_needed).
Proof.
  intros Hneed Hfit delivered. subst delivered.
  destruct (do_lmk_reclaim_emitted P pages_needed at_stamp w) as (evs & Ht & ->).
  destruct (kick_boosts_frame P w) as (_ & Htasks & _).
  destruct (tier_loop_stops adj_prio (seq 1 10) pages_needed 0 (kick_boosts P w))
    as (evs' & Ht' & Hin); [lia|lia|rewrite Htasks; lia|].
  rewrite Ht in Ht'. apply app_inv_head in Ht'. subst evs'.
  cbn [sig_delivered].
  assert (forall k : nat, (k < length (sig_delivered evs))%nat ->
            footprints (take k (sig_delivered evs)) < pages_needed) as Hall.
  { intros k Hk. specialize (Hin k Hk). lia. }
  split; [exact Hall|].
  intros l v Hl. rewrite Hl in Hall |- *.
  specialize (Hall (length l)). rewrite length_app, take_app_length in Hall.
  simpl in Hall. specialize (Hall ltac:(lia)).
  rewrite footprints_app. simpl. lia.
Qed.
End PassMinimal.

(** ** The periodic worker, and the rate limit across both triggers *)

Section PeriodicWorker.
Variable P : platform.

Lemma reclaim_work_not_due at_boost at_stamp w :
  reclaim_lock w = false -> reclaim_due P Kswapd w = false ->
  simple_lmk_reclaim_work P at_boost at_stamp w
    = Some (queue_delayed_work (LMK_KSWAPD_TIMEOUT P) w).
Proof.
  intros Hl Hd. unfold simple_lmk_reclaim_work. rewrite Hl.
  change (reclaim_due P Kswapd (set_reclaim_lock true w))
    with (reclaim_due P Kswapd w).
  rewrite Hd. unfold pr_info_freed, mutex_unlock. simpl.
  rewrite (unlock_after_lock w Hl). reflexivity.
Qed.

Lemma reclaim_work_due at_boost at_stamp w :
  reclaim_lock w = false -> reclaim_due P Kswapd w = true ->
  simple_lmk_reclaim_work P at_boost at_stamp w
    = Some (queue_delayed_work (LMK_KSWAPD_TIMEOUT P)
              (locked_pass P Kswapd at_boost at_stamp w)).
Proof.
  intros Hl Hd. unfold simple_lmk_reclaim_work, locked_pass. rewrite Hl.
  change (reclaim_due P Kswapd (set_reclaim_lock true w))
    with (reclaim_due P Kswapd w).
  rewrite Hd. destruct (do_lmk_reclaim _ _ _ _) as [mib w2]. reflexivity.
Qed.

(** X9.  [simple_lmk_reclaim_work] waits only for the lock.  Once it has it,
    it returns with the lock released and its own delayed work queued again
    for [LMK_KSWAPD_TIMEOUT], the re-arm being the last thing it does, whether
    or not it reclaimed; before the periodic interval has elapsed it does
    nothing else, and after it, it makes exactly one pass and records as its
    time what jiffies reads at the end of the pass, whatever the counter was
    at the gate test and at the boost request. *)
Theorem reclaim_work_always_rearms at_boost at_stamp w :
  (simple_lmk_reclaim_work P at_boost at_stamp w = None
   <-> reclaim_lock w = true)
  /\ (forall w', simple_lmk_reclaim_work P at_boost at_stamp w = Some w' ->
        reclaim_lock w' = false
        /\ reclaim_work_queued w' = true
        /\ last (emitted w w')
           = Some (EvQueueDelayedWork (LMK_KSWAPD_TIMEOUT P))
        /\ (reclaim_due P Kswapd w = false ->
            w' = queue_delayed_work (LMK_KSWAPD_TIMEOUT P) w
            /\ tasks w' = tasks w
            /\ last_reclaim_jiffies w' = last_reclaim_jiffies w
            /\ emitted w w' = [EvQueueDelayedWork (LMK_KSWAPD_TIMEOUT P)])
        /\ (reclaim_due P Kswapd w = true ->
            passes_started (emitted w w') = 1%nat
            /\ last_reclaim_jiffies w' = at_stamp)).
Proof.
  split.
  - unfold simple_lmk_reclaim_work. destruct (reclaim_lock w).
    + split; reflexivity.
    + destruct (if reclaim_due P Kswapd (set_reclaim_lock true w)
                then _ else _) as [mib w2].
      split; discriminate.
  - intros w' Hw'.
    destruct (reclaim_lock w) eqn:Hl;
      [unfold simple_lmk_reclaim_work in Hw'; rewrite Hl in Hw'; discriminate|].
    destruct (reclaim_due P Kswapd w) eqn:Hd.
    + rewrite (reclaim_work_due _ _ w Hl Hd) in Hw'. inversion Hw'; subst w'.
      destruct (locked_pass_effect P Kswapd at_boost at_stamp w)
        as (Hlock & _ & Hp & Hstamp).
      set (w1 := locked_pass P Kswapd at_boost at_stamp w) in *.
      assert (exists evs, trace w1 = trace w ++ evs) as [evs Hevs].
      { unfold w1, locked_pass.
        destruct (do_lmk_reclaim_trace P (MIN_FREE_PAGES P) at_stamp
                    (set_jiffies at_boost (set_reclaim_lock true w)))
          as (evs & Ht & _).
        destruct (do_lmk_reclaim _ _ _ _) as [mib w2]. cbn [snd] in Ht.
        destruct (pr_info_freed_frame Kswapd mib (mutex_unlock w2))
          as (_ & _ & _ & evs3 & Ht3 & _).
        exists (evs ++ evs3). rewrite Ht3.
        change (trace (mutex_unlock w2)) with (trace w2).
        rewrite Ht, <- app_assoc. reflexivity. }
      assert (emitted w w1 = evs) as Hem1 by (apply emitted_app; exact Hevs).
      assert (emitted w (queue_delayed_work (LMK_KSWAPD_TIMEOUT P) w1)
              = evs ++ [EvQueueDelayedWork (LMK_KSWAPD_TIMEOUT P)]) as Hem.
      { apply emitted_app. unfold queue_delayed_work. simpl.
        rewrite Hevs, <- app_assoc. reflexivity. }
      split; [exact Hlock|]. split; [reflexivity|].
      split; [rewrite Hem; apply last_snoc|].
      split; [discriminate|]. intros _. split.
      * rewrite Hem, passes_started_app, <- Hem1, Hp. reflexivity.
      * exact Hstamp.
    + rewrite (reclaim_work_not_due _ _ w Hl Hd) in Hw'. inversion Hw'; subst w'.
      assert (emitted w (queue_delayed_work (LMK_KSWAPD_TIMEOUT P) w)
              = [EvQueueDelayedWork (LMK_KSWAPD_TIMEOUT P)]) as Hem
        by (apply emitted_app; reflexivity).
      split; [exact Hl|]. split; [reflexivity|].
      split; [rewrite Hem; reflexivity|].
      split; [|discriminate]. intros _. repeat split. exact Hem.
Qed.

(** The gate of either trigger on a world whose lock is free, [elapsed]
    jiffies after the time recorded in it. *)
Lemma gate_after_stamp w' elapsed :
  reclaim_lock w' = false ->
  0 <= elapsed <= LONG_MAX ->
  0 <= LMK_OOM_TIMEOUT P <= LONG_MAX ->
  0 <= LMK_KSWAPD_TIMEOUT P <= LONG_MAX ->
  let w1 := set_jiffies (to_ulong (last_reclaim_jiffies w' + elapsed)) w' in
  reclaim_due P Oom w1 = (LMK_OOM_TIMEOUT P <=? elapsed)
  /\ reclaim_due P Kswapd w1 = (LMK_KSWAPD_TIMEOUT P <=? elapsed)
  /\ (elapsed < LMK_OOM_TIMEOUT P ->
      forall at_boost' at_stamp',
        simple_lmk_force_reclaim P at_boost' at_stamp' w1 = w1)
  /\ (elapsed < LMK_KSWAPD_TIMEOUT P ->
      forall at_boost' at_stamp',
        simple_lmk_reclaim_work P at_boost' at_stamp' w1
          = Some (queue_delayed_work (LMK_KSWAPD_TIMEOUT P) w1)).
Proof.
  intros Hl He Ho Hk w1.
  pose proof LONG_MAX_eq as HM.
  assert (forall who', reclaim_due P who' w1 = (timeout_of P who' <=? elapsed))
    as Hdue.
  { intros who'. apply reclaim_due_elapsed; [reflexivity|].
    destruct who'; cbn [timeout_of]; lia. }
  split; [exact (Hdue Oom)|]. split; [exact (Hdue Kswapd)|]. split.
  - intros Hsoon b s. apply force_reclaim_not_due; [exact Hl|].
    rewrite (Hdue Oom). apply Z.leb_gt. exact Hsoon.
  - intros Hsoon b s. apply reclaim_work_not_due; [exact Hl|].
    rewrite (Hdue Kswapd). apply Z.leb_gt. exact Hsoon.
Qed.

(** X10.  The two triggers share one rate limit, counted from the time a pass
    records at its end.  After a call of either trigger that made a pass, a
    trigger is due again exactly when its own interval has elapsed since that
    time on the jiffies clock; called sooner, the urgent trigger leaves
    everything as it is and the periodic worker does no more than re-arm
    itself. *)
Theorem reclaim_passes_are_rate_limited (who : trigger) at_boost at_stamp w w'
    elapsed :
  reclaim_lock w = false ->
  reclaim_due P who w = true ->
  match who with
  | Oom =>
      simple_lmk_ready w <> 0
      /\ simple_lmk_force_reclaim P at_boost at_stamp w = w'
  | Kswapd => simple_lmk_reclaim_work P at_boost at_stamp w = Some w'
  end ->
  0 <= elapsed <= LONG_MAX ->
  0 <= LMK_OOM_TIMEOUT P <= LONG_MAX ->
  0 <= LMK_KSWAPD_TIMEOUT P <= LONG_MAX ->
  let w1 := set_jiffies (to_ulong (at_stamp + elapsed)) w' in
  last_reclaim_jiffies w' = at_stamp
  /\ reclaim_due P Oom w1 = (LMK_OOM_TIMEOUT P <=? elapsed)
  /\ reclaim_due P Kswapd w1 = (LMK_KSWAPD_TIMEOUT P <=? elapsed)
  /\ (elapsed < LMK_OOM_TIMEOUT P ->
      forall at_boost' at_stamp',
        simple_lmk_force_reclaim P at_boost' at_stamp' w1 = w1)
  /\ (elapsed < LMK_KSWAPD_TIMEOUT P ->
      forall at_boost' at_stamp',
        simple_lmk_reclaim_work P at_boost' at_stamp' w1
          = Some (queue_delayed_work (LMK_KSWAPD_TIMEOUT P) w1)).
Proof.
  intros Hl Hd Hcall He Ho Hk.
  assert (reclaim_lock w' = false /\ last_reclaim_jiffies w' = at_stamp)
    as [Hl' Hs'].
  { destruct (locked_pass_effect P who at_boost at_stamp w)
      as (Hlock & _ & _ & Hstamp).
    destruct who.
    - rewrite (reclaim_work_due _ _ w Hl Hd) in Hcall.
      inversion Hcall; subst w'. split; [exact Hlock|exact Hstamp].
    - destruct Hcall as [Hr <-].
      rewrite (force_reclaim_due P _ _ w Hr Hl Hd).
      split; [exact Hlock|exact Hstamp]. }
  intros w1. split; [exact Hs'|].
  subst w1. rewrite <- Hs'.
  exact (gate_after_stamp w' elapsed Hl' He Ho Hk).
Qed.
End PeriodicWorker.

(** ** Nobody waits for the lock for ever *)

Lemma count_where_pos f l :
  (1 <= count_where f l)%nat ->
  exists (j : nat) x, l !! j = Some x /\ f x = true.
Proof.
  induction l as [|y l IH]; intros H.
  - unfold count_where in H. simpl in H. lia.
  - rewrite count_where_cons in H. destruct (f y) eqn:Hy.
    + exists 0%nat, y. split; [reflexivity|exact Hy].
    + destruct IH as (j & x & Hj & Hx); [simpl in H; lia|].
      exists (S j), x. split; [exact Hj|exact Hx].
Qed.

Section Progress.
Variable P : platform.

(** From any point between taking the lock and releasing it, a thread left
    to run reaches its return with the lock released. *)
Lemma run_alone_unlock n who mib w :
  exists w' : world,
    run_alone P (4 + n) who (AtUnlock mib) w = Some w'
    /\ reclaim_lock w' = false.
Proof.
  change (4 + n)%nat with (S (S (S (S n)))).
  rewrite run_alone_S. cbn [thread_step].
  rewrite run_alone_S. cbn [thread_step].
  destruct (pr_info_freed_frame who mib (mutex_unlock w))
    as ((_ & _ & Hlock & _) & _).
  destruct who; rewrite run_alone_S; cbn [thread_step]; eexists;
    (split; [reflexivity|]); exact Hlock.
Qed.

Lemma holder_runs_to_release who p w :
  holds_lock (who, p) = true ->
  exists w' : world, run_alone P 7 who p w = Some w' /\ reclaim_lock w' = false.
Proof.
  intros Hh.
  destruct p; try (compute in Hh; discriminate Hh); clear Hh.
  - (* AtGate *)
    rewrite run_alone_S. cbn [thread_step]. destruct (reclaim_due P who w).
    + rewrite run_alone_pass. apply (run_alone_unlock 0).
    + apply (run_alone_unlock 2).
  - (* InReclaim *)
    rewrite run_alone_pass. apply (run_alone_unlock 1).
  - (* AtStamp *)
    rewrite run_alone_S. cbn [thread_step]. apply (run_alone_unlock 2).
  - apply (run_alone_unlock 3).
Qed.

(** X11.  No interleaving of the two triggers gets stuck on [reclaim_lock].
    In every reachable state the only step that waits is the periodic worker's
    [mutex_lock], and whenever it waits, exactly one other thread holds the
    lock between its acquire and its release; that thread's next step is never
    a wait, and left to run it returns with the lock released. *)
Theorem reclaim_lock_waiter_has_a_running_holder s :
  reachable P s ->
  forall (i : nat) who p,
    threads s !! i = Some (who, p) ->
    thread_step P who p (shared s) = Sleeps ->
    who = Kswapd /\ p = AtLock /\ reclaim_lock (shared s) = true
    /\ exists (j : nat) who' p',
         j <> i /\ threads s !! j = Some (who', p')
         /\ holds_lock (who', p') = true
         /\ thread_step P who' p' (shared s) <> Sleeps
         /\ (exists w', run_alone P 7 who' p' (shared s) = Some w'
                        /\ reclaim_lock w' = false)
         /\ (forall (j' : nat) t, threads s !! j' = Some t ->
               holds_lock t = true -> j' = j).
Proof.
  intros Hreach i who p Hi Hsl.
  apply lock_accounted_reachable in Hreach. unfold lock_accounted in Hreach.
  assert (who = Kswapd /\ p = AtLock /\ reclaim_lock (shared s) = true)
    as (-> & -> & Hl).
  { destruct p; cbn [thread_step] in Hsl; try discriminate.
    - destruct who; [discriminate|].
      destruct (_ =? _); discriminate.
    - destruct (reclaim_lock (shared s)); [|discriminate].
      destruct who; [auto|discriminate].
    - destruct (reclaim_due _ _ _); discriminate.
    - destruct (tier_loop _ _ _ _ _ _); discriminate.
    - destruct who; discriminate. }
  split; [reflexivity|]. split; [reflexivity|]. split; [exact Hl|].
  rewrite Hl in Hreach. simpl in Hreach.
  destruct (count_where_pos holds_lock (threads s)) as (j & [who' p'] & Hj & Hh);
    [lia|].
  exists j, who', p'.
  split; [intros ->; rewrite Hi in Hj; inversion Hj; subst; discriminate Hh|].
  split; [exact Hj|]. split; [exact Hh|]. split; [|split].
  - destruct p'; try (compute in Hh; discriminate Hh); cbn [thread_step].
    + destruct (reclaim_due _ _ _); discriminate.
    + destruct (tier_loop _ _ _ _ _ _); discriminate.
    + discriminate.
    + discriminate.
  - apply holder_runs_to_release. exact Hh.
  - intros j' t Hj' Ht.
    destruct (decide (j' = j)) as [|Hne]; [assumption|exfalso].
    pose proof (count_where_two holds_lock (threads s) j' j t (who', p')
                  Hj' Hj Hne Ht Hh). lia.
Qed.
End Progress.

(** * Properties of asm/atomic_64.h *)

(** ** The add-unless loops *)

Lemma add_unless_from_spec (wrap : Z -> Z) loop :
  (forall at_cmpxchg c a u,
     loop at_cmpxchg c a u =
       if c =? u then (c, c)
       else match at_cmpxchg with
            | [] => (snd (cmpxchg c c (wrap (c + a))), c)
            | x :: rest =>
                let '(old, counter) := cmpxchg x c (wrap (c + a)) in
                if old =? c then (counter, c) else loop rest old a u
            end) ->
  forall (at_cmpxchg : list Z) (c a u : Z),
    let r := loop at_cmpxchg c a u in
    snd r ∈ c :: at_cmpxchg
    /\ (snd r = u -> fst r = u)
    /\ (snd r <> u -> fst r = wrap (snd r + a))
    /\ (at_cmpxchg = [] -> snd r = c).
Proof.
  intros Hloop at_cmpxchg.
  induction at_cmpxchg as [|x rest IH]; intros c a u r; subst r;
    rewrite Hloop; destruct (Z.eqb_spec c u) as [->|Hne].
  - cbn [fst snd]. split; [left|]. split; [reflexivity|].
    split; [contradiction|reflexivity].
  - unfold cmpxchg. rewrite Z.eqb_refl. cbn [fst snd]. split; [left|].
    split; [contradiction|]. split; reflexivity.
  - cbn [fst snd]. split; [left|]. split; [reflexivity|].
    split; [contradiction|discriminate].
  - unfold cmpxchg. cbv zeta. destruct (Z.eqb_spec x c) as [->|Hxc].
    + cbn [fst snd]. split; [left|]. split; [contradiction|].
      split; [reflexivity|discriminate].
    + destruct (IH x a u) as (Hin & Hu & Hadd & _).
      split; [right; exact Hin|]. split; [exact Hu|]. split; [exact Hadd|].
      discriminate.
Qed.

(** X12.  [__atomic_add_unless(v, a, u)] acts on one value of the counter, the
    one it returns: that is the value read at entry or one another CPU stored
    meanwhile; if it is [u] the counter is left at [u], and otherwise the
    counter is set to that value plus [a], as an [int].  With nobody else
    storing, the value is the one read at entry; and whatever the others
    stored, the outcome is that of an undisturbed call that finds the returned
    value in the counter. *)
Theorem atomic_add_unless_acts_on_what_it_returns
    (at_cmpxchg : list Z) (counter a u : Z) :
  let r := __atomic_add_unless at_cmpxchg counter a u in
  snd r ∈ counter :: at_cmpxchg
  /\ (snd r = u -> fst r = u)
  /\ (snd r <> u -> fst r = to_int (snd r + a))
  /\ (at_cmpxchg = [] -> snd r = counter)
  /\ r = __atomic_add_unless [] (snd r) a u.
Proof.
  intros r.
  pose proof (add_unless_from_spec to_int __atomic_add_unless_from) as H.
  specialize (H ltac:(intros l c a' u'; destruct l; reflexivity)
                at_cmpxchg (atomic_read counter) a u).
  cbv zeta in H. fold (__atomic_add_unless at_cmpxchg counter a u) in H.
  fold r in H. unfold atomic_read in H.
  destruct H as (Hin & Hu & Hadd & Hnil).
  split; [exact Hin|]. split; [exact Hu|]. split; [exact Hadd|].
  split; [exact Hnil|].
  clearbody r. unfold __atomic_add_unless, atomic_read.
  cbn [__atomic_add_unless_from]. unfold atomic_cmpxchg, cmpxchg.
  destruct r as [counter' c]. cbn [fst snd] in *.
  destruct (Z.eqb_spec c u) as [->|Hne].
  - rewrite (Hu eq_refl). reflexivity.
  - rewrite Z.eqb_refl. cbn [snd]. rewrite (Hadd Hne). reflexivity.
Qed.


(** * Properties of the boost driver *)

(** ** The state bits *)

Lemma land_bit_testbit s k :
  0 <= k -> negb (Z.land s (Z.shiftl 1 k) =? 0) = Z.testbit s k.
Proof.
  intros Hk. rewrite Z.shiftl_1_l.
  destruct (Z.testbit s k) eqn:Hb.
  - apply negb_true_iff, Z.eqb_neq. intros H0.
    apply (f_equal (fun z => Z.testbit z k)) in H0.
    rewrite Z.land_spec, Hb, Z.pow2_bits_true, Z.bits_0 in H0 by exact Hk.
    discriminate.
  - apply negb_false_iff, Z.eqb_eq. apply Z.bits_inj'. intros n Hn.
    rewrite Z.land_spec, Z.bits_0, Z.pow2_bits_eqb by exact Hk.
    destruct (Z.eqb_spec k n) as [->|]; [rewrite Hb; reflexivity|].
    apply andb_false_r.
Qed.

Lemma testbit_bit k n : 0 <= k -> 0 <= n ->
  Z.testbit (Z.shiftl 1 k) n = (k =? n).
Proof. intros Hk Hn. rewrite Z.shiftl_1_l. apply Z.pow2_bits_eqb. exact Hk. Qed.


Lemma boost_bit_set_testbit d k :
  0 <= k -> boost_bit_set d (Z.shiftl 1 k) = Z.testbit (state (atomics d)) k.
Proof. intros Hk. unfold boost_bit_set, get_boost_state, atomic_read.
  apply land_bit_testbit. exact Hk. Qed.

(** A state of four bits is one of sixteen values. *)
Lemma state16 (Q : Z -> Prop) :
  Q 0 -> Q 1 -> Q 2 -> Q 3 -> Q 4 -> Q 5 -> Q 6 -> Q 7 -> Q 8 -> Q 9 ->
  Q 10 -> Q 11 -> Q 12 -> Q 13 -> Q 14 -> Q 15 ->
  forall s, 0 <= s < 16 -> Q s.
Proof.
  intros Q0 Q1 Q2 Q3 Q4 Q5 Q6 Q7 Q8 Q9 Q10 Q11 Q12 Q13 Q14 Q15 s Hs.
  assert (s = 0 \/ s = 1 \/ s = 2 \/ s = 3 \/ s = 4 \/ s = 5 \/ s = 6 \/ s = 7
          \/ s = 8 \/ s = 9 \/ s = 10 \/ s = 11 \/ s = 12 \/ s = 13 \/ s = 14
          \/ s = 15) as Hc by lia.
  repeat (destruct Hc as [->|Hc]; [assumption|]). subst s. assumption.
Qed.

Ltac each_state := apply state16; vm_compute; repeat split;
  first [reflexivity | discriminate | tauto].

(** What setting and clearing does to the four bits of a four-bit state. *)
Lemma set_bit_effect k : 0 <= k < 4 ->
  forall s, 0 <= s < 16 ->
    0 <= Z.lor s (Z.shiftl 1 k) < 16
    /\ forall n, 0 <= n < 4 ->
         Z.testbit (Z.lor s (Z.shiftl 1 k)) n = Z.testbit s n || (k =? n).
Proof.
  intros Hk s Hs. split.
  - assert (k = 0 \/ k = 1 \/ k = 2 \/ k = 3) as [-> | [-> | [-> | ->]]] by lia;
      revert s Hs; each_state.
  - intros n Hn. rewrite Z.lor_spec, testbit_bit by lia. reflexivity.
Qed.

Lemma clear_bits_effect m : 0 <= m < 16 ->
  forall s, 0 <= s < 16 ->
    0 <= Z.land s (Z.lnot m) < 16
    /\ forall n, 0 <= n ->
         Z.testbit (Z.land s (Z.lnot m)) n
           = Z.testbit s n && negb (Z.testbit m n).
Proof.
  intros Hm s Hs. split.
  - revert s Hs. revert m Hm. apply (state16 (fun m => forall s, 0 <= s < 16 ->
      0 <= Z.land s (Z.lnot m) < 16)); each_state.
  - intros n Hn. rewrite Z.land_spec, Z.lnot_spec by exact Hn. reflexivity.
Qed.

(** ** The cpufreq notifier *)

Section NotifierFacts.
Variable C : cpufreq_platform.

(** X14.  [cpu_notifier_cb] always answers NOTIFY_OK and writes at most the
    policy's [min]; an action other than CPUFREQ_ADJUST leaves the policy
    alone.  On CPUFREQ_ADJUST, a max boost pins [min] to [max] whatever else
    is set; an input boost without max boost puts it at the cluster's boost
    frequency capped by [max], so that in both boosted cases [min] does not
    pass [max]; with neither it falls back to the cluster's unboosted
    frequency, not below the hardware minimum.  SCREEN_AWAKE and WAKE_BOOST
    play no part. *)
Theorem cpu_notifier_cb_moves_only_the_floor d action policy :
  let r := cpu_notifier_cb C d action policy in
  fst r = NOTIFY_OK C
  /\ max (snd r) = max policy /\ cpu (snd r) = cpu policy
  /\ cpuinfo (snd r) = cpuinfo policy
  /\ (action <> CPUFREQ_ADJUST C -> snd r = policy)
  /\ (action = CPUFREQ_ADJUST C ->
      (boost_bit_set d MAX_BOOST = true -> min (snd r) = max policy)
      /\ (boost_bit_set d MAX_BOOST = false ->
          boost_bit_set d INPUT_BOOST = true ->
          min (snd r) = Z.min (max policy) (get_boost_freq C d (cpu policy))
          /\ min (snd r) <= max policy)
      /\ (boost_bit_set d MAX_BOOST = false ->
          boost_bit_set d INPUT_BOOST = false ->
          min (snd r)
            = Z.max (min_freq (cpuinfo policy)) (get_min_freq C d (cpu policy))
          /\ min_freq (cpuinfo policy) <= min (snd r)))
  /\ (forall d', boost_bit_set d' MAX_BOOST = boost_bit_set d MAX_BOOST ->
        boost_bit_set d' INPUT_BOOST = boost_bit_set d INPUT_BOOST ->
        params d' = params d ->
        cpu_notifier_cb C d' action policy = r).
Proof.
  intros r. subst r. unfold cpu_notifier_cb.
  fold (boost_bit_set d MAX_BOOST). fold (boost_bit_set d INPUT_BOOST).
  destruct (Z.eqb_spec action (CPUFREQ_ADJUST C)) as [Ha|Ha]; cbn [negb].
  - destruct (boost_bit_set d MAX_BOOST) eqn:Hmax;
      [|destruct (boost_bit_set d INPUT_BOOST) eqn:Hin]; cbn [fst snd];
      (split; [reflexivity|]); (split; [reflexivity|]);
      (split; [reflexivity|]); (split; [reflexivity|]);
      (split; [intros Hne; contradiction|]); (split; [intros _|]).
    + split; [reflexivity|]. split; discriminate.
    + intros d' Hm Hi Hp.
      fold (boost_bit_set d' MAX_BOOST). rewrite Hm. reflexivity.
    + split; [discriminate|]. split; [|discriminate].
      intros _ _. split; [reflexivity|]. cbn [min set_min]. lia.
    + intros d' Hm Hi Hp.
      fold (boost_bit_set d' MAX_BOOST). fold (boost_bit_set d' INPUT_BOOST).
      rewrite Hm, Hi. unfold get_boost_freq. rewrite Hp. reflexivity.
    + split; [discriminate|]. split; [discriminate|].
      intros _ _. split; [reflexivity|]. cbn [min set_min]. lia.
    + intros d' Hm Hi Hp.
      fold (boost_bit_set d' MAX_BOOST). fold (boost_bit_set d' INPUT_BOOST).
      rewrite Hm, Hi. unfold get_min_freq. rewrite Hp. reflexivity.
  - cbn [fst snd]. do 4 (split; [reflexivity|]).
    split; [reflexivity|]. split; [intros He; contradiction|]. reflexivity.
Qed.
End NotifierFacts.

(** ** The driver at work *)

Section DriverFacts.
Variable P : platform.
Variable C : cpufreq_platform.

Local Abbreviation pending := workqueue.delayed_work_pending.
Local Abbreviation st d := (state (atomics d)).

(** A max-boost request writes neither the state bits nor, when it is
    dropped, the duration and the queue. *)
Lemma kick_max_frame races : forall now b duration_ms,
  let r := __cpu_input_boost_kick_max P races now b duration_ms in
  state (snd r) = state b
  /\ match fst r with
     | Dropped _ =>
         max_boost_dur (snd r) = max_boost_dur b
         /\ max_boost_queued (snd r) = max_boost_queued b
     | Committed _ _ =>
         max_boost_dur (snd r) = to_int duration_ms
         /\ max_boost_queued (snd r) = true
     end.
Proof.
  induction races as [|r races IH]; intros now b d; cbn [__cpu_input_boost_kick_max].
  - destruct (time_after _ _); cbn; auto.
  - destruct (time_after _ _); [cbn; auto|].
    destruct (to_ulong (at_cmpxchg r) =? _); [cbn; auto|].
    specialize (IH (jiffies_then r) (set_max_boost_expires (at_next_read r) b) d).
    exact IH.
Qed.

(** The invariant behind the boosts: the input boost bit is set exactly
    while its unboost is pending, the max boost bit only while its unboost is
    pending, WAKE_BOOST never, and the state stays within its four bits. *)
Local Abbreviation timed d :=
  (Z.testbit (st d) 1 = pending (input_unboost (works d))
   /\ (Z.testbit (st d) 3 = true -> pending (max_unboost (works d)) = true)
   /\ Z.testbit (st d) 2 = false
   /\ 0 <= st d < 16).

Lemma timed_same d d' :
  st d' = st d ->
  pending (input_unboost (works d')) = pending (input_unboost (works d)) ->
  pending (max_unboost (works d')) = pending (max_unboost (works d)) ->
  timed d -> timed d'.
Proof. intros -> -> ->. tauto. Qed.

Lemma timed_at_init : timed (driver_at_init C).
Proof. vm_compute. repeat split; try discriminate. Qed.

(** Reading fields through the driver's setters. *)
Ltac through_setters :=
  cbn [clear_boost_bit set_boost_bit update_online_cpu_policy
       kthread_queue_input_boost
       set_policy_updates set_atomics set_state set_max_boost_queued
       set_works set_params set_last_input_jiffies
       set_input_unboost set_max_unboost set_input_boost_queued
       atomics works params last_input_jiffies policy_updates
       state max_boost_queued max_boost_dur max_boost_expires
       input_unboost max_unboost input_boost_queued
       workqueue.cancel_delayed_work_sync workqueue.queue_delayed_work
       workqueue.delayed_work_pending fst snd negb] in *.

Lemma timed_unboost_all online d :
  timed d -> timed (unboost_all_cpus online d).
Proof.
  intros (Hin & Hmax & Hwake & Hr). unfold unboost_all_cpus.
  change (Z.lor (Z.lor INPUT_BOOST WAKE_BOOST) MAX_BOOST) with 14.
  destruct (clear_bits_effect 14 ltac:(lia) (st d) Hr) as [Hr' Hb].
  cbn [workqueue.cancel_delayed_work_sync].
  destruct (pending (input_unboost (works d))) eqn:Hpi; cbn [negb].
  - (* the input unboost was pending: the max unboost is not even tried *)
    through_setters.
    split; [rewrite Hb by lia; apply andb_false_r|].
    split; [rewrite Hb by lia; rewrite andb_false_r; discriminate|].
    split; [rewrite Hb by lia; apply andb_false_r|exact Hr'].
  - through_setters.
    destruct (pending (max_unboost (works d))) eqn:Hpm; through_setters.
    + split; [rewrite Hb by lia; apply andb_false_r|].
      split; [rewrite Hb by lia; rewrite andb_false_r; discriminate|].
      split; [rewrite Hb by lia; apply andb_false_r|exact Hr'].
    + split; [exact Hin|]. split; [|split; assumption].
      intros H. specialize (Hmax H). discriminate.
Qed.

Lemma timed_step d d' : driver_step P C d d' -> timed d -> timed d'.
Proof.
  intros Hstep Ht.
  destruct Hstep as [d d' Hk|d d' races now dur Hk|d now
                    |d races now online action blank
                    |d online Hq|d online Hq|d online Hp|d online Hp|d p].
  - (* cpu_input_boost_kick *)
    cbn [cpu_input_boost_kick] in Hk. inversion Hk; subst d'.
    revert Ht. apply timed_same; reflexivity.
  - (* cpu_input_boost_kick_max *)
    cbn [cpu_input_boost_kick_max_drv] in Hk. inversion Hk; subst d'.
    revert Ht. apply timed_same; try reflexivity.
    through_setters. apply kick_max_frame.
  - (* an input event *)
    unfold cpu_input_boost_input_event.
    destruct (_ =? 0); [exact Ht|].
    revert Ht. apply timed_same; reflexivity.
  - (* a framebuffer event *)
    unfold fb_notifier_cb.
    destruct (action =? FB_EARLY_EVENT_BLANK C); cbn [negb]; [|exact Ht].
    destruct (blank =? FB_BLANK_UNBLANK C); cbn [snd].
    + destruct Ht as (Hin & Hmax & Hwake & Hr).
      destruct (set_bit_effect 0 ltac:(lia) (st d) Hr) as [Hr' Hb].
      through_setters.
      destruct (kick_max_frame races now
                  (set_state (Z.lor (st d) SCREEN_AWAKE) (atomics d))
                  (to_uint (CONFIG_WAKE_BOOST_DURATION_MS C))) as [-> _].
      through_setters. change SCREEN_AWAKE with (Z.shiftl 1 0).
      rewrite !Hb by lia. cbn [Z.eqb]. rewrite !orb_false_r.
      split; [exact Hin|]. split; [exact Hmax|]. split; [exact Hwake|exact Hr'].
    + apply timed_unboost_all.
      destruct Ht as (Hin & Hmax & Hwake & Hr).
      destruct (clear_bits_effect 1 ltac:(lia) (st d) Hr) as [Hr' Hb].
      through_setters. change SCREEN_AWAKE with 1.
      rewrite !Hb by lia. change (Z.testbit 1 1) with false.
      change (Z.testbit 1 2) with false. change (Z.testbit 1 3) with false.
      cbn [negb]. rewrite !andb_true_r.
      split; [exact Hin|]. split; [exact Hmax|]. split; [exact Hwake|exact Hr'].
  - (* the input boost work runs *)
    destruct Ht as (Hin & Hmax & Hwake & Hr).
    destruct (set_bit_effect 1 ltac:(lia) (st d) Hr) as [Hr' Hb].
    unfold input_boost_worker. through_setters.
    destruct (pending (input_unboost (works d))) eqn:Hpi; through_setters.
    + split; [exact Hin|]. split; [exact Hmax|]. split; assumption.
    + change INPUT_BOOST with (Z.shiftl 1 1). rewrite !Hb by lia.
      cbn [Z.eqb]. rewrite !orb_false_r, orb_true_r.
      split; [reflexivity|]. split; [exact Hmax|]. split; assumption.
  - (* the max boost work runs *)
    destruct Ht as (Hin & Hmax & Hwake & Hr).
    destruct (set_bit_effect 3 ltac:(lia) (st d) Hr) as [Hr' Hb].
    unfold max_boost_worker. through_setters.
    destruct (pending (max_unboost (works d))) eqn:Hpm; through_setters.
    + split; [exact Hin|]. split; [reflexivity|]. split; assumption.
    + change MAX_BOOST with (Z.shiftl 1 3). rewrite !Hb by lia.
      cbn [Z.eqb]. rewrite !orb_false_r.
      split; [exact Hin|]. split; [reflexivity|]. split; assumption.
  - (* the input unboost comes due *)
    destruct Ht as (Hin & Hmax & Hwake & Hr).
    destruct (clear_bits_effect 2 ltac:(lia) (st d) Hr) as [Hr' Hb].
    unfold input_unboost_worker. through_setters. change INPUT_BOOST with 2.
    rewrite !Hb by lia. change (Z.testbit 2 1) with true.
    change (Z.testbit 2 2) with false. change (Z.testbit 2 3) with false.
    cbn [negb]. rewrite !andb_true_r, andb_false_r.
    split; [reflexivity|]. split; [exact Hmax|]. split; assumption.
  - (* the max unboost comes due *)
    destruct Ht as (Hin & Hmax & Hwake & Hr).
    destruct (clear_bits_effect 12 ltac:(lia) (st d) Hr) as [Hr' Hb].
    unfold max_unboost_worker. through_setters.
    change (Z.lor WAKE_BOOST MAX_BOOST) with 12.
    rewrite !Hb by lia. change (Z.testbit 12 1) with false.
    change (Z.testbit 12 2) with true. change (Z.testbit 12 3) with true.
    cbn [negb]. rewrite !andb_true_r, !andb_false_r.
    split; [exact Hin|]. split; [discriminate|]. split; [reflexivity|exact Hr'].
  - (* a parameter is written *)
    revert Ht. apply timed_same; reflexivity.
Qed.

Lemma timed_reachable d : driver_reachable P C d -> timed d.
Proof.
  unfold driver_reachable. revert d.
  apply (rtc_ind_r (fun d => timed d)); [apply timed_at_init|].
  intros y z _ Hstep IH. eapply timed_step; eassumption.
Qed.

(** X15.  In whatever order the entry points are called, the works run and the
    timers come due after a successful [cpu_input_boost_init]: INPUT_BOOST is
    set exactly while the [input_unboost] work that clears it is pending;
    MAX_BOOST is set only while [max_unboost] is pending; WAKE_BOOST is never
    set; and [b->state] stays within its four bits. *)
Theorem boost_bits_are_backed_by_their_timers d :
  driver_reachable P C d ->
  boost_bit_set d INPUT_BOOST
    = workqueue.delayed_work_pending (input_unboost (works d))
  /\ (boost_bit_set d MAX_BOOST = true ->
      workqueue.delayed_work_pending (max_unboost (works d)) = true)
  /\ boost_bit_set d WAKE_BOOST = false
  /\ 0 <= state (atomics d) < 16.
Proof.
  intros H. apply timed_reachable in H as (Hin & Hmax & Hwake & Hr).
  change INPUT_BOOST with (Z.shiftl 1 1). change MAX_BOOST with (Z.shiftl 1 3).
  change WAKE_BOOST with (Z.shiftl 1 2).
  rewrite !boost_bit_set_testbit by lia. tauto.
Qed.

Lemma testbit_set s k n : 0 <= k -> 0 <= n ->
  Z.testbit (Z.lor s (Z.shiftl 1 k)) n = Z.testbit s n || (k =? n).
Proof. intros Hk Hn. rewrite Z.lor_spec, testbit_bit by lia. reflexivity. Qed.

Lemma testbit_clear s m n : 0 <= n ->
  Z.testbit (Z.land s (Z.lnot m)) n = Z.testbit s n && negb (Z.testbit m n).
Proof. intros Hn. rewrite Z.land_spec, Z.lnot_spec by exact Hn. reflexivity. Qed.

Lemma set_works_same d : set_works (works d) d = d.
Proof. destruct d; reflexivity. Qed.

Lemma set_input_unboost_same k : set_input_unboost (input_unboost k) k = k.
Proof. destruct k; reflexivity. Qed.

Lemma set_max_unboost_same k : set_max_unboost (max_unboost k) k = k.
Proof. destruct k; reflexivity. Qed.

Lemma pending_false (dw : workqueue.delayed_work) : pending dw = false -> dw = None.
Proof. destruct dw; [discriminate|reflexivity]. Qed.

(** SCREEN_AWAKE is not among the bits [unboost_all_cpus] clears. *)
Lemma unboost_all_cpus_keeps_screen_awake online d :
  Z.testbit (st (unboost_all_cpus online d)) 0 = Z.testbit (st d) 0.
Proof.
  unfold unboost_all_cpus.
  change (Z.lor (Z.lor INPUT_BOOST WAKE_BOOST) MAX_BOOST) with 14.
  cbn [workqueue.cancel_delayed_work_sync].
  destruct (pending (input_unboost (works d))); through_setters.
  - rewrite testbit_clear by lia. apply andb_true_r.
  - destruct (pending (max_unboost (works d))); through_setters;
      [|reflexivity].
    rewrite testbit_clear by lia. apply andb_true_r.
Qed.

(** X16.  [unboost_all_cpus] always cancels the input unboost, and the max
    unboost only when the input unboost was idle.  If either cancel found its
    work pending, INPUT_BOOST, WAKE_BOOST and MAX_BOOST are all cleared, the
    other bits kept, and the policy of every online CPU is re-evaluated once;
    if neither did, the driver is left exactly as it was. *)
Theorem unboost_all_cpus_ends_the_boosts online d :
  let d' := unboost_all_cpus online d in
  input_unboost (works d') = None
  /\ (pending (input_unboost (works d)) = true ->
      max_unboost (works d') = max_unboost (works d))
  /\ (pending (input_unboost (works d)) = false ->
      max_unboost (works d') = None)
  /\ (pending (input_unboost (works d)) || pending (max_unboost (works d))
        = true ->
      boost_bit_set d' INPUT_BOOST = false
      /\ boost_bit_set d' WAKE_BOOST = false
      /\ boost_bit_set d' MAX_BOOST = false
      /\ boost_bit_set d' SCREEN_AWAKE = boost_bit_set d SCREEN_AWAKE
      /\ policy_updates d' = policy_updates d ++ online)
  /\ (pending (input_unboost (works d)) || pending (max_unboost (works d))
        = false -> d' = d).
Proof.
  intros d'. subst d'. unfold unboost_all_cpus.
  change (Z.lor (Z.lor INPUT_BOOST WAKE_BOOST) MAX_BOOST) with 14.
  change INPUT_BOOST with (Z.shiftl 1 1). change WAKE_BOOST with (Z.shiftl 1 2).
  change MAX_BOOST with (Z.shiftl 1 3). change SCREEN_AWAKE with (Z.shiftl 1 0).
  rewrite !boost_bit_set_testbit by lia.
  cbn [workqueue.cancel_delayed_work_sync].
  destruct (pending (input_unboost (works d))) eqn:Hpi; cbn [negb orb].
  - through_setters.
    rewrite !testbit_clear by lia.
    split; [reflexivity|]. split; [reflexivity|]. split; [discriminate|].
    split; [|discriminate]. intros _. repeat split; try apply andb_false_r.
    apply andb_true_r.
  - through_setters.
    destruct (pending (max_unboost (works d))) eqn:Hpm; through_setters.
    + rewrite !testbit_clear by lia.
      split; [reflexivity|]. split; [discriminate|]. split; [reflexivity|].
      split; [|discriminate]. intros _. repeat split; try apply andb_false_r.
      apply andb_true_r.
    + split; [reflexivity|]. split; [discriminate|]. split; [reflexivity|].
      split; [discriminate|]. intros _.
      apply pending_false in Hpi, Hpm.
      destruct d as [b [q iu mu] p j u]. through_setters. subst iu mu.
      reflexivity.
Qed.

(** X17.  Input events boost only while the screen is on.  The framebuffer
    notifier acts on FB_EARLY_EVENT_BLANK alone; it leaves SCREEN_AWAKE set
    after an unblank and clear after any other blank value, and nothing else
    in the driver writes that bit.  With the bit clear an input event is
    dropped whole; with it set the event queues the input boost work and
    records the time, and changes no state bit. *)
Theorem input_events_boost_only_while_the_screen_is_on :
  (forall races now online d action blank,
     action <> FB_EARLY_EVENT_BLANK C ->
     fb_notifier_cb P C races now online d action blank = (NOTIFY_OK C, d))
  /\ (forall races now online d blank now',
        let r := fb_notifier_cb P C races now online d
                   (FB_EARLY_EVENT_BLANK C) blank in
        fst r = NOTIFY_OK C
        /\ boost_bit_set (snd r) SCREEN_AWAKE = (blank =? FB_BLANK_UNBLANK C)
        /\ (blank <> FB_BLANK_UNBLANK C ->
            cpu_input_boost_input_event now' (snd r) = snd r))
  /\ (forall now d,
        boost_bit_set d SCREEN_AWAKE = false ->
        cpu_input_boost_input_event now d = d)
  /\ (forall now d,
        boost_bit_set d SCREEN_AWAKE = true ->
        let d' := cpu_input_boost_input_event now d in
        input_boost_queued (works d') = true
        /\ last_input_jiffies d' = now
        /\ atomics d' = atomics d)
  /\ (forall x y,
        driver_step P C x y ->
        boost_bit_set y SCREEN_AWAKE = boost_bit_set x SCREEN_AWAKE
        \/ exists races now online blank,
             y = snd (fb_notifier_cb P C races now online x
                        (FB_EARLY_EVENT_BLANK C) blank)).
Proof.
  assert (forall now d, boost_bit_set d SCREEN_AWAKE = false ->
            cpu_input_boost_input_event now d = d) as Hoff.
  { intros now d H. unfold cpu_input_boost_input_event.
    unfold boost_bit_set in H. apply negb_false_iff in H. rewrite H.
    reflexivity. }
  assert (forall races now online d blank,
            boost_bit_set
              (snd (fb_notifier_cb P C races now online d
                      (FB_EARLY_EVENT_BLANK C) blank)) SCREEN_AWAKE
              = (blank =? FB_BLANK_UNBLANK C)) as Hfb.
  { intros races now online d blank. unfold fb_notifier_cb.
    rewrite Z.eqb_refl. cbn [negb].
    change SCREEN_AWAKE with (Z.shiftl 1 0).
    destruct (blank =? FB_BLANK_UNBLANK C); cbn [snd];
      rewrite boost_bit_set_testbit by lia.
    - through_setters.
      destruct (kick_max_frame races now
                  (set_state (Z.lor (st d) (Z.shiftl 1 0)) (atomics d))
                  (to_uint (CONFIG_WAKE_BOOST_DURATION_MS C))) as [-> _].
      through_setters. rewrite testbit_set by lia. apply orb_true_r.
    - rewrite unboost_all_cpus_keeps_screen_awake.
      through_setters. rewrite testbit_clear by lia. apply andb_false_r. }
  split; [|split; [|split; [exact Hoff|split]]].
  - intros races now online d action blank Ha. unfold fb_notifier_cb.
    apply Z.eqb_neq in Ha. rewrite Ha. reflexivity.
  - intros races now online d blank now' r. subst r.
    split; [|split; [apply Hfb|]].
    + unfold fb_notifier_cb. rewrite Z.eqb_refl. cbn [negb].
      destruct (blank =? FB_BLANK_UNBLANK C); reflexivity.
    + intros Hb. apply Hoff. rewrite Hfb. apply Z.eqb_neq. exact Hb.
  - intros now d H d'. subst d'. unfold cpu_input_boost_input_event.
    unfold boost_bit_set in H. apply negb_true_iff in H. rewrite H.
    repeat split.
  - intros x y Hstep.
    destruct Hstep as [d d' Hk|d d' races now dur Hk|d now
                      |d races now online action blank
                      |d online Hq|d online Hq|d online Hp|d online Hp|d p].
    + left. cbn [cpu_input_boost_kick] in Hk. inversion Hk; subst d'.
      reflexivity.
    + left. cbn [cpu_input_boost_kick_max_drv] in Hk. inversion Hk; subst d'.
      unfold boost_bit_set, get_boost_state, atomic_read. through_setters.
      destruct (kick_max_frame races now (atomics d) dur) as [-> _].
      reflexivity.
    + left. unfold cpu_input_boost_input_event.
      destruct (_ =? 0); reflexivity.
    + destruct (Z.eqb_spec action (FB_EARLY_EVENT_BLANK C)) as [->|Ha].
      * right. exists races, now, online, blank. reflexivity.
      * left. unfold fb_notifier_cb. apply Z.eqb_neq in Ha. rewrite Ha.
        reflexivity.
    + left. change SCREEN_AWAKE with (Z.shiftl 1 0).
      rewrite !boost_bit_set_testbit by lia.
      unfold input_boost_worker. through_setters.
      destruct (pending (input_unboost (works d))); through_setters;
        [reflexivity|].
      change INPUT_BOOST with (Z.shiftl 1 1). rewrite testbit_set by lia.
      apply orb_false_r.
    + left. change SCREEN_AWAKE with (Z.shiftl 1 0).
      rewrite !boost_bit_set_testbit by lia.
      unfold max_boost_worker. through_setters.
      destruct (pending (max_unboost (works d))); through_setters;
        [reflexivity|].
      change MAX_BOOST with (Z.shiftl 1 3). rewrite testbit_set by lia.
      apply orb_false_r.
    + left. change SCREEN_AWAKE with (Z.shiftl 1 0).
      rewrite !boost_bit_set_testbit by lia.
      unfold input_unboost_worker. through_setters.
      rewrite testbit_clear by lia. apply andb_true_r.
    + left. change SCREEN_AWAKE with (Z.shiftl 1 0).
      rewrite !boost_bit_set_testbit by lia.
      unfold max_unboost_worker. through_setters.
      rewrite testbit_clear by lia. apply andb_true_r.
    + left. reflexivity.
Qed.

(** An [unsigned int] stored in an [int] and read back as an
    [unsigned int] is itself. *)
Lemma to_uint_to_int x : to_uint (to_int x) = to_uint x.
Proof.
  unfold to_int, to_uint.
  assert (0 <= x mod INT_MOD < INT_MOD) as Hu
    by (apply Z.mod_pos_bound; reflexivity).
  destruct (x mod INT_MOD <=? INT_MAX).
  - apply Z.mod_small. exact Hu.
  - symmetry. apply Z.mod_unique with (q := -1); [left|]; lia.
Qed.

Lemma to_uint_small x : 0 <= x < INT_MOD -> to_uint x = x.
Proof. apply Z.mod_small. Qed.

(** X18.  A max-boost request that is committed, for a duration that is an
    [unsigned int], leaves that duration in [max_boost_dur] as an [int] (the
    number itself up to INT_MAX, 2^32 less beyond) and the max boost work
    queued; when that work runs next it reads the duration back unsigned, and
    the unboost is pending for exactly the duration asked for, in jiffies,
    whether or not one was pending before.  MAX_BOOST is set and the policies
    are re-evaluated when no unboost was pending; otherwise the state bits
    are left as they were.  A dropped request changes neither. *)
Theorem max_boost_lasts_as_long_as_requested races now duration_ms online d :
  0 <= duration_ms < INT_MOD ->
  let r := __cpu_input_boost_kick_max P races now (atomics d) duration_ms in
  let d1 := set_atomics (snd r) d in
  let d2 := max_boost_worker P online
              (set_atomics (set_max_boost_queued false (atomics d1)) d1) in
  cpu_input_boost_kick_max_drv P races now (Some d) duration_ms = Some d1
  /\ match fst r with
     | Committed _ _ =>
         max_boost_dur (atomics d1) = to_int duration_ms
         /\ (duration_ms <= INT_MAX -> max_boost_dur (atomics d1) = duration_ms)
         /\ (INT_MAX < duration_ms ->
             max_boost_dur (atomics d1) = duration_ms - INT_MOD)
         /\ max_boost_queued (atomics d1) = true
         /\ max_unboost (works d2) = Some (msecs_to_jiffies P duration_ms)
         /\ (pending (max_unboost (works d)) = false ->
             boost_bit_set d2 MAX_BOOST = true
             /\ policy_updates d2 = policy_updates d ++ online)
         /\ (pending (max_unboost (works d)) = true ->
             state (atomics d2) = state (atomics d)
             /\ policy_updates d2 = policy_updates d)
     | Dropped _ =>
         max_boost_queued (atomics d1) = max_boost_queued (atomics d)
         /\ max_boost_dur (atomics d1) = max_boost_dur (atomics d)
         /\ state (atomics d1) = state (atomics d)
     end.
Proof.
  intros Hu r d1 d2. split; [reflexivity|].
  pose proof (kick_max_frame races now (atomics d) duration_ms) as [Hs Hk].
  fold r in Hs, Hk. destruct (fst r) as [kept|replaced stored].
  - destruct Hk as [Hd Hq]. subst d1. through_setters. auto.
  - destruct Hk as [Hd Hq].
    assert (to_uint (max_boost_dur (snd r)) = duration_ms) as Hback
      by (rewrite Hd, to_uint_to_int; apply to_uint_small; exact Hu).
    subst d2 d1. unfold max_boost_worker, atomic_read. through_setters.
    split; [exact Hd|].
    split; [intros Hle; rewrite Hd; unfold to_int;
            rewrite to_uint_small by exact Hu;
            apply Z.leb_le in Hle; rewrite Hle; reflexivity|].
    split; [intros Hgt; rewrite Hd; unfold to_int;
            rewrite to_uint_small by exact Hu;
            apply Z.leb_gt in Hgt; rewrite Hgt; reflexivity|].
    split; [exact Hq|].
    destruct (pending (max_unboost (works d))) eqn:Hp; through_setters.
    + rewrite Hback. split; [reflexivity|]. split; [discriminate|].
      intros _. split; [exact Hs|reflexivity].
    + rewrite Hback. split; [reflexivity|]. split; [|discriminate].
      intros _. split; [|reflexivity].
      change MAX_BOOST with (Z.shiftl 1 3).
      rewrite boost_bit_set_testbit by lia. through_setters.
      rewrite testbit_set by lia. apply orb_true_r.
Qed.
End DriverFacts.

(** ** Set-up and tear-down *)

Section SetupFacts.
Variable P : platform.
Variable C : cpufreq_platform.

(** X19.  [cpu_input_boost_init] is all or nothing.  It publishes
    [boost_drv_g] only when the allocation, the worker thread and the three
    registrations all succeeded, and then returns 0; the driver starts with
    SCREEN_AWAKE alone set and no work pending, and holds five resources.  In
    every other case it returns the error of the step that failed ([-ENOMEM]
    for the allocation), leaves [boost_drv_g] NULL, so that
    [cpu_input_boost_kick] stays a no-op, and has undone, latest first,
    everything it had set up.  A failing [sched_setscheduler] is not such a
    case. *)
Theorem cpu_input_boost_init_is_all_or_nothing r :
  let '(ret, g, calls) := cpu_input_boost_init P C r in
  (g = Some (driver_at_init C) /\ ret = 0
   /\ init_kzalloc r = true
   /\ IS_ERR C (init_kthread_run r) = false
   /\ init_cpufreq_register_notifier r = 0
   /\ init_input_register_handler r = 0
   /\ init_fb_register_client r = 0
   /\ held_after C [] calls
      = Some [ResFbClient; ResInputHandler; ResCpufreqNotifier;
              ResWorkerThread; ResMemory])
  \/ (g = None /\ cpu_input_boost_kick g = None
      /\ held_after C [] calls = Some []
      /\ ((init_kzalloc r = false /\ ret = - ENOMEM C)
          \/ (init_kzalloc r = true
              /\ IS_ERR C (init_kthread_run r) = true
              /\ ret = to_int (PTR_ERR C (init_kthread_run r)))
          \/ (init_cpufreq_register_notifier r <> 0
              /\ ret = init_cpufreq_register_notifier r)
          \/ (init_cpufreq_register_notifier r = 0
              /\ init_input_register_handler r <> 0
              /\ ret = init_input_register_handler r)
          \/ (init_cpufreq_register_notifier r = 0
              /\ init_input_register_handler r = 0
              /\ init_fb_register_client r <> 0
              /\ ret = init_fb_register_client r))).
Proof.
  unfold cpu_input_boost_init.
  destruct (init_kzalloc r) eqn:Hk; cbn [negb].
  2:{ right. repeat split. left. split; reflexivity. }
  destruct (IS_ERR C (init_kthread_run r)) eqn:He.
  { right. split; [reflexivity|]. split; [reflexivity|]. split.
    - cbn [app held_after acquires releases]. rewrite He. reflexivity.
    - right; left. repeat split. }
  assert (forall held tail,
            held_after C held
              ([kzalloc true; kthread_init_worker;
                kthread_run (init_kthread_run r)]
               ++ [sched_setscheduler (SCHED_FIFO P) (MAX_RT_PRIO P - 2)
                     (init_sched_setscheduler r)]
               ++ (if negb (init_sched_setscheduler r =? 0)
                   then [pr_err "Failed to set SCHED_FIFO on kworker, err: %d"
                           (init_sched_setscheduler r)]
                   else [])
               ++ tail)
            = held_after C (ResWorkerThread :: ResMemory :: held) tail)
    as Hhead.
  { intros held tail. cbn [app held_after acquires releases]. rewrite He.
    destruct (negb (init_sched_setscheduler r =? 0)); reflexivity. }
  destruct (Z.eqb_spec (init_cpufreq_register_notifier r) 0) as [Hc|Hc];
    cbn [negb].
  2:{ right. split; [reflexivity|]. split; [reflexivity|]. split.
      - rewrite <- !app_assoc, Hhead.
        cbn [app held_after acquires releases setup_resource_eqb].
        apply Z.eqb_neq in Hc. rewrite Hc. reflexivity.
      - right; right; left. split; [exact Hc|reflexivity]. }
  destruct (Z.eqb_spec (init_input_register_handler r) 0) as [Hi|Hi];
    cbn [negb].
  2:{ right. split; [reflexivity|]. split; [reflexivity|]. split.
      - rewrite <- !app_assoc, Hhead.
        cbn [app held_after acquires releases setup_resource_eqb].
        rewrite Hc. apply Z.eqb_neq in Hi. rewrite Hi. reflexivity.
      - right; right; right; left. repeat split; assumption. }
  destruct (Z.eqb_spec (init_fb_register_client r) 0) as [Hf|Hf];
    cbn [negb].
  2:{ right. split; [reflexivity|]. split; [reflexivity|]. split.
      - rewrite <- !app_assoc, Hhead.
        cbn [app held_after acquires releases setup_resource_eqb].
        rewrite Hc, Hi. apply Z.eqb_neq in Hf. rewrite Hf. reflexivity.
      - right; right; right; right. repeat split; assumption. }
  left. repeat split; try assumption.
  rewrite <- !app_assoc, Hhead.
  cbn [app held_after acquires releases setup_resource_eqb].
  rewrite Hc, Hi, Hf. reflexivity.
Qed.

(** X20.  [cpu_input_boost_input_connect] leaves a handle only when it was
    allocated, registered and opened; it is then bound to the device and the
    handler given and 0 is returned, and [cpu_input_boost_input_disconnect]
    undoes the three, latest first, so that nothing stays held.  When a step
    fails the call returns that step's error ([-ENOMEM] for the allocation)
    with what it had set up undone, latest first, and no handle left. *)
Theorem input_connect_leaves_nothing_half_done r (handler dev : Z) :
  let '(ret, handle, calls) := cpu_input_boost_input_connect C r handler dev in
  (ret = 0
   /\ handle = Some {| dev := dev; handler := handler;
                       name := "cpu_input_boost_handle" |}
   /\ connect_kzalloc r = true /\ connect_register_handle r = 0
   /\ connect_open_device r = 0
   /\ held_after C [] calls = Some [ResOpenDevice; ResInputHandle; ResMemory]
   /\ held_after C [] (calls ++ cpu_input_boost_input_disconnect) = Some [])
  \/ (handle = None /\ held_after C [] calls = Some []
      /\ ((connect_kzalloc r = false /\ ret = - ENOMEM C)
          \/ (connect_register_handle r <> 0
              /\ ret = connect_register_handle r)
          \/ (connect_register_handle r = 0 /\ connect_open_device r <> 0
              /\ ret = connect_open_device r))).
Proof.
  unfold cpu_input_boost_input_connect.
  destruct (connect_kzalloc r) eqn:Hk; cbn [negb].
  2:{ right. repeat split. left. split; reflexivity. }
  destruct (Z.eqb_spec (connect_register_handle r) 0) as [Hr|Hr]; cbn [negb].
  2:{ right. split; [reflexivity|]. split.
      - cbn [held_after acquires releases setup_resource_eqb].
        apply Z.eqb_neq in Hr. rewrite Hr. reflexivity.
      - right; left. split; [exact Hr|reflexivity]. }
  destruct (Z.eqb_spec (connect_open_device r) 0) as [Ho|Ho]; cbn [negb].
  2:{ right. split; [reflexivity|]. split.
      - cbn [held_after acquires releases setup_resource_eqb Z.eqb].
        apply Z.eqb_neq in Ho. rewrite Ho. reflexivity.
      - right; right. repeat split; assumption. }
  left. repeat split; assumption.
Qed.
End SetupFacts.

(** * The further properties on the sample platform *)

(** The scan of tier 2 signals pid 10, which is in the list, not the caller,
    and scores 900. *)
Lemma scan_and_kill_signals_only_targets_sample :
  sample_task 10 900 5000
    ∈ sig_victims
        (emitted sample_world
           (snd (scan_and_kill sample_platform 800 900 30000 sample_world)))
  /\ sample_task 10 900 5000 ∈ tasks sample_world
  /\ 800 <= oom_score_adj (signal (sample_task 10 900 5000)) <= 900.
Proof.
  assert (sample_task 10 900 5000
            ∈ sig_victims
                (emitted sample_world
                   (snd (scan_and_kill sample_platform 800 900 30000
                           sample_world)))) as Hin
    by (vm_compute; left).
  split; [exact Hin|].
  destruct (scan_and_kill_signals_only_targets sample_platform 800 900 30000
              sample_world _ Hin) as (Ht & _ & _ & _ & Ha & _).
  split; [exact Ht|exact Ha].
Defined.

(** Asked for 100000 pages, the scan of tier 2 comes back with 25000: it
    signalled pids 10, 12 and 13, and what is left of the tier is pid 13,
    whose signal fails. *)
Lemma scan_and_kill_short_scan_sample :
  fst (scan_and_kill sample_platform 800 900 100000 sample_world) < 100000
  /\ (forall t', t' ∈ tasks (snd (scan_and_kill sample_platform 800 900 100000
                                    sample_world)) ->
        is_target sample_platform 800 900 (current sample_world) t' = true ->
        do_send_sig_info sample_platform t' <> 0).
Proof.
  assert (fst (scan_and_kill sample_platform 800 900 100000 sample_world)
          < 100000) as Hshort by reflexivity.
  split; [exact Hshort|].
  exact (proj2 (scan_and_kill_short_scan_is_exhaustive sample_platform
                  800 900 100000 sample_world Hshort)).
Defined.

(** Asked for 20000 pages, the scan of tier 2 kills pids 10 and 12 and
    stops; without pid 12 it had 5000. *)
Lemma scan_and_kill_stops_sample :
  unsent_rss (tasks sample_world) < ULONG_MOD
  /\ map pid (sig_delivered
       (emitted sample_world
          (snd (scan_and_kill sample_platform 800 900 20000 sample_world))))
     = [10; 12]
  /\ fst (scan_and_kill sample_platform 800 900 20000 sample_world)
     - get_mm_rss (mm (sample_task 12 800 20000)) < 20000.
Proof.
  assert (unsent_rss (tasks sample_world) < ULONG_MOD) as Hfit by reflexivity.
  split; [exact Hfit|]. split; [reflexivity|].
  apply (proj1 (proj2 (scan_and_kill_stops_at_the_target sample_platform
                         800 900 20000 sample_world Hfit))
           [sample_task 10 900 5000] (sample_task 12 800 20000));
    reflexivity.
Defined.

(** A pass asked for 100000 pages signals pid 14, of score 100, last. *)
Lemma do_lmk_reclaim_spares_sample :
  sample_task 14 100 100
    ∈ sig_victims
        (emitted sample_world
           (snd (do_lmk_reclaim sample_platform 100000 1003 sample_world)))
  /\ 0 <= oom_score_adj (signal (sample_task 14 100 100)) <= 906.
Proof.
  assert (sample_task 14 100 100
            ∈ sig_victims
                (emitted sample_world
                   (snd (do_lmk_reclaim sample_platform 100000 1003 sample_world))))
    as Hin by (vm_compute; do 4 right; left).
  split; [exact Hin|].
  exact (proj1 (proj2 (do_lmk_reclaim_spares_scores_off_the_table
                         sample_platform 100000 1003 sample_world _ Hin))).
Defined.

(** In that pass pid 10 (score 900) is signalled before pid 11 (score 905):
    both are in tier 1. *)
Lemma do_lmk_reclaim_tier_by_tier_sample :
  sig_victims
    (emitted sample_world
       (snd (do_lmk_reclaim sample_platform 100000 1003 sample_world))) !! 0%nat
    = Some (sample_task 10 900 5000)
  /\ sig_victims
       (emitted sample_world
          (snd (do_lmk_reclaim sample_platform 100000 1003 sample_world))) !! 1%nat
     = Some (sample_task 11 905 3000)
  /\ exists k : nat, (1 <= k < ARRAY_SIZE adj_prio)%nat
       /\ at_index adj_prio k <= 900 /\ 905 <= at_index adj_prio (k - 1).
Proof.
  split; [reflexivity|]. split; [reflexivity|].
  apply (do_lmk_reclaim_signals_tier_by_tier sample_platform 100000 1003
           sample_world 0%nat 1%nat (sample_task 10 900 5000)
           (sample_task 11 905 3000)); [reflexivity|reflexivity|lia|].
  simpl. lia.
Defined.

(** The periodic worker on the sample world: at jiffies 1000 the interval
    has elapsed; it makes one pass, during which the counter goes from 1001
    at the boost request to 1003 at the end, records 1003 and re-arms. *)
Lemma reclaim_work_sample :
  reclaim_due sample_platform Kswapd sample_world = true
  /\ exists w',
       simple_lmk_reclaim_work sample_platform 1001 1003 sample_world = Some w'
       /\ reclaim_lock w' = false /\ reclaim_work_queued w' = true
       /\ passes_started (emitted sample_world w') = 1%nat
       /\ last_reclaim_jiffies w' = 1003.
Proof.
  split; [reflexivity|].
  destruct (simple_lmk_reclaim_work sample_platform 1001 1003 sample_world)
    as [w'|] eqn:Hw; [|discriminate Hw].
  exists w'. split; [reflexivity|].
  destruct (proj2 (reclaim_work_always_rearms sample_platform 1001 1003
                     sample_world) w' Hw) as (Hl & Hq & _ & _ & Hdue).
  split; [exact Hl|]. split; [exact Hq|]. exact (Hdue eq_refl).
Defined.

(** An urgent call on the sample world makes its gate test at jiffies 1000
    and its pass records 1003.  At jiffies 1025, which is the urgent interval
    of 25 after the gate test but 22 after the recorded time, neither
    trigger is due. *)
Lemma reclaim_rate_limit_sample :
  let w' := simple_lmk_force_reclaim sample_platform 1001 1003 sample_world in
  let w1 := set_jiffies (to_ulong (1003 + 22)) w' in
  jiffies sample_world = 1000 /\ jiffies w1 = 1025
  /\ last_reclaim_jiffies w' = 1003
  /\ reclaim_due sample_platform Oom w1 = false
  /\ reclaim_due sample_platform Kswapd w1 = false
  /\ simple_lmk_force_reclaim sample_platform 1026 1030 w1 = w1.
Proof.
  intros w' w1.
  destruct (reclaim_passes_are_rate_limited sample_platform Oom 1001 1003
              sample_world w' 22 eq_refl eq_refl)
    as (Hs & Ho & Hk & Hf & _);
    [split; [discriminate|reflexivity]
    |rewrite LONG_MAX_eq; lia
    |rewrite LONG_MAX_eq; simpl; lia
    |rewrite LONG_MAX_eq; simpl; lia|].
  split; [reflexivity|]. split; [reflexivity|]. split; [exact Hs|].
  split; [exact Ho|]. split; [exact Hk|]. apply Hf. simpl. lia.
Defined.

(** The sample system is reachable: the urgent trigger is called, the
    periodic work starts, the urgent caller goes as far as the pass, and the
    worker arrives at its [mutex_lock]. *)
Lemma sample_system_is_reachable : reachable sample_platform sample_system.
Proof.
  exists {| shared := sample_world; threads := [] |}.
  split; [split; reflexivity|].
  eapply rtc_l; [apply (StepCall sample_platform _ Oom)|].
  eapply rtc_l; [apply (StepCall sample_platform _ Kswapd)|].
  eapply rtc_l;
    [eapply (StepThread sample_platform _ 0%nat Oom AtEntry); reflexivity|].
  eapply rtc_l;
    [eapply (StepThread sample_platform _ 0%nat Oom AtLock); reflexivity|].
  eapply rtc_l;
    [eapply (StepThread sample_platform _ 0%nat Oom AtGate); reflexivity|].
  eapply rtc_l;
    [eapply (StepThread sample_platform _ 1%nat Kswapd AtEntry); reflexivity|].
  apply rtc_refl.
Qed.

(** On the sample system the worker waits, and the thread it waits for is
    the urgent caller, thread 0, which can run. *)
Lemma reclaim_lock_waiter_sample :
  thread_step sample_platform Kswapd AtLock (shared sample_system) = Sleeps
  /\ exists (j : nat) who' p',
       j <> 1%nat /\ threads sample_system !! j = Some (who', p')
       /\ holds_lock (who', p') = true
       /\ thread_step sample_platform who' p' (shared sample_system) <> Sleeps.
Proof.
  split; [reflexivity|].
  destruct (reclaim_lock_waiter_has_a_running_holder sample_platform
              sample_system sample_system_is_reachable 1%nat Kswapd AtLock
              eq_refl eq_refl)
    as (_ & _ & _ & j & who' & p' & Hj & Hth & Hh & Hrun & _).
  exists j, who', p'. repeat split; assumption.
Defined.

(** A pass asked for 100000 pages on the sample world kills 28100 pages'
    worth; what it leaves with a score in the table is pid 13, whose signal
    fails. *)
Lemma do_lmk_reclaim_falls_short_sample :
  100000 < ULONG_MOD /\ unsent_rss (tasks sample_world) < ULONG_MOD
  /\ footprints
       (sig_delivered
          (emitted sample_world
             (snd (do_lmk_reclaim sample_platform 100000 1003 sample_world))))
     = 28100
  /\ length (scan_rets
       (emitted sample_world
          (snd (do_lmk_reclaim sample_platform 100000 1003 sample_world))))
     = 10%nat.
Proof.
  assert (100000 < ULONG_MOD) as Hn by reflexivity.
  assert (unsent_rss (tasks sample_world) < ULONG_MOD) as Hfit by reflexivity.
  split; [exact Hn|]. split; [exact Hfit|]. split; [reflexivity|].
  exact (proj1 (do_lmk_reclaim_falls_short_only_when_nobody_is_left
                  sample_platform 100000 1003 sample_world Hn Hfit eq_refl)).
Defined.

(** A pass asked for 16384 pages kills pids 10, 11 and 12; the first two
    hold 8000 pages. *)
Lemma do_lmk_reclaim_kills_no_more_sample :
  0 < 16384 < ULONG_MOD /\ unsent_rss (tasks sample_world) < ULONG_MOD
  /\ footprints
       (take 2 (sig_delivered
                  (emitted sample_world
                     (snd (do_lmk_reclaim sample_platform 16384 1003
                             sample_world))))) < 16384.
Proof.
  assert (0 < 16384 < ULONG_MOD) as Hn by (split; reflexivity).
  assert (unsent_rss (tasks sample_world) < ULONG_MOD) as Hfit by reflexivity.
  split; [exact Hn|]. split; [exact Hfit|].
  apply (proj1 (do_lmk_reclaim_kills_no_more_than_needed sample_platform
                  16384 1003 sample_world Hn Hfit) 2%nat).
  vm_compute. lia.
Defined.

(** The boosted sample driver is reachable, has INPUT_BOOST set and its
    unboost pending for 64 ms, seven jiffies. *)
Lemma boost_bits_sample :
  driver_reachable sample_platform sample_cpufreq_platform sample_driver_boosted
  /\ boost_bit_set sample_driver_boosted INPUT_BOOST = true
  /\ input_unboost (works sample_driver_boosted) = Some 7
  /\ boost_bit_set sample_driver_boosted INPUT_BOOST
     = workqueue.delayed_work_pending
         (input_unboost (works sample_driver_boosted)).
Proof.
  assert (driver_reachable sample_platform sample_cpufreq_platform
            sample_driver_boosted) as Hreach.
  { unfold driver_reachable.
    eapply rtc_l; [eapply StepKick; reflexivity|].
    eapply rtc_l; [eapply (StepInputBoostWork _ _ _ [0; 1; 2; 3]); reflexivity|].
    apply rtc_refl. }
  split; [exact Hreach|]. split; [reflexivity|]. split; [reflexivity|].
  exact (proj1 (boost_bits_are_backed_by_their_timers sample_platform
                  sample_cpufreq_platform sample_driver_boosted Hreach)).
Defined.

(** A 3000000000 ms max boost on the driver as set up, at jiffies 1000: the
    duration lies beyond INT_MAX and is held in [max_boost_dur] as a negative
    [int]; the work that runs next still arms the unboost for the whole of
    it, 300000000 jiffies. *)
Lemma max_boost_beyond_int_max_sample :
  0 <= 3000000000 < INT_MOD
  /\ INT_MAX < 3000000000
  /\ 3000000000 - INT_MOD = -1294967296
  /\ msecs_to_jiffies sample_platform 3000000000 = 300000000
  /\ (let d := driver_at_init sample_cpufreq_platform in
      let r := __cpu_input_boost_kick_max sample_platform [] 1000 (atomics d)
                 3000000000 in
      let d1 := set_atomics (snd r) d in
      let d2 := max_boost_worker sample_platform [0; 1; 2; 3]
                  (set_atomics (set_max_boost_queued false (atomics d1)) d1) in
      max_boost_dur (atomics d1) = 3000000000 - INT_MOD
      /\ max_unboost (works d2)
         = Some (msecs_to_jiffies sample_platform 3000000000)).
Proof.
  assert (0 <= 3000000000 < INT_MOD) as Hu by (split; [lia|reflexivity]).
  split; [exact Hu|]. split; [reflexivity|]. split; [reflexivity|].
  split; [reflexivity|]. intros d r d1 d2.
  pose proof (max_boost_lasts_as_long_as_requested sample_platform [] 1000
                3000000000 [0; 1; 2; 3] d Hu) as [_ H].
  cbv zeta in H. fold r in H.
  change (fst r) with (Committed 0 300001000) in H. cbv iota in H.
  destruct H as (_ & _ & Hneg & _ & Hrun & _).
  split; [apply Hneg; reflexivity|exact Hrun].
Defined.
